(** * EHCI root hub: port state controller (drivers/usb/host/ehci-hub.c)

    A shallow embedding of the root-hub code of the EHCI host controller
    driver: [check_reset_complete], [ehci_hub_control],
    [ehci_handover_companion_ports], [ehci_bus_suspend] and
    [ehci_hub_status_data], followed by the properties of the hub
    specification that were checked against them.  [ehci_port_change],
    [ehci_adjust_port_wakeup_flags], [set_owner], [ehci_relinquish_port],
    [ehci_port_handed_over] and the loops of [ehci_bus_resume] over the ports
    are embedded as well; the last part has their properties, and more of
    those of the functions above.

    Hardware is modelled in the style of memory-mapped I/O traces: every
    register access of the driver is an event of a log, and what a read
    returns is decided by an environment that sees the whole history.  The
    theorems hold for every such environment. *)

From Stdlib Require Import ZArith List Bool Lia.
Import ListNotations.
Local Open Scope Z_scope.

(* ------------------------------------------------------------------------- *)
(** ** Machine integers *)

Definition u32 (z : Z) : Z := z mod 2 ^ 32.
Definition u16 (z : Z) : Z := z mod 2 ^ 16.

(** [unsigned long] and [long] of the 32-bit ARM target. *)
Definition ulong (z : Z) : Z := z mod 2 ^ 32.
Definition slong (z : Z) : Z :=
  let w := z mod 2 ^ 32 in if w <? 2 ^ 31 then w else w - 2 ^ 32.

(** C's [if (x & m)]. *)
Definition tst (x m : Z) : bool := negb (Z.land x m =? 0).

(** [test_bit], [set_bit], [clear_bit] on an [unsigned long] bitmap. *)
Definition test_bit (nr : Z) (addr : Z) : bool := Z.testbit addr nr.
Definition set_bit (nr : Z) (addr : Z) : Z := Z.lor addr (Z.shiftl 1 nr).
Definition clear_bit (nr : Z) (addr : Z) : Z := Z.land addr (Z.lnot (Z.shiftl 1 nr)).

(** jiffies comparisons of include/linux/jiffies.h, on wrapping counters. *)
Definition time_after_eq (a b : Z) : bool := 0 <=? slong (slong a - slong b).
Definition time_before (a b : Z) : bool := slong (slong a - slong b) <? 0.

(* ------------------------------------------------------------------------- *)
(** ** Register layout and protocol constants *)

(** Modelled from the spec: the headers that give the bits of the port
    register their positions (include/linux/usb/ehci_def.h), the hub-class
    request and feature codes (include/linux/usb/ch11.h, drivers/usb/core/hcd.h)
    and the errno values are not part of the source sample.  The spec names
    each bit (connect, enable, suspend, resume, over-current, reset, power,
    owner and their change latches); the positions below are the ones fixed by
    the EHCI 1.0 register definition and by chapter 11 of USB 2.0. *)
Definition PORT_CONNECT : Z := Z.shiftl 1 0.
Definition PORT_CSC : Z := Z.shiftl 1 1.
Definition PORT_PE : Z := Z.shiftl 1 2.
Definition PORT_PEC : Z := Z.shiftl 1 3.
Definition PORT_OC : Z := Z.shiftl 1 4.
Definition PORT_OCC : Z := Z.shiftl 1 5.
Definition PORT_RESUME : Z := Z.shiftl 1 6.
Definition PORT_SUSPEND : Z := Z.shiftl 1 7.
Definition PORT_RESET : Z := Z.shiftl 1 8.
Definition PORT_LPM : Z := Z.shiftl 1 9.
Definition PORT_LINE_STATUS : Z := Z.shiftl 3 10.
Definition PORT_POWER : Z := Z.shiftl 1 12.
Definition PORT_OWNER : Z := Z.shiftl 1 13.
Definition PORT_WKCONN_E : Z := Z.shiftl 1 20.
Definition PORT_WKDISC_E : Z := Z.shiftl 1 21.
Definition PORT_WKOC_E : Z := Z.shiftl 1 22.
Definition PORT_DEV_ADDR : Z := Z.shiftl 127 25.
Definition PORT_RWC_BITS : Z := Z.lor (Z.lor PORT_CSC PORT_PEC) PORT_OCC.
Definition PORT_USB11 (x : Z) : bool := Z.land x PORT_LINE_STATUS =? Z.shiftl 1 10.

Definition HOSTPC_PHCD : Z := Z.shiftl 1 22.
Definition CMD_RUN : Z := Z.shiftl 1 0.
Definition STS_INT : Z := Z.shiftl 1 0.
Definition STS_ERR : Z := Z.shiftl 1 1.
Definition STS_PCD : Z := Z.shiftl 1 2.
Definition STS_FATAL : Z := Z.shiftl 1 4.
Definition STS_IAA : Z := Z.shiftl 1 5.
Definition STS_HALT : Z := Z.shiftl 1 12.
Definition INTR_MASK : Z :=
  Z.lor (Z.lor (Z.lor (Z.lor STS_IAA STS_FATAL) STS_PCD) STS_ERR) STS_INT.
Definition DBGP_ENABLED : Z := Z.shiftl 1 28.

Definition HCS_N_PORTS (p : Z) : Z := Z.land p 15.
Definition HCS_PPC (p : Z) : bool := tst p (Z.shiftl 1 4).
Definition HCS_DEBUG_PORT (p : Z) : Z := Z.land (Z.shiftr p 20) 15.

Definition ClearHubFeature : Z := 0x2001.
Definition ClearPortFeature : Z := 0x2301.
Definition GetHubDescriptor : Z := 0xa006.
Definition GetHubStatus : Z := 0xa000.
Definition GetPortStatus : Z := 0xa300.
Definition SetHubFeature : Z := 0x2003.
Definition SetPortFeature : Z := 0x2303.

Definition C_HUB_LOCAL_POWER : Z := 0.
Definition C_HUB_OVER_CURRENT : Z := 1.

Definition USB_PORT_FEAT_ENABLE : Z := 1.
Definition USB_PORT_FEAT_SUSPEND : Z := 2.
Definition USB_PORT_FEAT_RESET : Z := 4.
Definition USB_PORT_FEAT_POWER : Z := 8.
Definition USB_PORT_FEAT_C_CONNECTION : Z := 16.
Definition USB_PORT_FEAT_C_ENABLE : Z := 17.
Definition USB_PORT_FEAT_C_SUSPEND : Z := 18.
Definition USB_PORT_FEAT_C_OVER_CURRENT : Z := 19.
Definition USB_PORT_FEAT_C_RESET : Z := 20.
Definition USB_PORT_FEAT_TEST : Z := 21.

Definition USB_PORT_STAT_CONNECTION : Z := 0x0001.
Definition USB_PORT_STAT_ENABLE : Z := 0x0002.
Definition USB_PORT_STAT_SUSPEND : Z := 0x0004.
Definition USB_PORT_STAT_OVERCURRENT : Z := 0x0008.
Definition USB_PORT_STAT_RESET : Z := 0x0010.
Definition USB_PORT_STAT_POWER : Z := 0x0100.
Definition USB_PORT_STAT_LOW_SPEED : Z := 0x0200.
Definition USB_PORT_STAT_HIGH_SPEED : Z := 0x0400.
Definition USB_PORT_STAT_C_CONNECTION : Z := 0x0001.
Definition USB_PORT_STAT_C_ENABLE : Z := 0x0002.
Definition USB_PORT_STAT_C_SUSPEND : Z := 0x0004.
Definition USB_PORT_STAT_C_OVERCURRENT : Z := 0x0008.
Definition USB_PORT_STAT_C_RESET : Z := 0x0010.

Definition EPIPE : Z := 32.
Definition EBUSY : Z := 16.
Definition ENODEV : Z := 19.

Definition EHSET_TEST_SINGLE_STEP_SET_FEATURE : Z := 0x06.

(** [PORT_WAKE_BITS], the one mask the file itself defines. *)
Definition PORT_WAKE_BITS : Z := Z.lor (Z.lor PORT_WKOC_E PORT_WKDISC_E) PORT_WKCONN_E.

(* ------------------------------------------------------------------------- *)
(** ** Registers, events and the environment *)

Inductive reg : Type :=
| port_status (i : Z)
| hostpc (i : Z)
| reg_command
| reg_status
| reg_intr_enable
| debug_control.

Inductive timer : Type := watchdog | iaa_watchdog | rh_timer.

(** Calls that leave the port state controller: scheduling, timers, delays,
    the OTG transceiver, the companion's state and the EHSET diagnostic. *)
Inductive extcall : Type :=
| x_ehci_halt
| x_ehci_quiesce
| x_ehci_work
| x_end_unlink_async
| x_del_timer_sync (t : timer)
| x_mod_timer (t : timer) (expires : Z)
| x_msleep (msecs : Z)
| x_udelay (usecs : Z)
| x_usleep_range (lo hi : Z)
| x_otg_start_hnp
| x_set_ohci_hcfs (operational : Z)
| x_ehset_single_step_set_feature (port : Z) (ret : Z)
| x_ktime_get.

Inductive event : Type :=
| ev_readl (r : reg) (v : Z)
| ev_writel (v : Z) (r : reg)
| ev_handshake (r : reg) (mask done usec : Z) (ret : Z)
| ev_call (c : extcall).

(** The log keeps the newest event first. *)
Definition history := list event.

(* ------------------------------------------------------------------------- *)
(** ** Controller state *)

Inductive ehci_rh_state : Type := EHCI_RH_HALTED | EHCI_RH_SUSPENDED | EHCI_RH_RUNNING.

(** The fields the modelled functions only read: capabilities, quirks, build
    options and the module parameter [ignore_oc]. *)
Record ehci_config : Type := {
  hcs_params : Z;
  companion_ports : Z;
  has_hostpc : bool;
  has_lpm : bool;
  has_ppcd : bool;
  has_amcc_usb23 : bool;
  no_selective_suspend : bool;
  susp_sof_bug : bool;
  reset_sof_bug : bool;
  ehci_is_TDI : bool;
  debug : bool;
  do_remote_wakeup : bool;
  otg_port : Z;
  b_hnp_enable : bool;
  enable_ulpi_control : bool;
  ignore_oc : bool;
  CONFIG_USB_OTG : bool;
  CONFIG_USB_EHCI_EHSET : bool
}.

(** What the driver does not decide: the value a register read returns, the
    result of the busy-wait primitive, of the EHSET diagnostic, whether an
    async unlink is still being reclaimed, and the two helpers of headers
    that are not in the source sample.  Each sees the history so far. *)
Record environment : Type := {
  hw_read : history -> reg -> Z;
  hw_handshake : history -> reg -> Z -> Z -> Z -> Z;
  ehset_result : history -> Z -> Z;
  reclaim_pending : history -> bool;
  msecs_to_jiffies : Z -> Z;
  ehci_port_speed : ehci_config -> Z -> Z
}.

(** The fields they write, the clock and the log. *)
Record ehci_hcd : Type := mk_ehci {
  bus_suspended : Z;
  owned_ports : Z;
  port_c_suspend : Z;
  suspended_ports : Z;
  resuming_ports : Z;
  reset_done : Z -> Z;
  rh_state : ehci_rh_state;
  command : Z;
  next_statechange : Z;
  jiffies : Z;
  log : history
}.

Definition set_bus_suspended (v : Z) (e : ehci_hcd) : ehci_hcd :=
  mk_ehci v (owned_ports e) (port_c_suspend e) (suspended_ports e) (resuming_ports e)
    (reset_done e) (rh_state e) (command e) (next_statechange e) (jiffies e) (log e).
Definition set_owned_ports (v : Z) (e : ehci_hcd) : ehci_hcd :=
  mk_ehci (bus_suspended e) v (port_c_suspend e) (suspended_ports e) (resuming_ports e)
    (reset_done e) (rh_state e) (command e) (next_statechange e) (jiffies e) (log e).
Definition set_port_c_suspend (v : Z) (e : ehci_hcd) : ehci_hcd :=
  mk_ehci (bus_suspended e) (owned_ports e) v (suspended_ports e) (resuming_ports e)
    (reset_done e) (rh_state e) (command e) (next_statechange e) (jiffies e) (log e).
Definition set_suspended_ports (v : Z) (e : ehci_hcd) : ehci_hcd :=
  mk_ehci (bus_suspended e) (owned_ports e) (port_c_suspend e) v (resuming_ports e)
    (reset_done e) (rh_state e) (command e) (next_statechange e) (jiffies e) (log e).
Definition set_resuming_ports (v : Z) (e : ehci_hcd) : ehci_hcd :=
  mk_ehci (bus_suspended e) (owned_ports e) (port_c_suspend e) (suspended_ports e) v
    (reset_done e) (rh_state e) (command e) (next_statechange e) (jiffies e) (log e).
Definition set_reset_done (i v : Z) (e : ehci_hcd) : ehci_hcd :=
  mk_ehci (bus_suspended e) (owned_ports e) (port_c_suspend e) (suspended_ports e)
    (resuming_ports e) (fun j => if j =? i then v else reset_done e j)
    (rh_state e) (command e) (next_statechange e) (jiffies e) (log e).
Definition set_rh_state (v : ehci_rh_state) (e : ehci_hcd) : ehci_hcd :=
  mk_ehci (bus_suspended e) (owned_ports e) (port_c_suspend e) (suspended_ports e)
    (resuming_ports e) (reset_done e) v (command e) (next_statechange e) (jiffies e) (log e).
Definition set_command (v : Z) (e : ehci_hcd) : ehci_hcd :=
  mk_ehci (bus_suspended e) (owned_ports e) (port_c_suspend e) (suspended_ports e)
    (resuming_ports e) (reset_done e) (rh_state e) v (next_statechange e) (jiffies e) (log e).
Definition set_next_statechange (v : Z) (e : ehci_hcd) : ehci_hcd :=
  mk_ehci (bus_suspended e) (owned_ports e) (port_c_suspend e) (suspended_ports e)
    (resuming_ports e) (reset_done e) (rh_state e) (command e) v (jiffies e) (log e).
Definition set_jiffies (v : Z) (e : ehci_hcd) : ehci_hcd :=
  mk_ehci (bus_suspended e) (owned_ports e) (port_c_suspend e) (suspended_ports e)
    (resuming_ports e) (reset_done e) (rh_state e) (command e) (next_statechange e) v (log e).
Definition set_log (v : history) (e : ehci_hcd) : ehci_hcd :=
  mk_ehci (bus_suspended e) (owned_ports e) (port_c_suspend e) (suspended_ports e)
    (resuming_ports e) (reset_done e) (rh_state e) (command e) (next_statechange e)
    (jiffies e) v.

(* ------------------------------------------------------------------------- *)
(** ** A state monad with early exit

    [goto error] and [goto error_exit] leave the request with a return value;
    whatever was written before stays written. *)

Inductive outcome (A : Type) : Type :=
| Done (a : A)
| Fail (retval : Z).
Arguments Done {A} a.
Arguments Fail {A} retval.

Definition M (A : Type) : Type := ehci_hcd -> outcome A * ehci_hcd.

Definition ret {A} (a : A) : M A := fun s => (Done a, s).
Definition bind {A B} (m : M A) (k : A -> M B) : M B :=
  fun s => match m s with
           | (Done a, s1) => k a s1
           | (Fail r, s1) => (Fail r, s1)
           end.
Definition fail {A} (r : Z) : M A := fun s => (Fail r, s).
Definition gets {A} (f : ehci_hcd -> A) : M A := fun s => (Done (f s), s).
Definition modify (f : ehci_hcd -> ehci_hcd) : M unit := fun s => (Done tt, f s).
Definition when (b : bool) (m : M unit) : M unit := if b then m else ret tt.

Declare Scope hub_scope.
Delimit Scope hub_scope with hub.
Notation "x <- m ;; k" := (bind m (fun x => k))
  (at level 61, m at next level, right associativity) : hub_scope.
Notation "m ;; k" := (bind m (fun _ => k))
  (at level 61, right associativity) : hub_scope.
Local Open Scope hub_scope.

Definition goto_error {A} : M A := fail (- EPIPE).

Section Primitives.
Variable env : environment.

Definition emit (e : event) : M unit := modify (fun s => set_log (e :: log s) s).
Definition call (c : extcall) : M unit := emit (ev_call c).

Definition ehci_readl (r : reg) : M Z :=
  fun s => let v := u32 (hw_read env (log s) r) in
           (Done v, set_log (ev_readl r v :: log s) s).
Definition ehci_writel (v : Z) (r : reg) : M unit := emit (ev_writel v r).
Definition handshake (r : reg) (mask done usec : Z) : M Z :=
  fun s => let rc := hw_handshake env (log s) r mask done usec in
           (Done rc, set_log (ev_handshake r mask done usec rc :: log s) s).

(** Sleeping is the one way the clock moves inside a call. *)
Definition msleep (msecs : Z) : M unit :=
  call (x_msleep msecs) ;;
  modify (fun s => set_jiffies (ulong (jiffies s + msecs_to_jiffies env msecs)) s).
Definition usleep_range (lo hi : Z) : M unit :=
  call (x_usleep_range lo hi) ;;
  modify (fun s => set_jiffies (ulong (jiffies s + msecs_to_jiffies env (lo / 1000))) s).

(** [jiffies + msecs_to_jiffies(n)] as an [unsigned long]. *)
Definition deadline (s : ehci_hcd) (msecs : Z) : Z :=
  ulong (jiffies s + msecs_to_jiffies env msecs).
End Primitives.

(* ------------------------------------------------------------------------- *)
(** ** The hub descriptor and the reply buffer *)

Record usb_hub_descriptor : Type := {
  bDescLength : Z;
  bDescriptorType : Z;
  bNbrPorts : Z;
  wHubCharacteristics : Z;
  bPwrOn2PwrGood : Z;
  bHubContrCurrent : Z;
  DeviceRemovable : list Z
}.

(** What a request leaves in [buf]. *)
Inductive reply : Type :=
| no_reply
| reply_port_status (status : Z)
| reply_hub_status (status : Z)
| reply_hub_descriptor (desc : usb_hub_descriptor).

Definition ehci_hub_descriptor (cfg : ehci_config) : usb_hub_descriptor :=
  let ports := HCS_N_PORTS (hcs_params cfg) in
  let temp := 1 + ports / 8 in
  {| bDescriptorType := 0x29;
     bPwrOn2PwrGood := 10;
     bHubContrCurrent := 0;
     bNbrPorts := ports;
     bDescLength := 7 + 2 * temp;
     DeviceRemovable := repeat 0 (Z.to_nat temp) ++ repeat 0xff (Z.to_nat temp);
     wHubCharacteristics :=
       if HCS_PPC (hcs_params cfg) then Z.lor 0x0008 0x0001 else Z.lor 0x0008 0x0002 |}.

(* ------------------------------------------------------------------------- *)
(** ** [check_reset_complete] and [ehci_hub_control] *)

Section HubControl.
Variable env : environment.
Variable cfg : ehci_config.

Definition check_reset_complete (index : Z) (status_reg : reg) (port_status : Z) : M Z :=
  if negb (tst port_status PORT_CONNECT) then ret port_status
  else if negb (tst port_status PORT_PE) then
    (* if reset finished and it's still not enabled -- handoff *)
    if ehci_is_TDI cfg then ret port_status
    else
      let port_status := Z.lor port_status PORT_OWNER in
      let port_status := Z.land port_status (Z.lnot PORT_RWC_BITS) in
      ehci_writel port_status status_reg ;;
      when (has_amcc_usb23 cfg) (call (x_set_ohci_hcfs 1)) ;;
      ret port_status
  else
    when (has_amcc_usb23 cfg) (call (x_set_ohci_hcfs 0)) ;;
    ret port_status.

(** [hostpc_reg] is NULL unless the controller has the HOSTPC registers. *)
Definition hostpc_reg_of (wIndex : Z) : option reg :=
  if has_hostpc cfg then Some (hostpc (Z.land wIndex 0xff - 1)) else None.

(** *** ClearPortFeature, after the range check and [wIndex--] *)

Definition clear_port_feature (wValue wIndex : Z) (status_reg : reg)
    (hostpc_reg : option reg) : M unit :=
  temp <- ehci_readl env status_reg ;;
  (if wValue =? USB_PORT_FEAT_ENABLE then
     ehci_writel (Z.land temp (Z.lnot PORT_PE)) status_reg
   else if wValue =? USB_PORT_FEAT_C_ENABLE then
     ehci_writel (Z.lor (Z.land temp (Z.lnot PORT_RWC_BITS)) PORT_PEC) status_reg
   else if wValue =? USB_PORT_FEAT_SUSPEND then
     if tst temp PORT_RESET then goto_error
     else if no_selective_suspend cfg then ret tt
     else if CONFIG_USB_OTG cfg && (otg_port cfg =? wIndex + 1) && b_hnp_enable cfg then
       call x_otg_start_hnp
     else if negb (tst temp PORT_SUSPEND) then ret tt
     else if Z.land temp PORT_PE =? 0 then goto_error
     else
       (* clear phy low-power mode before resume *)
       match hostpc_reg with
       | Some hreg =>
           temp1 <- ehci_readl env hreg ;;
           ehci_writel (Z.land temp1 (Z.lnot HOSTPC_PHCD)) hreg ;;
           msleep env 5
       | None => ret tt
       end ;;
       (* resume signaling for 20 msec *)
       let temp := Z.land temp (Z.lnot (Z.lor PORT_RWC_BITS PORT_WAKE_BITS)) in
       ehci_writel (Z.lor temp PORT_RESUME) status_reg ;;
       modify (fun s => set_reset_done wIndex (deadline env s 20) s)
   else if wValue =? USB_PORT_FEAT_C_SUSPEND then
     modify (fun s => set_port_c_suspend (clear_bit wIndex (port_c_suspend s)) s)
   else if wValue =? USB_PORT_FEAT_POWER then
     when (HCS_PPC (hcs_params cfg))
       (ehci_writel (Z.land temp (Z.lnot (Z.lor PORT_RWC_BITS PORT_POWER))) status_reg)
   else if wValue =? USB_PORT_FEAT_C_CONNECTION then
     let temp := if has_lpm cfg
                 then Z.land (Z.land temp (Z.lnot PORT_LPM)) (Z.lnot PORT_DEV_ADDR)
                 else temp in
     ehci_writel (Z.lor (Z.land temp (Z.lnot PORT_RWC_BITS)) PORT_CSC) status_reg
   else if wValue =? USB_PORT_FEAT_C_OVER_CURRENT then
     ehci_writel (Z.lor (Z.land temp (Z.lnot PORT_RWC_BITS)) PORT_OCC) status_reg
   else if wValue =? USB_PORT_FEAT_C_RESET then
     ret tt  (* GetPortStatus clears reset *)
   else goto_error) ;;
  _ <- ehci_readl env reg_command ;;  (* unblock posted write *)
  ret tt.

(** *** GetPortStatus, after the range check and [wIndex--]

    One definition per block of the source, in the order of the source. *)

(** wPortChange bits, and the forced power-off on over-current. *)
Definition gps_change_bits (status_reg : reg) : M (Z * Z) :=
  temp <- ehci_readl env status_reg ;;
  let status := 0 in
  let status := if tst temp PORT_CSC
                then Z.lor status (Z.shiftl USB_PORT_STAT_C_CONNECTION 16) else status in
  let status := if tst temp PORT_PEC
                then Z.lor status (Z.shiftl USB_PORT_STAT_C_ENABLE 16) else status in
  if tst temp PORT_OCC && negb (ignore_oc cfg) then
    let status := Z.lor status (Z.shiftl USB_PORT_STAT_C_OVERCURRENT 16) in
    if tst temp PORT_OC && HCS_PPC (hcs_params cfg) then
      ehci_writel (Z.land temp (Z.lnot (Z.lor PORT_RWC_BITS PORT_POWER))) status_reg ;;
      temp <- ehci_readl env status_reg ;;
      ret (temp, status)
    else ret (temp, status)
  else ret (temp, status).

(** whoever resumes must GetPortStatus to complete it!! *)
Definition gps_resume (wIndex : Z) (status_reg : reg) (temp : Z) : M Z :=
  if tst temp PORT_RESUME then
    s <- gets (fun s => s) ;;
    if reset_done s wIndex =? 0 then
      (* Remote Wakeup received?  resume signaling for 20 msec *)
      modify (set_reset_done wIndex (deadline env s 20)) ;;
      s1 <- gets (fun s => s) ;;
      call (x_mod_timer rh_timer (reset_done s1 wIndex)) ;;
      ret temp
    else if time_after_eq (jiffies s) (reset_done s wIndex) then
      (* resume completed? *)
      modify (fun s => set_suspended_ports (clear_bit wIndex (suspended_ports s)) s) ;;
      modify (fun s => set_port_c_suspend (set_bit wIndex (port_c_suspend s)) s) ;;
      modify (set_reset_done wIndex 0) ;;
      (* stop resume signaling *)
      temp <- ehci_readl env status_reg ;;
      ehci_writel (Z.land temp (Z.lnot (Z.lor PORT_RWC_BITS PORT_RESUME))) status_reg ;;
      modify (fun s => set_resuming_ports (clear_bit wIndex (resuming_ports s)) s) ;;
      retval <- handshake env status_reg PORT_RESUME 0 2000 ;;
      if negb (retval =? 0) then goto_error
      else ret (Z.land temp
                  (Z.lnot (Z.lor (Z.lor PORT_SUSPEND PORT_RESUME) (Z.shiftl 3 10))))
    else ret temp
  else ret temp.

(** whoever resets must GetPortStatus to complete it!! *)
Definition gps_reset (wIndex : Z) (status_reg : reg) (temp status : Z) : M (Z * Z) :=
  s <- gets (fun s => s) ;;
  if tst temp PORT_RESET && time_after_eq (jiffies s) (reset_done s wIndex) then
    let status := Z.lor status (Z.shiftl USB_PORT_STAT_C_RESET 16) in
    modify (set_reset_done wIndex 0) ;;
    modify (fun s => set_resuming_ports (clear_bit wIndex (resuming_ports s)) s) ;;
    (* force reset to complete *)
    ehci_writel (Z.land temp (Z.lnot (Z.lor PORT_RWC_BITS PORT_RESET))) status_reg ;;
    retval <- handshake env status_reg PORT_RESET 0 1000 ;;
    if negb (retval =? 0) then goto_error
    else
      (* see what we found out *)
      v <- ehci_readl env status_reg ;;
      temp <- check_reset_complete wIndex status_reg v ;;
      ret (temp, status)
  else ret (temp, status).

Definition gps_stale (wIndex : Z) (temp : Z) : M unit :=
  when (negb (tst temp (Z.lor PORT_RESUME PORT_RESET)))
    (modify (set_reset_done wIndex 0) ;;
     modify (fun s => set_resuming_ports (clear_bit wIndex (resuming_ports s)) s)).

(** transfer dedicated ports to the companion hc *)
Definition gps_companion (wIndex : Z) (status_reg : reg) (temp : Z) : M Z :=
  if tst temp PORT_CONNECT && test_bit wIndex (companion_ports cfg) then
    let temp := Z.land temp (Z.lnot PORT_RWC_BITS) in
    let temp := Z.lor temp PORT_OWNER in
    ehci_writel temp status_reg ;;
    ehci_readl env status_reg
  else ret temp.

(** The status word, from the register value the blocks above left. *)
Definition gps_compose (wIndex : Z) (hostpc_reg : option reg) (temp status : Z) : M Z :=
  status <- (if tst temp PORT_CONNECT then
               let status := Z.lor status USB_PORT_STAT_CONNECTION in
               (* status may be from integrated TT *)
               match hostpc_reg with
               | Some hreg =>
                   temp1 <- ehci_readl env hreg ;;
                   ret (Z.lor status (u32 (ehci_port_speed env cfg temp1)))
               | None => ret (Z.lor status (u32 (ehci_port_speed env cfg temp)))
               end
             else ret status) ;;
  let status := if tst temp PORT_PE then Z.lor status USB_PORT_STAT_ENABLE else status in
  (* maybe the port was unsuspended without our knowledge *)
  status <- (if tst temp (Z.lor PORT_SUSPEND PORT_RESUME) then
               ret (Z.lor status USB_PORT_STAT_SUSPEND)
             else
               s <- gets (fun s => s) ;;
               if test_bit wIndex (suspended_ports s) then
                 modify (fun s => set_suspended_ports (clear_bit wIndex (suspended_ports s)) s) ;;
                 modify (fun s => set_resuming_ports (clear_bit wIndex (resuming_ports s)) s) ;;
                 modify (set_reset_done wIndex 0) ;;
                 when (tst temp PORT_PE)
                   (modify (fun s => set_port_c_suspend (set_bit wIndex (port_c_suspend s)) s)) ;;
                 ret status
               else ret status) ;;
  let status := if tst temp PORT_OC then Z.lor status USB_PORT_STAT_OVERCURRENT else status in
  let status := if tst temp PORT_RESET then Z.lor status USB_PORT_STAT_RESET else status in
  let status := if tst temp PORT_POWER then Z.lor status USB_PORT_STAT_POWER else status in
  s <- gets (fun s => s) ;;
  let status := if test_bit wIndex (port_c_suspend s)
                then Z.lor status (Z.shiftl USB_PORT_STAT_C_SUSPEND 16) else status in
  ret status.

(** From the reset check to the handover of dedicated ports. *)
Definition gps_finish (wIndex : Z) (status_reg : reg) (temp status : Z) : M (Z * Z) :=
  ts <- gps_reset wIndex status_reg temp status ;;
  gps_stale wIndex (fst ts) ;;
  temp <- gps_companion wIndex status_reg (fst ts) ;;
  ret (temp, snd ts).

(** From the resume check on: the register value and the change bits the
    status word is composed from. *)
Definition gps_settle (wIndex : Z) (status_reg : reg) (ts : Z * Z) : M (Z * Z) :=
  temp <- gps_resume wIndex status_reg (fst ts) ;;
  gps_finish wIndex status_reg temp (snd ts).

(** Everything before the status word is composed. *)
Definition gps_resolve (wIndex : Z) (status_reg : reg) : M (Z * Z) :=
  ts <- gps_change_bits status_reg ;;
  gps_settle wIndex status_reg ts.

Definition get_port_status (wIndex : Z) (status_reg : reg) (hostpc_reg : option reg) : M Z :=
  ts <- gps_resolve wIndex status_reg ;;
  gps_compose wIndex hostpc_reg (fst ts) (snd ts).
End HubControl.

Section HubControlRequests.
Variable env : environment.
Variable cfg : ehci_config.

(** *** SetPortFeature, after the range check, [wIndex--] and the owner test *)

(** Put all enabled ports into suspend: [while (ports--)]. *)
Fixpoint test_suspend_enabled (ports : nat) : M unit :=
  match ports with
  | O => ret tt
  | S k =>
      let sreg := port_status (Z.of_nat k) in
      v <- ehci_readl env sreg ;;
      let temp := Z.land v (Z.lnot PORT_RWC_BITS) in
      when (tst temp PORT_PE) (ehci_writel (Z.lor temp PORT_SUSPEND) sreg) ;;
      test_suspend_enabled k
  end.

Definition spf_suspend (wIndex : Z) (status_reg : reg) (hostpc_reg : option reg)
    (temp : Z) : M Z :=
  if no_selective_suspend cfg then ret 0
  else if (Z.land temp PORT_PE =? 0) || negb (Z.land temp PORT_RESET =? 0) then goto_error
  else
    (* port gets suspended as part of bus suspend routine *)
    when (negb (susp_sof_bug cfg)) (ehci_writel (Z.lor temp PORT_SUSPEND) status_reg) ;;
    if CONFIG_USB_OTG cfg && (otg_port cfg =? wIndex + 1) && b_hnp_enable cfg then
      modify (fun s => set_suspended_ports (set_bit wIndex (suspended_ports s)) s) ;;
      call x_otg_start_hnp ;;
      ret 0
    else
      let temp := Z.land temp (Z.lnot PORT_WKCONN_E) in
      let temp := Z.lor temp (Z.lor PORT_WKDISC_E PORT_WKOC_E) in
      (if susp_sof_bug cfg then ehci_writel temp status_reg
       else ehci_writel (Z.lor temp PORT_SUSPEND) status_reg) ;;
      match hostpc_reg with
      | Some hreg =>
          msleep env 5 ;;  (* 5ms for HCD enter low pwr mode *)
          temp1 <- ehci_readl env hreg ;;
          ehci_writel (Z.lor temp1 HOSTPC_PHCD) hreg ;;
          _ <- ehci_readl env hreg ;;
          ret tt
      | None => ret tt
      end ;;
      modify (fun s => set_suspended_ports (set_bit wIndex (suspended_ports s)) s) ;;
      ret 0.

Definition spf_reset (wIndex : Z) (status_reg : reg) (temp : Z) : M Z :=
  if tst temp PORT_RESUME then goto_error
  else
    (* line status bits may report this as low speed, which can be fine if
       this root hub has a transaction translator built in. *)
    temp <- (if (Z.land temp (Z.lor PORT_PE PORT_CONNECT) =? PORT_CONNECT)
                && negb (ehci_is_TDI cfg) && PORT_USB11 temp
             then ret (Z.lor temp PORT_OWNER)
             else
               let temp := Z.lor temp PORT_RESET in
               let temp := Z.land temp (Z.lnot PORT_PE) in
               (* caller must wait, then call GetPortStatus;
                  usb 2.0 spec says 50 ms resets on root *)
               modify (fun s => set_reset_done wIndex (deadline env s 50) s) ;;
               ret temp) ;;
    cmd <- (if reset_sof_bug cfg && tst temp PORT_RESET then
              c <- ehci_readl env reg_command ;;
              let cmd := Z.land c (Z.lnot CMD_RUN) in
              ehci_writel cmd reg_command ;;
              _ <- handshake env reg_status STS_HALT STS_HALT (16 * 125) ;;
              ret cmd
            else ret 0) ;;
    ehci_writel temp status_reg ;;
    (if reset_sof_bug cfg && tst temp PORT_RESET && enable_ulpi_control cfg then
       usleep_range env 20000 20000 ;;
       temp <- ehci_readl env status_reg ;;
       ehci_writel (Z.land temp (Z.lnot (Z.lor PORT_RWC_BITS PORT_RESET))) status_reg ;;
       let cmd := Z.lor cmd CMD_RUN in
       ehci_writel cmd reg_command
     else ret tt) ;;
    ret 0.

Definition spf_test (ports selector wIndex : Z) (status_reg : reg) : M Z :=
  if negb (selector =? 0) && (selector <=? 5) then
    call x_ehci_quiesce ;;
    test_suspend_enabled (Z.to_nat ports) ;;
    call x_ehci_halt ;;
    temp <- ehci_readl env status_reg ;;
    let temp := Z.lor temp (u32 (Z.shiftl selector 16)) in
    ehci_writel temp status_reg ;;
    ret 0
  else if CONFIG_USB_EHCI_EHSET cfg && (selector =? EHSET_TEST_SINGLE_STEP_SET_FEATURE) then
    fun s =>
      let rc := ehset_result env (log s) wIndex in
      (Done rc, set_log (ev_call (x_ehset_single_step_set_feature wIndex rc) :: log s) s)
  else goto_error.

Definition set_port_feature (wValue ports selector wIndex : Z) (status_reg : reg)
    (hostpc_reg : option reg) : M Z :=
  temp <- ehci_readl env status_reg ;;
  if tst temp PORT_OWNER then ret 0
  else
    let temp := Z.land temp (Z.lnot PORT_RWC_BITS) in
    retval <- (if wValue =? USB_PORT_FEAT_SUSPEND then
                 spf_suspend wIndex status_reg hostpc_reg temp
               else if wValue =? USB_PORT_FEAT_POWER then
                 when (HCS_PPC (hcs_params cfg))
                   (ehci_writel (Z.lor temp PORT_POWER) status_reg) ;;
                 ret 0
               else if wValue =? USB_PORT_FEAT_RESET then
                 spf_reset wIndex status_reg temp
               else if wValue =? USB_PORT_FEAT_TEST then
                 spf_test ports selector wIndex status_reg
               else goto_error) ;;
    _ <- ehci_readl env reg_command ;;  (* unblock posted writes *)
    ret retval.

(** If the debug port is active any port feature requests should get
    denied: [goto error_exit] with -ENODEV. *)
Definition spf_debug_gate (wIndex : Z) : M unit :=
  if debug cfg then
    if wIndex =? HCS_DEBUG_PORT (hcs_params cfg) then
      c <- ehci_readl env debug_control ;;
      if tst c DBGP_ENABLED then fail (- ENODEV) else ret tt
    else ret tt
  else ret tt.

(** *** The request switch, under the lock *)

Definition hub_control_locked (typeReq wValue wIndex : Z) : M (Z * reply) :=
  let ports := HCS_N_PORTS (hcs_params cfg) in
  let status_reg := port_status (Z.land wIndex 0xff - 1) in
  let hostpc_reg := hostpc_reg_of cfg wIndex in
  if typeReq =? ClearHubFeature then
    if (wValue =? C_HUB_LOCAL_POWER) || (wValue =? C_HUB_OVER_CURRENT)
    then ret (0, no_reply)  (* no hub-wide feature/status flags *)
    else goto_error
  else if typeReq =? ClearPortFeature then
    if (wIndex =? 0) || (ports <? wIndex) then goto_error
    else
      clear_port_feature env cfg wValue (wIndex - 1) status_reg hostpc_reg ;;
      ret (0, no_reply)
  else if typeReq =? GetHubDescriptor then
    ret (0, reply_hub_descriptor (ehci_hub_descriptor cfg))
  else if typeReq =? GetHubStatus then
    ret (0, reply_hub_status 0)
  else if typeReq =? GetPortStatus then
    if (wIndex =? 0) || (ports <? wIndex) then goto_error
    else
      status <- get_port_status env cfg (wIndex - 1) status_reg hostpc_reg ;;
      ret (0, reply_port_status status)
  else if typeReq =? SetHubFeature then
    if (wValue =? C_HUB_LOCAL_POWER) || (wValue =? C_HUB_OVER_CURRENT)
    then ret (0, no_reply)
    else goto_error
  else if typeReq =? SetPortFeature then
    let selector := Z.shiftr wIndex 8 in
    let wIndex := Z.land wIndex 0xff in
    spf_debug_gate wIndex ;;
    if (wIndex =? 0) || (ports <? wIndex) then goto_error
    else
      retval <- set_port_feature wValue ports selector (wIndex - 1) status_reg hostpc_reg ;;
      ret (retval, no_reply)
  else goto_error.

(** [ehci_hub_control]: the 16-bit arguments, the return value and what is
    left in [buf]. *)
Definition ehci_hub_control (typeReq wValue wIndex : Z) (s : ehci_hcd)
    : Z * reply * ehci_hcd :=
  match hub_control_locked (u16 typeReq) (u16 wValue) (u16 wIndex) s with
  | (Done (retval, buf), s') => (retval, buf, s')
  | (Fail retval, s') => (retval, no_reply, s')
  end.
End HubControlRequests.

(* ------------------------------------------------------------------------- *)
(** ** [ehci_handover_companion_ports]

    After a power loss, ports that were owned by the companion must be reset
    so that the companion can still own them. *)

Section HandoverCompanionPorts.
Variable env : environment.
Variable cfg : ehci_config.

(** A request issued from inside the driver; its result is dropped. *)
Definition hub_control_call (typeReq wValue wIndex : Z) : M unit :=
  fun s => (Done tt, snd (ehci_hub_control env cfg typeReq wValue wIndex s)).

(** The first [while (port--)]. *)
Fixpoint handover_reset_owned (port : nat) : M unit :=
  match port with
  | O => ret tt
  | S k =>
      let p := Z.of_nat k in
      s <- gets (fun s => s) ;;
      (if test_bit p (owned_ports s) then
         v <- ehci_readl env (port_status p) ;;
         let status := Z.land v (Z.lnot PORT_RWC_BITS) in
         (* Port already owned by companion? *)
         if tst status PORT_OWNER then
           modify (fun s => set_owned_ports (clear_bit p (owned_ports s)) s)
         else if test_bit p (companion_ports cfg) then
           ehci_writel (Z.land status (Z.lnot PORT_PE)) (port_status p)
         else hub_control_call SetPortFeature USB_PORT_FEAT_RESET (p + 1)
       else ret tt) ;;
      handover_reset_owned k
  end.

(** The second one.  The companion should now own the port, but if
    something went wrong the port must not remain enabled. *)
Fixpoint handover_verify_owned (port : nat) : M unit :=
  match port with
  | O => ret tt
  | S k =>
      let p := Z.of_nat k in
      s <- gets (fun s => s) ;;
      (if test_bit p (owned_ports s) then
         hub_control_call GetPortStatus 0 (p + 1) ;;
         v <- ehci_readl env (port_status p) ;;
         let status := Z.land v (Z.lnot PORT_RWC_BITS) in
         if tst status PORT_OWNER
         then ehci_writel (Z.lor status PORT_CSC) (port_status p)
         else ehci_writel (Z.land status (Z.lnot PORT_PE)) (port_status p)
       else ret tt) ;;
      handover_verify_owned k
  end.

Definition ehci_handover_companion_ports (s : ehci_hcd) : ehci_hcd :=
  if owned_ports s =? 0 then s
  else
    let ports := Z.to_nat (HCS_N_PORTS (hcs_params cfg)) in
    let m :=
      msleep env 20 ;;  (* Give the connections some time to appear *)
      handover_reset_owned ports ;;
      s1 <- gets (fun s => s) ;;
      if owned_ports s1 =? 0 then ret tt
      else
        msleep env 90 ;;  (* Wait for resets to complete *)
        handover_verify_owned ports ;;
        modify (set_owned_ports 0) in
    snd (m s).
End HandoverCompanionPorts.

(* ------------------------------------------------------------------------- *)
(** ** [ehci_bus_suspend] *)

Definition rh_state_eqb (a b : ehci_rh_state) : bool :=
  match a, b with
  | EHCI_RH_HALTED, EHCI_RH_HALTED => true
  | EHCI_RH_SUSPENDED, EHCI_RH_SUSPENDED => true
  | EHCI_RH_RUNNING, EHCI_RH_RUNNING => true
  | _, _ => false
  end.

Section BusSuspend.
Variable env : environment.
Variable cfg : ehci_config.

(** One turn of the loop over the ports; returns the new [changed]. *)
Definition suspend_port (port : Z) (changed : bool) : M bool :=
  let reg := port_status port in
  v <- ehci_readl env reg ;;
  let t1 := Z.land v (Z.lnot PORT_RWC_BITS) in
  let t2 := Z.land t1 (Z.lnot PORT_WAKE_BITS) in
  (* keep track of which ports we suspend *)
  t2 <- (if tst t1 PORT_OWNER then
           modify (fun s => set_owned_ports (set_bit port (owned_ports s)) s) ;;
           ret t2
         else if tst t1 PORT_PE && negb (tst t1 PORT_SUSPEND) then
           (* clear RS bit before setting SUSP bit and wait for HCH to get set *)
           when (susp_sof_bug cfg) (call x_ehci_halt) ;;
           modify (fun s => set_bus_suspended (set_bit port (bus_suspended s)) s) ;;
           ret (Z.lor t2 PORT_SUSPEND)
         else ret t2) ;;
  (* enable remote wakeup on all ports, if told to do so *)
  let t2 := if do_remote_wakeup cfg then
              if tst t1 PORT_CONNECT
              then Z.lor t2 (Z.lor PORT_WKOC_E PORT_WKDISC_E)
              else Z.lor t2 (Z.lor PORT_WKOC_E PORT_WKCONN_E)
            else t2 in
  if negb (t1 =? t2) then
    ehci_writel t2 reg ;;
    ret true
  else ret changed.

(** [port = HCS_N_PORTS; while (port--)]. *)
Fixpoint suspend_ports (port : nat) (changed : bool) : M bool :=
  match port with
  | O => ret changed
  | S k =>
      c <- suspend_port (Z.of_nat k) changed ;;
      suspend_ports k c
  end.

Fixpoint enter_phy_low_power (port : nat) : M unit :=
  match port with
  | O => ret tt
  | S k =>
      let hostpc_reg := hostpc (Z.of_nat k) in
      t3 <- ehci_readl env hostpc_reg ;;
      ehci_writel (Z.lor t3 HOSTPC_PHCD) hostpc_reg ;;
      _ <- ehci_readl env hostpc_reg ;;
      enter_phy_low_power k
  end.

Definition bus_suspend_locked : M Z :=
  s <- gets (fun s => s) ;;
  (* Once the controller is stopped, port resumes that are already in
     progress won't complete.  Hence if remote wakeup is enabled for the
     root hub and any ports are in the middle of a resume or remote
     wakeup, we must fail the suspend. *)
  if do_remote_wakeup cfg && negb (resuming_ports s =? 0) then fail (- EBUSY)
  else
    (* stop schedules, clean any completed work *)
    when (rh_state_eqb (rh_state s) EHCI_RH_RUNNING) (call x_ehci_quiesce) ;;
    c <- ehci_readl env reg_command ;;
    modify (set_command c) ;;
    call x_ehci_work ;;
    modify (set_bus_suspended 0) ;;
    modify (set_owned_ports 0) ;;
    changed <- suspend_ports (Z.to_nat (HCS_N_PORTS (hcs_params cfg))) false ;;
    when (changed && has_hostpc cfg)
      (msleep env 5 ;;  (* 5 ms for HCD to enter low-power mode *)
       enter_phy_low_power (Z.to_nat (HCS_N_PORTS (hcs_params cfg)))) ;;
    (* Apparently some devices need a >= 1-uframe delay here *)
    s <- gets (fun s => s) ;;
    when (negb (bus_suspended s =? 0)) (call (x_udelay 150)) ;;
    (* if this bit is set, controller is already haled *)
    when (negb (susp_sof_bug cfg)) (call x_ehci_halt) ;;
    modify (set_rh_state EHCI_RH_SUSPENDED) ;;
    s <- gets (fun s => s) ;;
    when (reclaim_pending env (log s)) (call x_end_unlink_async) ;;
    (* allow remote wakeup *)
    let mask := if negb (do_remote_wakeup cfg)
                then Z.land INTR_MASK (Z.lnot STS_PCD) else INTR_MASK in
    ehci_writel mask reg_intr_enable ;;
    _ <- ehci_readl env reg_intr_enable ;;
    modify (fun s => set_next_statechange (deadline env s 10) s) ;;
    call x_ktime_get ;;
    ret 0.

Definition ehci_bus_suspend (s : ehci_hcd) : Z * ehci_hcd :=
  let m :=
    s0 <- gets (fun s => s) ;;
    when (time_before (jiffies s0) (next_statechange s0)) (msleep env 5) ;;
    call (x_del_timer_sync watchdog) ;;
    call (x_del_timer_sync iaa_watchdog) ;;
    retval <- bus_suspend_locked ;;
    (* ehci_work() may have re-enabled the watchdog timer, which we do not
       want, and so we must delete any pending watchdog timer events. *)
    call (x_del_timer_sync watchdog) ;;
    ret retval in
  match m s with
  | (Done retval, s') => (retval, s')
  | (Fail retval, s') => (retval, s')
  end.
End BusSuspend.

(* ------------------------------------------------------------------------- *)
(** ** [ehci_hub_status_data] *)

Definition u8 (z : Z) : Z := z mod 2 ^ 8.

Section HubStatusData.
Variable env : environment.
Variable cfg : ehci_config.

(** The loop carries [buf[0]], [buf[1]] and [status]. *)
Definition status_acc : Type := (Z * Z * Z)%type.

(** Is a change pending on port [i], given its register value? *)
Definition port_change (s : ehci_hcd) (mask i temp : Z) : bool :=
  negb (Z.land temp mask =? 0)
  || test_bit i (port_c_suspend s)
  || (negb (reset_done s i =? 0) && time_after_eq (jiffies s) (reset_done s i)).

Definition status_port (ppcd mask i : Z) (acc : status_acc) : M status_acc :=
  let '(b0, b1, status) := acc in
  (* leverage per-port change bits feature *)
  if has_ppcd cfg && negb (tst ppcd (Z.shiftl 1 i)) then ret acc
  else
    temp <- ehci_readl env (port_status i) ;;
    s <- gets (fun s => s) ;;
    if port_change s mask i temp then
      if i <? 7
      then ret (u8 (Z.lor b0 (Z.shiftl 1 (i + 1))), b1, STS_PCD)
      else ret (b0, u8 (Z.lor b1 (Z.shiftl 1 (i - 7))), STS_PCD)
    else ret acc.

(** [for (i = 0; i < ports; i++)], with [n] ports still to visit. *)
Fixpoint status_ports (ppcd mask i : Z) (n : nat) (acc : status_acc) : M status_acc :=
  match n with
  | O => ret acc
  | S k =>
      acc' <- status_port ppcd mask i acc ;;
      status_ports ppcd mask (i + 1) k acc'
  end.

Definition change_mask : Z :=
  if negb (ignore_oc cfg)
  then Z.lor (Z.lor PORT_CSC PORT_PEC) PORT_OCC
  else Z.lor PORT_CSC PORT_PEC.

(** [buf] comes in as the caller left it and goes out as two bytes;
    the result is the return value, the buffer and the state. *)
Definition ehci_hub_status_data (buf : Z * Z) (s : ehci_hcd) : Z * (Z * Z) * ehci_hcd :=
  (* if !USB_SUSPEND, root hub timers won't get shut down ... *)
  if negb (rh_state_eqb (rh_state s) EHCI_RH_RUNNING) then (0, buf, s)
  else
    let ports := HCS_N_PORTS (hcs_params cfg) in
    (* init status to no-changes *)
    let b0 := 0 in
    let '(b1, retval) := if 7 <? ports then (0, 2) else (snd buf, 1) in
    (* Inform the core about resumes-in-progress by returning a non-zero
       value even if there are no status changes. *)
    let status := resuming_ports s in
    let m :=
      ppcd <- (if has_ppcd cfg then
                 v <- ehci_readl env reg_status ;;
                 ret (Z.shiftr v 16)
               else ret 0) ;;
      acc <- status_ports ppcd change_mask 0 (Z.to_nat ports) (b0, b1, status) ;;
      (* If a resume is in progress, make sure it can finish *)
      s1 <- gets (fun s => s) ;;
      when (negb (resuming_ports s1 =? 0))
        (call (x_mod_timer rh_timer (deadline env s1 25))) ;;
      ret acc in
    match m s with
    | (Done (b0', b1', status'), s') =>
        ((if status' =? 0 then 0 else retval), (b0', b1'), s')
    | (Fail r, s') => (r, buf, s')
    end.
End HubStatusData.

(* ------------------------------------------------------------------------- *)
(** ** [ehci_port_change] and [ehci_adjust_port_wakeup_flags] *)

Section PortWakeup.
Variable env : environment.
Variable cfg : ehci_config.

(** [while (i--)] over the port registers, until one shows a connect
    change. *)
Fixpoint port_change_scan (i : nat) : M Z :=
  match i with
  | O => ret 0
  | S k =>
      v <- ehci_readl env (port_status (Z.of_nat k)) ;;
      if tst v PORT_CSC then ret 1 else port_change_scan k
  end.

Definition ehci_port_change : M Z :=
  (* First check if the controller indicates a change event *)
  v <- ehci_readl env reg_status ;;
  if tst v STS_PCD then ret 1
  else
    (* Not all controllers appear to update this while going from D3 to D0,
       so check the individual port status registers as well *)
    port_change_scan (Z.to_nat (HCS_N_PORTS (hcs_params cfg))).

(** clear phy low-power mode before changing wakeup flags *)
Fixpoint leave_phy_low_power (port : nat) : M unit :=
  match port with
  | O => ret tt
  | S k =>
      let hostpc_reg := hostpc (Z.of_nat k) in
      temp <- ehci_readl env hostpc_reg ;;
      ehci_writel (Z.land temp (Z.lnot HOSTPC_PHCD)) hostpc_reg ;;
      leave_phy_low_power k
  end.

(** If we are suspending the controller, clear the flags.  If we are
    resuming the controller, set the wakeup flags. *)
Fixpoint adjust_wakeup_flags (suspending : bool) (port : nat) : M unit :=
  match port with
  | O => ret tt
  | S k =>
      let reg := port_status (Z.of_nat k) in
      v <- ehci_readl env reg ;;
      let t1 := Z.land v (Z.lnot PORT_RWC_BITS) in
      let t2 := Z.land t1 (Z.lnot PORT_WAKE_BITS) in
      let t2 := if negb suspending then
                  if tst t1 PORT_CONNECT
                  then Z.lor t2 (Z.lor PORT_WKOC_E PORT_WKDISC_E)
                  else Z.lor t2 (Z.lor PORT_WKOC_E PORT_WKCONN_E)
                else t2 in
      ehci_writel t2 reg ;;
      adjust_wakeup_flags suspending k
  end.

(** enter phy low-power mode again *)
Fixpoint reenter_phy_low_power (port : nat) : M unit :=
  match port with
  | O => ret tt
  | S k =>
      let hostpc_reg := hostpc (Z.of_nat k) in
      temp <- ehci_readl env hostpc_reg ;;
      ehci_writel (Z.lor temp HOSTPC_PHCD) hostpc_reg ;;
      reenter_phy_low_power k
  end.

(** The result tells whether [usb_hcd_resume_root_hub] is called, which is
    the last thing the function does before it drops the lock. *)
Definition ehci_adjust_port_wakeup_flags (suspending do_wakeup : bool) : M bool :=
  (* If remote wakeup is enabled for the root hub but disabled for the
     controller, we must adjust all the port wakeup flags when the
     controller is suspended or resumed.  In all other cases they don't
     need to be changed. *)
  if negb (do_remote_wakeup cfg) || do_wakeup then ret false
  else
    let ports := Z.to_nat (HCS_N_PORTS (hcs_params cfg)) in
    when (has_hostpc cfg) (leave_phy_low_power ports ;; msleep env 5) ;;
    adjust_wakeup_flags suspending ports ;;
    when (has_hostpc cfg) (reenter_phy_low_power ports) ;;
    (* Does the root hub have a port wakeup pending? *)
    if negb suspending then
      c <- ehci_port_change ;;
      ret (negb (c =? 0))
    else ret false.
End PortWakeup.

(* ------------------------------------------------------------------------- *)
(** ** The part of [ehci_bus_resume] that drives the ports

    From [clear phy low-power mode before resume] to the label
    [skip_clear_resume] and the read of the command register after it.
    [resume_sof_bug] is the quirk flag of the controller. *)

Section BusResumePorts.
Variable env : environment.
Variable cfg : ehci_config.

Fixpoint resume_leave_phy_low_power (i : nat) : M unit :=
  match i with
  | O => ret tt
  | S k =>
      s <- gets (fun s => s) ;;
      (if test_bit (Z.of_nat k) (bus_suspended s) then
         let hostpc_reg := hostpc (Z.of_nat k) in
         temp <- ehci_readl env hostpc_reg ;;
         ehci_writel (Z.land temp (Z.lnot HOSTPC_PHCD)) hostpc_reg
       else ret tt) ;;
      resume_leave_phy_low_power k
  end.

(** manually resume the ports we suspended during bus_suspend(); the loop
    carries [resume_needed]. *)
Fixpoint resume_suspended_ports (i : nat) (resume_needed : Z) : M Z :=
  match i with
  | O => ret resume_needed
  | S k =>
      let p := Z.of_nat k in
      v <- ehci_readl env (port_status p) ;;
      let temp := Z.land v (Z.lnot (Z.lor PORT_RWC_BITS PORT_WAKE_BITS)) in
      s <- gets (fun s => s) ;;
      if test_bit p (bus_suspended s) && tst temp PORT_SUSPEND then
        ehci_writel (Z.lor temp PORT_RESUME) (port_status p) ;;
        resume_suspended_ports k (set_bit p resume_needed)
      else
        ehci_writel temp (port_status p) ;;
        resume_suspended_ports k resume_needed
  end.

(** The last loop: stop the resume signalling. *)
Fixpoint stop_resume_signaling (i : nat) (resume_needed : Z) : M unit :=
  match i with
  | O => ret tt
  | S k =>
      let p := Z.of_nat k in
      temp <- ehci_readl env (port_status p) ;;
      when (test_bit p resume_needed)
        (ehci_writel (Z.land temp (Z.lnot (Z.lor PORT_RWC_BITS PORT_RESUME)))
           (port_status p)) ;;
      stop_resume_signaling k resume_needed
  end.

(** The result is [resume_needed]. *)
Definition bus_resume_ports (resume_sof_bug : bool) : M Z :=
  let ports := Z.to_nat (HCS_N_PORTS (hcs_params cfg)) in
  s <- gets (fun s => s) ;;
  (* clear phy low-power mode before resume *)
  when (negb (bus_suspended s =? 0) && has_hostpc cfg)
    (resume_leave_phy_low_power ports ;; msleep env 5) ;;
  resume_needed <- resume_suspended_ports ports 0 ;;
  (if resume_sof_bug && negb (resume_needed =? 0) then
     (* root hub has only one port.  PORT_RESUME gets cleared
        automatically. *)
     _ <- handshake env (port_status 0) PORT_RESUME 0 20000 ;;
     c <- ehci_readl env reg_command ;;
     ehci_writel (Z.lor c CMD_RUN) reg_command
   else
     (* msleep for 20ms only if code is trying to resume port *)
     when (negb (resume_needed =? 0)) (msleep env 20) ;;
     stop_resume_signaling ports resume_needed) ;;
  _ <- ehci_readl env reg_command ;;
  ret resume_needed.
End BusResumePorts.

(* ------------------------------------------------------------------------- *)
(** ** [set_owner], [ehci_relinquish_port] and [ehci_port_handed_over] *)

Section PortOwner.
Variable env : environment.
Variable cfg : ehci_config.

(** [for (try = 4; try > 0; --try)] with [try] turns left.  The controller
    won't set the OWNER bit if the port is enabled, so this loop will
    sometimes require at least two iterations: one to disable the port and
    one to set OWNER. *)
Fixpoint set_owner_tries (try : nat) (status_reg : reg) (new_owner : Z) : M unit :=
  match try with
  | O => ret tt
  | S k =>
      port_status <- ehci_readl env status_reg ;;
      if (Z.land port_status PORT_OWNER =? u32 new_owner)
         || (Z.land port_status (Z.lor PORT_OWNER PORT_CONNECT) =? 0)
      then ret tt  (* try = 0 *)
      else
        let port_status := Z.lxor port_status PORT_OWNER in
        let port_status := Z.land port_status (Z.lnot (Z.lor PORT_PE PORT_RWC_BITS)) in
        ehci_writel port_status status_reg ;;
        when (1 <? Z.of_nat (S k)) (msleep env 5) ;;
        set_owner_tries k status_reg new_owner
  end.

Definition set_owner (portnum new_owner : Z) : M unit :=
  set_owner_tries 4 (port_status portnum) new_owner.


End PortOwner.

(* ------------------------------------------------------------------------- *)
(** ** Describing what a call did *)

(** [evs], oldest first, is what the call added to the log. *)
Definition logged (s s' : ehci_hcd) (evs : list event) : Prop :=
  log s' = rev evs ++ log s.

Definition is_read (e : event) : Prop :=
  match e with ev_readl _ _ => True | _ => False end.

Definition is_port_write (e : event) : Prop :=
  match e with ev_writel _ (port_status _) => True | _ => False end.

(** The port state tracker: every field of the controller state but the
    clock and the log. *)
Definition same_tracker (s s' : ehci_hcd) : Prop :=
  bus_suspended s' = bus_suspended s /\
  owned_ports s' = owned_ports s /\
  port_c_suspend s' = port_c_suspend s /\
  suspended_ports s' = suspended_ports s /\
  resuming_ports s' = resuming_ports s /\
  reset_done s' = reset_done s /\
  rh_state s' = rh_state s /\
  command s' = command s /\
  next_statechange s' = next_statechange s.

(** All of bits [m] are set in [x]. *)
Definition has_bits (x m : Z) : Prop := Z.land x m = m.

(* ------------------------------------------------------------------------- *)
(** ** A concrete environment, for running the model

    The register reads of a call are scripted: the n-th read returns the
    n-th value of [reads] (0 when the script is over).  The clock ticks at
    100 Hz and the port speed is read as in a controller with the speed in
    bits 27:26 of the port register. *)

Definition reads_so_far (h : history) : nat :=
  length (filter (fun e => match e with ev_readl _ _ => true | _ => false end) h).

Definition port_speed_of (cfg : ehci_config) (portsc : Z) : Z :=
  if ehci_is_TDI cfg then
    let f := Z.land (Z.shiftr portsc (if has_hostpc cfg then 25 else 26)) 3 in
    if f =? 0 then 0
    else if f =? 1 then USB_PORT_STAT_LOW_SPEED
    else USB_PORT_STAT_HIGH_SPEED
  else USB_PORT_STAT_HIGH_SPEED.

Definition scripted (reads : list Z) (handshake_rc : Z) : environment :=
  {| hw_read := fun h _ => nth (reads_so_far h) reads 0;
     hw_handshake := fun _ _ _ _ _ => handshake_rc;
     ehset_result := fun _ _ => 0;
     reclaim_pending := fun _ => false;
     msecs_to_jiffies := fun m => (m + 9) / 10;
     ehci_port_speed := port_speed_of |}.

(** The same, with every register read returning [v]. *)
Definition steady (v : Z) (handshake_rc : Z) : environment :=
  {| hw_read := fun _ _ => v;
     hw_handshake := fun _ _ _ _ _ => handshake_rc;
     ehset_result := fun _ _ => 0;
     reclaim_pending := fun _ => false;
     msecs_to_jiffies := fun m => (m + 9) / 10;
     ehci_port_speed := port_speed_of |}.

(** A controller without quirks: capability word, statically routed ports,
    debug port in use, remote wakeup, built-in transaction translator and
    [ignore_oc] are left to choose. *)
Definition quirkless (hcs companion : Z) (dbg wakeup tdi oc_ignored : bool) : ehci_config :=
  {| hcs_params := hcs;
     companion_ports := companion;
     has_hostpc := false;
     has_lpm := false;
     has_ppcd := false;
     has_amcc_usb23 := false;
     no_selective_suspend := false;
     susp_sof_bug := false;
     reset_sof_bug := false;
     ehci_is_TDI := tdi;
     debug := dbg;
     do_remote_wakeup := wakeup;
     otg_port := 0;
     b_hnp_enable := false;
     enable_ulpi_control := false;
     ignore_oc := oc_ignored;
     CONFIG_USB_OTG := false;
     CONFIG_USB_EHCI_EHSET := false |}.

(** Two ports, per-port power switching, remote wakeup enabled. *)
Definition plain_config : ehci_config := quirkless 0x12 0 false true false false.

(** The same controller in an OTG build, with host negotiation enabled on
    port [p]. *)
Definition with_otg (p : Z) (c : ehci_config) : ehci_config :=
  {| hcs_params := hcs_params c;
     companion_ports := companion_ports c;
     has_hostpc := has_hostpc c;
     has_lpm := has_lpm c;
     has_ppcd := has_ppcd c;
     has_amcc_usb23 := has_amcc_usb23 c;
     no_selective_suspend := no_selective_suspend c;
     susp_sof_bug := susp_sof_bug c;
     reset_sof_bug := reset_sof_bug c;
     ehci_is_TDI := ehci_is_TDI c;
     debug := debug c;
     do_remote_wakeup := do_remote_wakeup c;
     otg_port := p;
     b_hnp_enable := true;
     enable_ulpi_control := enable_ulpi_control c;
     ignore_oc := ignore_oc c;
     CONFIG_USB_OTG := true;
     CONFIG_USB_EHCI_EHSET := CONFIG_USB_EHCI_EHSET c |}.

(** A running controller with nothing tracked, at time 1000. *)
Definition idle_state : ehci_hcd :=
  {| bus_suspended := 0;
     owned_ports := 0;
     port_c_suspend := 0;
     suspended_ports := 0;
     resuming_ports := 0;
     reset_done := fun _ => 0;
     rh_state := EHCI_RH_RUNNING;
     command := 1;
     next_statechange := 0;
     jiffies := 1000;
     log := [] |}.

(** The port register of port index [p], read when the log is [h], shows
    the port owned by the companion: this is the one value a request tests,
    what the register shows at any other time does not matter. *)
Definition owned_by_companion (env : environment) (h : history) (p : Z) : Prop :=
  tst (u32 (hw_read env h (port_status p))) PORT_OWNER = true.


(** The fields of the tracker other than the deadlines. *)
Definition same_flags (s s' : ehci_hcd) : Prop :=
  bus_suspended s' = bus_suspended s /\
  owned_ports s' = owned_ports s /\
  port_c_suspend s' = port_c_suspend s /\
  suspended_ports s' = suspended_ports s /\
  resuming_ports s' = resuming_ports s /\
  rh_state s' = rh_state s /\
  command s' = command s /\
  next_statechange s' = next_statechange s.

(** *** Requests that fail validation, in the words of the specification

    A bad port index is 0 or greater than the port count; the feature codes
    are supported for the requests that list them; the selector matters for
    the TEST feature only. *)
Definition bad_port_index (cfg : ehci_config) (idx : Z) : bool :=
  (idx =? 0) || (HCS_N_PORTS (hcs_params cfg) <? idx).

Definition hub_feature_supported (f : Z) : bool :=
  (f =? C_HUB_LOCAL_POWER) || (f =? C_HUB_OVER_CURRENT).

Definition clear_port_feature_supported (f : Z) : bool :=
  (f =? USB_PORT_FEAT_ENABLE) || (f =? USB_PORT_FEAT_C_ENABLE)
  || (f =? USB_PORT_FEAT_SUSPEND) || (f =? USB_PORT_FEAT_C_SUSPEND)
  || (f =? USB_PORT_FEAT_POWER) || (f =? USB_PORT_FEAT_C_CONNECTION)
  || (f =? USB_PORT_FEAT_C_OVER_CURRENT) || (f =? USB_PORT_FEAT_C_RESET).

Definition test_selector_supported (cfg : ehci_config) (selector : Z) : bool :=
  (negb (selector =? 0) && (selector <=? 5))
  || (CONFIG_USB_EHCI_EHSET cfg && (selector =? EHSET_TEST_SINGLE_STEP_SET_FEATURE)).

Definition set_port_feature_supported (cfg : ehci_config) (f selector : Z) : bool :=
  (f =? USB_PORT_FEAT_SUSPEND) || (f =? USB_PORT_FEAT_POWER)
  || (f =? USB_PORT_FEAT_RESET)
  || ((f =? USB_PORT_FEAT_TEST) && test_selector_supported cfg selector).

Definition fails_validation (cfg : ehci_config) (typeReq wValue wIndex : Z) : bool :=
  if typeReq =? ClearHubFeature then negb (hub_feature_supported wValue)
  else if typeReq =? SetHubFeature then negb (hub_feature_supported wValue)
  else if typeReq =? ClearPortFeature then
    bad_port_index cfg wIndex || negb (clear_port_feature_supported wValue)
  else if typeReq =? GetPortStatus then bad_port_index cfg wIndex
  else if typeReq =? SetPortFeature then
    bad_port_index cfg (Z.land wIndex 255)
    || negb (set_port_feature_supported cfg wValue (Z.shiftr wIndex 8))
  else false.

(** A SetPortFeature request reaches the feature switch: the debug-port gate
    lets it pass and, when its port index is in range, the port register then
    read does not show the owner bit. *)
Definition reaches_feature_switch (env : environment) (cfg : ehci_config)
    (wIndex : Z) (s : ehci_hcd) : Prop :=
  let idx := Z.land wIndex 255 in
  fst (spf_debug_gate env cfg idx s) = Done tt /\
  (bad_port_index cfg idx = false ->
   tst (u32 (hw_read env (log (snd (spf_debug_gate env cfg idx s))) (port_status (idx - 1))))
     PORT_OWNER = false).

(** Every run of [m], failed or not, takes a state to one related by [R]. *)
Definition step_inv {A} (R : ehci_hcd -> ehci_hcd -> Prop) (m : M A) : Prop :=
  forall s o s', m s = (o, s') -> R s s'.

(** The log only grows. *)
Definition extends (s s' : ehci_hcd) : Prop := exists evs, log s' = evs ++ log s.

(** For port index [i]: once the suspended and resuming flags are clear and
    the suspend-change flag is set, they stay so. *)
Definition resume_completed (i : Z) (s : ehci_hcd) : Prop :=
  test_bit i (suspended_ports s) = false /\
  test_bit i (resuming_ports s) = false /\
  test_bit i (port_c_suspend s) = true.

Definition keeps_resume_completed (i : Z) (s s' : ehci_hcd) : Prop :=
  resume_completed i s -> resume_completed i s'.

(** Among the events [evs] of a call of [ehci_hub_status_data] that started
    in state [s], port index [j] was read with a change pending: a change
    latch of the mask, the tracked suspend-change flag, or a deadline that has
    elapsed. *)
Definition found_changed (cfg : ehci_config) (s : ehci_hcd) (evs : list event) (j : Z)
    : Prop :=
  exists v, In (ev_readl (port_status j) v) evs /\
            port_change s (change_mask cfg) j v = true.

(** What finding a change on port [j] does to [buf[0]], [buf[1]], [status]. *)
Definition mark_port (j : Z) (acc : status_acc) : status_acc :=
  let '(b0, b1, status) := acc in
  if j <? 7
  then (u8 (Z.lor b0 (Z.shiftl 1 (j + 1))), b1, STS_PCD)
  else (b0, u8 (Z.lor b1 (Z.shiftl 1 (j - 7))), STS_PCD).

(** How the loop over the port indices [lo <= j < hi] takes [buf[0]],
    [buf[1]] and [status] from [acc] to [acc'], when [chg j] says that port
    [j] was found changed: bit [j + 1] of the first byte for [j < 7], bit
    [j - 7] of the second byte otherwise, and a non-zero [status]. *)
Definition marks (lo hi : Z) (chg : Z -> Prop) (acc acc' : status_acc) : Prop :=
  let '(b0, b1, st) := acc in
  let '(b0', b1', st') := acc' in
  (forall k, 0 <= k < 8 ->
     (Z.testbit b0' k = true <->
      Z.testbit b0 k = true \/ exists j, lo <= j < hi /\ j < 7 /\ k = j + 1 /\ chg j)) /\
  (forall k, 0 <= k < 8 ->
     (Z.testbit b1' k = true <->
      Z.testbit b1 k = true \/ exists j, lo <= j < hi /\ 7 <= j /\ k = j - 7 /\ chg j)) /\
  (hi <= 7 -> b1' = b1) /\
  (st' <> 0 <-> st <> 0 \/ exists j, lo <= j < hi /\ chg j).

(** Port 1 is resuming, with its deadline at 1002, two ticks ahead. *)
Definition resuming_state : ehci_hcd :=
  set_resuming_ports 1 (set_reset_done 0 1002 idle_state).







(** Neither a register access nor a call into the scheduler: deleting a
    timer or sleeping. *)
Definition is_timer_or_sleep (e : event) : Prop :=
  match e with
  | ev_call (x_del_timer_sync _) | ev_call (x_msleep _) => True
  | _ => False
  end.

(** A computation that always runs to its end. *)
Definition total {A} (m : M A) : Prop :=
  forall s, exists a s', m s = (Done a, s').

(* ------------------------------------------------------------------------- *)
(** ** Describing what the other functions do *)

(** What a run added to the log satisfies [P], event by event. *)
Definition only (P : event -> Prop) (s s' : ehci_hcd) : Prop :=
  exists evs, log s' = evs ++ log s /\ Forall P evs.

(** An event of a request on port index [q] that acknowledges no change
    latch: of the port registers it accesses that of [q] only, what it
    writes there has the three write-one-to-clear bits clear, and it writes
    no other register. *)
Definition spares_latches (q : Z) (e : event) : Prop :=
  match e with
  | ev_readl (port_status p) _ => p = q
  | ev_writel w (port_status p) => p = q /\ Z.land w PORT_RWC_BITS = 0
  | ev_handshake (port_status p) _ _ _ _ => p = q
  | ev_writel _ _ => False
  | _ => True
  end.

(** What is written to a port register when the wake bits are set up: no
    change latch is acknowledged; when wakeup is wanted the over-current
    wake bit is set, and the disconnect wake bit for a port written as
    connected, the connect wake bit for one that is not; when it is not
    wanted no wake bit is set. *)
Definition arms_wakeup (wakeup : bool) (e : event) : Prop :=
  match e with
  | ev_writel w (port_status _) =>
      Z.land w PORT_RWC_BITS = 0 /\
      if wakeup
      then tst w PORT_WKOC_E = true /\
           tst w PORT_WKDISC_E = tst w PORT_CONNECT /\
           tst w PORT_WKCONN_E = negb (tst w PORT_CONNECT)
      else Z.land w PORT_WAKE_BITS = 0
  | _ => True
  end.

(** Among [evs], a read that shows a port change: the status register with
    the port-change-detect bit, or the register of a port index below [n]
    with the connect-change latch. *)
Definition shows_port_change (n : Z) (evs : list event) : Prop :=
  (exists v, In (ev_readl reg_status v) evs /\ tst v STS_PCD = true) \/
  (exists p v, 0 <= p < n /\ In (ev_readl (port_status p) v) evs /\ tst v PORT_CSC = true).

(** An event of [set_owner] on port index [q]: the port's register is read;
    it is written with the owner bit as asked for and with the enable bit
    and the change latches clear; in between the call sleeps 5 ms. *)
Definition hands_over (q new_owner : Z) (e : event) : Prop :=
  match e with
  | ev_readl r _ => r = port_status q
  | ev_writel w r =>
      r = port_status q /\ Z.land w PORT_OWNER = new_owner /\
      Z.land w (Z.lor PORT_PE PORT_RWC_BITS) = 0
  | ev_call (x_msleep n) => n = 5
  | _ => False
  end.

(** How many of [evs] are register writes, and how many are sleeps. *)
Definition writes_in (evs : list event) : nat :=
  length (filter (fun e => match e with ev_writel _ _ => true | _ => false end) evs).

Definition sleeps_in (evs : list event) : nat :=
  length (filter (fun e => match e with ev_call (x_msleep _) => true | _ => false end) evs).

(** No change latch is acknowledged: what is written to a port register
    has the three write-one-to-clear bits clear. *)
Definition acks_no_latch (e : event) : Prop :=
  match e with
  | ev_writel w (port_status _) => Z.land w PORT_RWC_BITS = 0
  | _ => True
  end.

(** For port index [i]: a deadline and a resuming flag that are cleared stay
    cleared, and the log only grows. *)
Definition keeps_reset_completed (i : Z) (s s' : ehci_hcd) : Prop :=
  (reset_done s i = 0 -> reset_done s' i = 0) /\
  (test_bit i (resuming_ports s) = false -> test_bit i (resuming_ports s') = false) /\
  extends s s'.

(** What the port requests track of a port: the three bitmaps they keep and
    the deadlines. *)
Definition keeps_port_flags (s s' : ehci_hcd) : Prop :=
  port_c_suspend s' = port_c_suspend s /\ suspended_ports s' = suspended_ports s /\
  resuming_ports s' = resuming_ports s /\ reset_done s' = reset_done s.

(** A step that only adds to the log and keeps the port flags, the saved
    command, the state of the root hub and the time of the next state
    change. *)
Definition neutral_step (s s' : ehci_hcd) : Prop :=
  extends s s' /\ keeps_port_flags s s' /\ command s' = command s /\
  rh_state s' = rh_state s /\ next_statechange s' = next_statechange s.

(** [m] runs to its end and is such a step. *)
Definition neutral {A} (m : M A) : Prop :=
  forall s, exists a s', m s = (Done a, s') /\ neutral_step s s'.

(** An event that leaves the other ports alone: when it accesses a port
    register, status or host control, it is that of port index [q]. *)
Definition own_port_only (q : Z) (e : event) : Prop :=
  match e with
  | ev_readl (port_status p) _ | ev_readl (hostpc p) _ => p = q
  | ev_writel _ (port_status p) | ev_writel _ (hostpc p) => p = q
  | ev_handshake (port_status p) _ _ _ _ | ev_handshake (hostpc p) _ _ _ _ => p = q
  | _ => True
  end.

(** What the bus suspend and resume keep for themselves: the two bitmaps
    recorded at suspend, the state of the root hub, the saved command and
    the time of the next state change. *)
Definition keeps_bus_state (s s' : ehci_hcd) : Prop :=
  bus_suspended s' = bus_suspended s /\ owned_ports s' = owned_ports s /\
  rh_state s' = rh_state s /\ command s' = command s /\
  next_statechange s' = next_statechange s.

(** An event that accesses the registers of no port but those recorded in
    the bitmap [owned]. *)
Definition recorded_port_only (owned : Z) (e : event) : Prop :=
  match e with
  | ev_readl (port_status p) _ | ev_readl (hostpc p) _ => test_bit p owned = true
  | ev_writel _ (port_status p) | ev_writel _ (hostpc p) => test_bit p owned = true
  | ev_handshake (port_status p) _ _ _ _ | ev_handshake (hostpc p) _ _ _ _ =>
      test_bit p owned = true
  | _ => True
  end.

(** The ports recorded in [owned_ports] are among those of [owned]. *)
Definition recorded_in (owned : Z) (s : ehci_hcd) : Prop :=
  forall p, test_bit p (owned_ports s) = true -> test_bit p owned = true.

(* ------------------------------------------------------------------------- *)
(** * Properties *)

(** ** Bit tests *)

Lemma tst_false_iff (x m : Z) : tst x m = false <-> Z.land x m = 0.
Proof.
  unfold tst. rewrite negb_false_iff, Z.eqb_eq. tauto.
Qed.

Lemma land_pow2 (x k : Z) :
  0 <= k -> Z.land x (Z.shiftl 1 k) = if Z.testbit x k then Z.shiftl 1 k else 0.
Proof.
  intros Hk. apply Z.bits_inj'. intros n Hn.
  rewrite Z.land_spec, Z.shiftl_1_l, Z.pow2_bits_eqb by assumption.
  destruct (Z.eqb_spec k n) as [->|Hne].
  - destruct (Z.testbit x n); [ now rewrite Z.pow2_bits_eqb, Z.eqb_refl | now rewrite Z.bits_0 ].
  - rewrite andb_false_r.
    destruct (Z.testbit x k); [ rewrite Z.pow2_bits_eqb by assumption | rewrite Z.bits_0; reflexivity ].
    symmetry. now apply Z.eqb_neq.
Qed.


Lemma tst_lor (x a b : Z) : tst x (Z.lor a b) = tst x a || tst x b.
Proof.
  unfold tst. rewrite Z.land_lor_distr_r.
  destruct (Z.eqb_spec (Z.land x a) 0) as [Ha|Ha];
    destruct (Z.eqb_spec (Z.land x b) 0) as [Hb|Hb]; simpl;
    match goal with
    | |- negb (?t =? 0) = _ => destruct (Z.eqb_spec t 0) as [H|H]; simpl; try reflexivity
    end.
  - exfalso. apply H. apply Z.lor_eq_0_iff. tauto.
  - apply Z.lor_eq_0_iff in H. tauto.
  - apply Z.lor_eq_0_iff in H. tauto.
  - apply Z.lor_eq_0_iff in H. tauto.
Qed.

Lemma has_bits_lor_r (x m : Z) : has_bits (Z.lor x m) m.
Proof.
  unfold has_bits. apply Z.bits_inj'. intros n _.
  rewrite Z.land_spec, Z.lor_spec. destruct (Z.testbit x n), (Z.testbit m n); reflexivity.
Qed.

Lemma has_bits_lor_l (x y m : Z) : has_bits x m -> has_bits (Z.lor x y) m.
Proof.
  unfold has_bits. intros H. apply Z.bits_inj'. intros n _.
  apply (f_equal (fun z => Z.testbit z n)) in H. revert H.
  rewrite !Z.land_spec, Z.lor_spec.
  destruct (Z.testbit x n), (Z.testbit y n), (Z.testbit m n); simpl; congruence.
Qed.

(** ** The monad *)

Lemma total_ret {A} (a : A) : total (ret a).
Proof. intros s. now exists a, s. Qed.

Lemma total_bind {A B} (m : M A) (k : A -> M B) :
  total m -> (forall a, total (k a)) -> total (bind m k).
Proof.
  intros Hm Hk s. destruct (Hm s) as (a & s1 & E).
  destruct (Hk a s1) as (b & s2 & E2).
  exists b, s2. unfold bind. now rewrite E.
Qed.

Lemma total_gets {A} (f : ehci_hcd -> A) : total (gets f).
Proof. intros s. now exists (f s), s. Qed.

Lemma total_modify (f : ehci_hcd -> ehci_hcd) : total (modify f).
Proof. intros s. now exists tt, (f s). Qed.

Lemma total_emit (e : event) : total (emit e).
Proof. apply total_modify. Qed.

Lemma total_when (b : bool) (m : M unit) : total m -> total (when b m).
Proof. destruct b; simpl; [ trivial | intros _; apply total_ret ]. Qed.

Lemma total_readl env (r : reg) : total (ehci_readl env r).
Proof. intros s. unfold ehci_readl. eauto. Qed.

Lemma total_msleep env (n : Z) : total (msleep env n).
Proof. apply total_bind; [ apply total_emit | intros _; apply total_modify ]. Qed.

Ltac totality :=
  repeat first
    [ apply total_bind; [| intros ? ]
    | apply total_when
    | apply total_ret | apply total_gets | apply total_modify | apply total_emit
    | apply total_readl | apply total_msleep
    | match goal with
      | |- total (if ?b then _ else _) => destruct b
      | |- total (match ?o with Some _ => _ | None => _ end) => destruct o
      end ].

(** ** [ehci_bus_suspend]: what can make it fail *)

Section BusSuspendFacts.
Variable env : environment.
Variable cfg : ehci_config.

Lemma total_suspend_port port changed : total (suspend_port env cfg port changed).
Proof. unfold suspend_port, ehci_writel, call. totality. Qed.

Lemma total_suspend_ports n : forall changed, total (suspend_ports env cfg n changed).
Proof.
  induction n as [|k IH]; intros changed; simpl.
  - apply total_ret.
  - apply total_bind; [ apply total_suspend_port | intros c; apply IH ].
Qed.

Lemma total_enter_phy_low_power n : total (enter_phy_low_power env n).
Proof.
  induction n as [|k IH]; simpl; [ apply total_ret |].
  unfold ehci_writel. totality. exact IH.
Qed.

(** Past the busy test the locked part runs to its end and returns 0. *)
Lemma bus_suspend_locked_ok s :
  do_remote_wakeup cfg && negb (resuming_ports s =? 0) = false ->
  exists s', bus_suspend_locked env cfg s = (Done 0, s').
Proof.
  intros Hgo. unfold bus_suspend_locked.
  unfold bind at 1. unfold gets at 1. rewrite Hgo.
  match goal with
  | |- exists s', bind ?m ?k s = _ =>
      assert (Ht : total m) by (unfold call; totality)
  end.
  destruct (Ht s) as ([] & s1 & E1). unfold bind at 1. rewrite E1.
  repeat match goal with
  | |- exists s', bind ?m ?k ?st = _ =>
      let a := fresh "a" in let s2 := fresh "s" in let E := fresh "E" in
      assert (Ht' : total m) by
        (unfold call, ehci_writel; totality;
         auto using total_suspend_ports, total_enter_phy_low_power);
      destruct (Ht' st) as (a & s2 & E); unfold bind at 1; rewrite E; clear Ht' E
  end.
  eexists. reflexivity.
Qed.
End BusSuspendFacts.

(** C1 (amended): [ehci_bus_suspend] returns the busy error exactly on the
    guarded path: when remote wakeup is enabled for the root hub and the
    resuming-ports set is non-empty it returns -EBUSY, the tracker is unchanged
    and no register was accessed (the call only slept and deleted timers).
    When remote wakeup is disabled or no port resume is pending it does not
    fail: it returns 0. *)
Theorem bus_suspend_busy_iff_wakeup_and_resuming env cfg s :
  (do_remote_wakeup cfg = true -> resuming_ports s <> 0 ->
   exists s' evs,
     ehci_bus_suspend env cfg s = (- EBUSY, s') /\
     same_tracker s s' /\ logged s s' evs /\ Forall is_timer_or_sleep evs) /\
  (do_remote_wakeup cfg = false \/ resuming_ports s = 0 ->
   fst (ehci_bus_suspend env cfg s) = 0).
Proof.
  split.
  - intros Hw Hr.
    assert (Hbusy : forall st, resuming_ports st = resuming_ports s ->
              bus_suspend_locked env cfg st = (Fail (- EBUSY), st)).
    { intros st Hst. unfold bus_suspend_locked, bind, gets. rewrite Hw, Hst.
      apply Z.eqb_neq in Hr. now rewrite Hr. }
    unfold ehci_bus_suspend, bind, gets, when.
    destruct (time_before (jiffies s) (next_statechange s)).
    + eexists. exists [ev_call (x_msleep 5); ev_call (x_del_timer_sync watchdog);
                       ev_call (x_del_timer_sync iaa_watchdog)].
      unfold msleep, call, emit, modify, bind. simpl. rewrite Hbusy by reflexivity.
      repeat split; simpl; auto. repeat constructor.
    + eexists. exists [ev_call (x_del_timer_sync watchdog);
                       ev_call (x_del_timer_sync iaa_watchdog)].
      unfold ret, call, emit, modify. simpl. rewrite Hbusy by reflexivity.
      repeat split; simpl; auto. repeat constructor.
  - intros Hgo.
    assert (Hok : forall st, resuming_ports st = resuming_ports s ->
              exists s', bus_suspend_locked env cfg st = (Done 0, s')).
    { intros st Hst. apply bus_suspend_locked_ok. rewrite Hst.
      destruct Hgo as [-> | ->]; [ reflexivity | apply andb_false_r ]. }
    unfold ehci_bus_suspend, bind, gets, when.
    destruct (time_before (jiffies s) (next_statechange s)).
    + unfold msleep, call, emit, modify, bind. simpl.
      match goal with
      | |- context [bus_suspend_locked env cfg ?st] =>
          destruct (Hok st eq_refl) as (s' & ->)
      end. reflexivity.
    + unfold ret, call, emit, modify. simpl.
      match goal with
      | |- context [bus_suspend_locked env cfg ?st] =>
          destruct (Hok st eq_refl) as (s' & ->)
      end. reflexivity.
Qed.

(** The amended C1 at work: busy with remote wakeup and port 1 resuming,
    success on an idle controller. *)
Lemma bus_suspend_busy_iff_wakeup_and_resuming_witness :
  (exists s' evs,
     ehci_bus_suspend (scripted [] 0) plain_config (set_resuming_ports 1 idle_state)
       = (- EBUSY, s') /\
     same_tracker (set_resuming_ports 1 idle_state) s' /\
     logged (set_resuming_ports 1 idle_state) s' evs /\ Forall is_timer_or_sleep evs) /\
  fst (ehci_bus_suspend (scripted [1; 0x1005; 0x1000] 0) plain_config idle_state) = 0.
Proof.
  split.
  - apply (proj1 (bus_suspend_busy_iff_wakeup_and_resuming
                   (scripted [] 0) plain_config (set_resuming_ports 1 idle_state))).
    + reflexivity.
    + simpl. discriminate.
  - apply (proj2 (bus_suspend_busy_iff_wakeup_and_resuming
                   (scripted [1; 0x1005; 0x1000] 0) plain_config idle_state)).
    right. reflexivity.
Defined.

(** C1 as stated fails: with remote wakeup disabled for the root hub, a
    suspend requested while port 1 is resuming is not refused. *)
Lemma bus_suspend_not_busy_without_wakeup :
  resuming_ports (set_resuming_ports 1 idle_state) <> 0 /\
  fst (ehci_bus_suspend (scripted [1; 0x1005; 0x1000] 0)
         (quirkless 0x12 0 false false false false)
         (set_resuming_ports 1 idle_state)) = 0 /\
  0 <> - EBUSY.
Proof.
  split; [ simpl; discriminate | split; [ vm_compute; reflexivity | discriminate ] ].
Qed.

(** ** [ehci_hub_control]: the request switch *)

Lemma HCS_N_PORTS_range (p : Z) : 0 <= HCS_N_PORTS p <= 15.
Proof.
  unfold HCS_N_PORTS. split.
  - apply Z.land_nonneg. right. lia.
  - assert (H : Z.land p 15 = p mod 2 ^ 4) by (change 15 with (Z.ones 4); apply Z.land_ones; lia).
    rewrite H. pose proof (Z.mod_pos_bound p (2 ^ 4) ltac:(lia)). lia.
Qed.

Lemma u16_small (z : Z) : 0 <= z < 2 ^ 16 -> u16 z = z.
Proof. intros H. unfold u16. now apply Z.mod_small. Qed.

Lemma land_255_small (z : Z) : 0 <= z < 256 -> Z.land z 255 = z.
Proof.
  intros H. change 255 with (Z.ones 8). rewrite Z.land_ones by lia.
  apply Z.mod_small. lia.
Qed.

Section RequestSwitch.
Variable env : environment.
Variable cfg : ehci_config.
Variable port : Z.
Hypothesis in_range : 1 <= port <= HCS_N_PORTS (hcs_params cfg).

Lemma port_facts :
  u16 port = port /\ Z.land port 255 = port /\
  ((port =? 0) || (HCS_N_PORTS (hcs_params cfg) <? port)) = false.
Proof.
  pose proof (HCS_N_PORTS_range (hcs_params cfg)) as R.
  repeat split.
  - apply u16_small. lia.
  - apply land_255_small. lia.
  - apply orb_false_iff. split; [ apply Z.eqb_neq | apply Z.ltb_ge ]; lia.
Qed.

(** An in-range ClearPortFeature is [clear_port_feature]. *)
Lemma hub_control_clear_port_feature (wValue : Z) (s : ehci_hcd) :
  ehci_hub_control env cfg ClearPortFeature wValue port s =
  match clear_port_feature env cfg (u16 wValue) (port - 1) (port_status (port - 1))
          (hostpc_reg_of cfg port) s with
  | (Done _, s') => (0, no_reply, s')
  | (Fail r, s') => (r, no_reply, s')
  end.
Proof.
  destruct port_facts as (Hu & Hl & Hr).
  unfold ehci_hub_control, hub_control_locked.
  change (u16 ClearPortFeature =? ClearHubFeature) with false.
  change (u16 ClearPortFeature =? ClearPortFeature) with true.
  cbv iota. rewrite Hu. change 0xff with 255. rewrite Hl, Hr.
  unfold bind.
  destruct (clear_port_feature env cfg (u16 wValue) (port - 1) (port_status (port - 1))
              (hostpc_reg_of cfg port) s) as [[[]|r] s']; reflexivity.
Qed.

(** An in-range GetPortStatus is [get_port_status]. *)
Lemma hub_control_get_port_status (wValue : Z) (s : ehci_hcd) :
  ehci_hub_control env cfg GetPortStatus wValue port s =
  match get_port_status env cfg (port - 1) (port_status (port - 1))
          (hostpc_reg_of cfg port) s with
  | (Done status, s') => (0, reply_port_status status, s')
  | (Fail r, s') => (r, no_reply, s')
  end.
Proof.
  destruct port_facts as (Hu & Hl & Hr).
  unfold ehci_hub_control, hub_control_locked.
  change (u16 GetPortStatus =? ClearHubFeature) with false.
  change (u16 GetPortStatus =? ClearPortFeature) with false.
  change (u16 GetPortStatus =? GetHubDescriptor) with false.
  change (u16 GetPortStatus =? GetHubStatus) with false.
  change (u16 GetPortStatus =? GetPortStatus) with true.
  cbv iota. rewrite Hu. change 0xff with 255. rewrite Hl, Hr.
  unfold bind.
  destruct (get_port_status env cfg (port - 1) (port_status (port - 1))
              (hostpc_reg_of cfg port) s) as [[st|r] s']; reflexivity.
Qed.

(** An in-range SetPortFeature is the debug-port gate, then
    [set_port_feature]; the high byte of [wIndex] is the selector. *)
Lemma hub_control_set_port_feature (wValue selector : Z) (s : ehci_hcd) :
  0 <= selector < 256 ->
  ehci_hub_control env cfg SetPortFeature wValue (port + 256 * selector) s =
  match spf_debug_gate env cfg port s with
  | (Fail r, s1) => (r, no_reply, s1)
  | (Done _, s1) =>
      match set_port_feature env cfg (u16 wValue) (HCS_N_PORTS (hcs_params cfg)) selector
              (port - 1) (port_status (port - 1)) (hostpc_reg_of cfg port) s1 with
      | (Done r, s') => (r, no_reply, s')
      | (Fail r, s') => (r, no_reply, s')
      end
  end.
Proof.
  intros Hsel. destruct port_facts as (Hu & Hl & Hr).
  pose proof (HCS_N_PORTS_range (hcs_params cfg)) as R.
  assert (Hw : u16 (port + 256 * selector) = port + 256 * selector)
    by (apply u16_small; lia).
  assert (Hlow : Z.land (port + 256 * selector) 255 = port).
  { change 255 with (Z.ones 8). rewrite Z.land_ones by lia.
    change (2 ^ 8) with 256.
    replace (port + 256 * selector) with (port + selector * 256) by lia.
    rewrite Z.mod_add by lia. apply Z.mod_small. lia. }
  assert (Hhigh : Z.shiftr (port + 256 * selector) 8 = selector).
  { rewrite Z.shiftr_div_pow2 by lia. change (2 ^ 8) with 256.
    replace (port + 256 * selector) with (port + selector * 256) by lia.
    rewrite Z.div_add by lia. rewrite Z.div_small by lia. lia. }
  unfold ehci_hub_control, hub_control_locked.
  change (u16 SetPortFeature =? ClearHubFeature) with false.
  change (u16 SetPortFeature =? ClearPortFeature) with false.
  change (u16 SetPortFeature =? GetHubDescriptor) with false.
  change (u16 SetPortFeature =? GetHubStatus) with false.
  change (u16 SetPortFeature =? GetPortStatus) with false.
  change (u16 SetPortFeature =? SetHubFeature) with false.
  change (u16 SetPortFeature =? SetPortFeature) with true.
  cbv iota. rewrite Hw. change 0xff with 255. rewrite Hlow, Hhigh, Hr.
  unfold hostpc_reg_of. change 0xff with 255. rewrite Hlow, Hl.
  unfold bind at 1.
  destruct (spf_debug_gate env cfg port s) as [[[]|r] s1]; [| reflexivity ].
  unfold bind.
  destruct (set_port_feature env cfg (u16 wValue) (HCS_N_PORTS (hcs_params cfg)) selector
              (port - 1) (port_status (port - 1))
              (if has_hostpc cfg then Some (hostpc (port - 1)) else None) s1)
    as [[r|r] s']; reflexivity.
Qed.

(** The gate only reads; it leaves the state as it was, the log apart. *)
Lemma spf_debug_gate_reads (s : ehci_hcd) :
  exists evs, snd (spf_debug_gate env cfg port s) = set_log (evs ++ log s) s /\
              Forall is_read evs.
Proof.
  unfold spf_debug_gate.
  destruct (debug cfg); [| exists []; destruct s; split; [ reflexivity | constructor ] ].
  destruct (port =? HCS_DEBUG_PORT (hcs_params cfg));
    [| exists []; destruct s; split; [ reflexivity | constructor ] ].
  exists [ev_readl debug_control (u32 (hw_read env (log s) debug_control))].
  unfold bind, ehci_readl.
  destruct (tst (u32 (hw_read env (log s) debug_control)) DBGP_ENABLED);
    (split; [ reflexivity | repeat constructor ]).
Qed.
End RequestSwitch.

(** ** ClearPortFeature(SUSPEND) *)

(** Host negotiation is started by ClearPortFeature(SUSPEND) in an OTG build,
    on the OTG port, when HNP is enabled and selective suspend is in use. *)
Lemma clear_suspend_body env cfg idx status_reg hreg s :
  clear_port_feature env cfg (u16 USB_PORT_FEAT_SUSPEND) idx status_reg hreg s =
  (let temp := u32 (hw_read env (log s) status_reg) in
   let s1 := set_log (ev_readl status_reg temp :: log s) s in
   if tst temp PORT_RESET then (Fail (- EPIPE), s1)
   else
     bind
       (if no_selective_suspend cfg then ret tt
        else if CONFIG_USB_OTG cfg && (otg_port cfg =? idx + 1) && b_hnp_enable cfg then
          call x_otg_start_hnp
        else if negb (tst temp PORT_SUSPEND) then ret tt
        else if Z.land temp PORT_PE =? 0 then goto_error
        else
          bind
            match hreg with
            | Some r =>
                bind (ehci_readl env r) (fun temp1 =>
                bind (ehci_writel (Z.land temp1 (Z.lnot HOSTPC_PHCD)) r) (fun _ =>
                msleep env 5))
            | None => ret tt
            end
            (fun _ =>
             bind (ehci_writel
                     (Z.lor (Z.land temp (Z.lnot (Z.lor PORT_RWC_BITS PORT_WAKE_BITS)))
                        PORT_RESUME) status_reg)
               (fun _ => modify (fun s => set_reset_done idx (deadline env s 20) s))))
       (fun _ => bind (ehci_readl env reg_command) (fun _ => ret tt)) s1).
Proof.
  unfold clear_port_feature.
  change (u16 USB_PORT_FEAT_SUSPEND =? USB_PORT_FEAT_ENABLE) with false.
  change (u16 USB_PORT_FEAT_SUSPEND =? USB_PORT_FEAT_C_ENABLE) with false.
  change (u16 USB_PORT_FEAT_SUSPEND =? USB_PORT_FEAT_SUSPEND) with true.
  cbv iota. unfold bind at 1. unfold ehci_readl at 1. cbv zeta.
  destruct (tst (u32 (hw_read env (log s) status_reg)) PORT_RESET); reflexivity.
Qed.

(** C8 (amended): on an in-range port, ClearPortFeature(SUSPEND) fails with
    the stall error, after nothing but the read of the port register, when
    the reset bit is set.  Otherwise, when the port is not suspended or the
    controller has selective suspend disabled, it returns success and leaves
    the state as it was: the request reads the port and the command register,
    writes nothing, and in between, in an OTG build on the HNP-enabled OTG
    port of a controller with selective suspend, starts host negotiation. *)
Theorem clear_suspend_not_suspended env cfg port s :
  1 <= port <= HCS_N_PORTS (hcs_params cfg) ->
  let status_reg := port_status (port - 1) in
  let temp := u32 (hw_read env (log s) status_reg) in
  let s1 := set_log (ev_readl status_reg temp :: log s) s in
  let hnp := negb (no_selective_suspend cfg) && CONFIG_USB_OTG cfg
             && (otg_port cfg =? port) && b_hnp_enable cfg in
  (tst temp PORT_RESET = true ->
   ehci_hub_control env cfg ClearPortFeature USB_PORT_FEAT_SUSPEND port s
   = (- EPIPE, no_reply, s1)) /\
  (tst temp PORT_RESET = false ->
   tst temp PORT_SUSPEND = false \/ no_selective_suspend cfg = true ->
   exists c,
     ehci_hub_control env cfg ClearPortFeature USB_PORT_FEAT_SUSPEND port s
     = (0, no_reply,
        set_log (ev_readl reg_command c
                   :: (if hnp then [ev_call x_otg_start_hnp] else []) ++ log s1) s)).
Proof.
  intros Hr status_reg temp s1 hnp.
  rewrite (hub_control_clear_port_feature env cfg port Hr).
  rewrite clear_suspend_body. fold status_reg. fold temp. fold s1. cbv zeta.
  split.
  - intros ->. reflexivity.
  - intros -> Hcase. subst hnp. replace (port - 1 + 1) with port by lia.
    destruct (no_selective_suspend cfg) eqn:Hnss; simpl.
    + eexists. reflexivity.
    + destruct Hcase as [Hsus | Habs]; [| discriminate ].
      rewrite Hsus. simpl.
      destruct (CONFIG_USB_OTG cfg && (otg_port cfg =? port) && b_hnp_enable cfg);
        eexists; reflexivity.
Qed.

(** The amended C8 on port 1 of a plain controller: a port that is enabled and
    not suspended, and a port in reset. *)
Lemma clear_suspend_not_suspended_witness :
  (exists c,
     ehci_hub_control (scripted [0x1005; 0x10001] 0) plain_config ClearPortFeature
       USB_PORT_FEAT_SUSPEND 1 idle_state
     = (0, no_reply,
        set_log [ev_readl reg_command c; ev_readl (port_status 0) 0x1005] idle_state)) /\
  ehci_hub_control (scripted [0x1101] 0) plain_config ClearPortFeature
    USB_PORT_FEAT_SUSPEND 1 idle_state
  = (- EPIPE, no_reply, set_log [ev_readl (port_status 0) 0x1101] idle_state).
Proof.
  split.
  - apply (proj2 (clear_suspend_not_suspended (scripted [0x1005; 0x10001] 0) plain_config 1
                    idle_state ltac:(vm_compute; split; discriminate))).
    + reflexivity.
    + left. reflexivity.
  - apply (proj1 (clear_suspend_not_suspended (scripted [0x1101] 0) plain_config 1
                    idle_state ltac:(vm_compute; split; discriminate))).
    reflexivity.
Defined.

(** C8 as stated fails in an OTG build: on the HNP-enabled OTG port,
    ClearPortFeature(SUSPEND) on a port that is neither suspended nor in
    reset is not a no-op, it starts host negotiation. *)
Lemma clear_suspend_starts_hnp :
  tst 0x1005 PORT_SUSPEND = false /\ tst 0x1005 PORT_RESET = false /\
  ehci_hub_control (scripted [0x1005; 0x10001] 0) (with_otg 1 plain_config) ClearPortFeature
    USB_PORT_FEAT_SUSPEND 1 idle_state
  = (0, no_reply,
     set_log [ev_readl reg_command 0x10001; ev_call x_otg_start_hnp;
              ev_readl (port_status 0) 0x1005] idle_state).
Proof. repeat split. Qed.

(** ** Requests on a port owned by the companion *)

Lemma set_port_feature_owned env cfg wValue ports selector idx status_reg hreg s :
  tst (u32 (hw_read env (log s) status_reg)) PORT_OWNER = true ->
  set_port_feature env cfg wValue ports selector idx status_reg hreg s =
  (Done 0, set_log (ev_readl status_reg (u32 (hw_read env (log s) status_reg)) :: log s) s).
Proof.
  intros H. unfold set_port_feature, bind. unfold ehci_readl at 1. cbv zeta.
  rewrite H. reflexivity.
Qed.

(** The three change latches are cleared by writing the register back with
    the other latches masked and the one to clear set. *)
Lemma clear_change_bit_body env cfg wValue latch idx status_reg hreg s :
  (wValue = USB_PORT_FEAT_C_ENABLE /\ latch = PORT_PEC) \/
  (wValue = USB_PORT_FEAT_C_OVER_CURRENT /\ latch = PORT_OCC) \/
  (wValue = USB_PORT_FEAT_C_CONNECTION /\ latch = PORT_CSC /\ has_lpm cfg = false) ->
  let temp := u32 (hw_read env (log s) status_reg) in
  let w := Z.lor (Z.land temp (Z.lnot PORT_RWC_BITS)) latch in
  let l1 := ev_writel w status_reg :: ev_readl status_reg temp :: log s in
  clear_port_feature env cfg (u16 wValue) idx status_reg hreg s =
  (Done tt, set_log (ev_readl reg_command (u32 (hw_read env l1 reg_command)) :: l1) s).
Proof.
  intros [[-> ->] | [[-> ->] | (-> & -> & Hlpm)]]; cbv zeta;
    unfold clear_port_feature; try rewrite Hlpm; reflexivity.
Qed.

Lemma clear_connection_lpm_body env cfg idx status_reg hreg s :
  has_lpm cfg = true ->
  let temp := u32 (hw_read env (log s) status_reg) in
  let t := Z.land (Z.land temp (Z.lnot PORT_LPM)) (Z.lnot PORT_DEV_ADDR) in
  let w := Z.lor (Z.land t (Z.lnot PORT_RWC_BITS)) PORT_CSC in
  let l1 := ev_writel w status_reg :: ev_readl status_reg temp :: log s in
  clear_port_feature env cfg (u16 USB_PORT_FEAT_C_CONNECTION) idx status_reg hreg s =
  (Done tt, set_log (ev_readl reg_command (u32 (hw_read env l1 reg_command)) :: l1) s).
Proof.
  intros Hlpm. cbv zeta. unfold clear_port_feature. rewrite Hlpm. reflexivity.
Qed.

Lemma clear_c_suspend_body env cfg idx status_reg hreg s :
  let temp := u32 (hw_read env (log s) status_reg) in
  let l1 := ev_readl status_reg temp :: log s in
  clear_port_feature env cfg (u16 USB_PORT_FEAT_C_SUSPEND) idx status_reg hreg s =
  (Done tt,
   set_log (ev_readl reg_command (u32 (hw_read env l1 reg_command)) :: l1)
     (set_port_c_suspend (clear_bit idx (port_c_suspend s)) s)).
Proof. reflexivity. Qed.

(** C5 (amended): on an in-range port, every SetPortFeature request that
    passes the debug-port gate and then reads the port register with the
    owner bit set returns success, only reads registers and leaves the state
    as it was.  ClearPortFeature keeps its effect on a port whose register it
    reads with the owner bit set: C_CONNECTION, C_ENABLE and C_OVER_CURRENT
    write the register back with the matching change latch set
    (write-one-to-clear) and the other latches masked (for C_CONNECTION on a
    controller with link power management, also with the link-state and
    device address bits cleared), and C_SUSPEND clears the port's
    suspend-change flag. *)
Theorem owned_port_set_is_ignored_clear_is_not env cfg port s :
  1 <= port <= HCS_N_PORTS (hcs_params cfg) ->
  let status_reg := port_status (port - 1) in
  let temp := u32 (hw_read env (log s) status_reg) in
  let unlinked := if has_lpm cfg
                  then Z.land (Z.land temp (Z.lnot PORT_LPM)) (Z.lnot PORT_DEV_ADDR)
                  else temp in
  let wrote w c := set_log (ev_readl reg_command c :: ev_writel w status_reg
                              :: ev_readl status_reg temp :: log s) s in
  (forall wValue selector, 0 <= selector < 256 ->
   fst (spf_debug_gate env cfg port s) = Done tt ->
   owned_by_companion env (log (snd (spf_debug_gate env cfg port s))) (port - 1) ->
   exists evs,
     ehci_hub_control env cfg SetPortFeature wValue (port + 256 * selector) s
     = (0, no_reply, set_log (evs ++ log s) s) /\ Forall is_read evs) /\
  (owned_by_companion env (log s) (port - 1) ->
   (exists c,
      ehci_hub_control env cfg ClearPortFeature USB_PORT_FEAT_C_CONNECTION port s
      = (0, no_reply, wrote (Z.lor (Z.land unlinked (Z.lnot PORT_RWC_BITS)) PORT_CSC) c)) /\
   (exists c,
      ehci_hub_control env cfg ClearPortFeature USB_PORT_FEAT_C_ENABLE port s
      = (0, no_reply, wrote (Z.lor (Z.land temp (Z.lnot PORT_RWC_BITS)) PORT_PEC) c)) /\
   (exists c,
      ehci_hub_control env cfg ClearPortFeature USB_PORT_FEAT_C_OVER_CURRENT port s
      = (0, no_reply, wrote (Z.lor (Z.land temp (Z.lnot PORT_RWC_BITS)) PORT_OCC) c)) /\
   (exists c,
      ehci_hub_control env cfg ClearPortFeature USB_PORT_FEAT_C_SUSPEND port s
      = (0, no_reply,
         set_log (ev_readl reg_command c :: ev_readl status_reg temp :: log s)
           (set_port_c_suspend (clear_bit (port - 1) (port_c_suspend s)) s)))).
Proof.
  intros Hr status_reg temp unlinked wrote.
  split; [| intros _; repeat split ].
  - intros wValue selector Hsel Hgate Hown.
    rewrite (hub_control_set_port_feature env cfg port Hr wValue selector s Hsel).
    destruct (spf_debug_gate_reads env cfg port s) as (evs & Hs1 & Hevs).
    destruct (spf_debug_gate env cfg port s) as [o s1]. simpl in Hgate, Hs1, Hown. subst o.
    rewrite set_port_feature_owned by exact Hown.
    subst s1. eexists (_ :: evs). split; [ reflexivity |].
    constructor; [ exact I | exact Hevs ].
  - rewrite (hub_control_clear_port_feature env cfg port Hr).
    subst unlinked. destruct (has_lpm cfg) eqn:Hlpm.
    + rewrite clear_connection_lpm_body by assumption. eexists. reflexivity.
    + rewrite (clear_change_bit_body env cfg _ PORT_CSC) by tauto. eexists. reflexivity.
  - rewrite (hub_control_clear_port_feature env cfg port Hr).
    rewrite (clear_change_bit_body env cfg _ PORT_PEC) by tauto. eexists. reflexivity.
  - rewrite (hub_control_clear_port_feature env cfg port Hr).
    rewrite (clear_change_bit_body env cfg _ PORT_OCC) by tauto. eexists. reflexivity.
  - rewrite (hub_control_clear_port_feature env cfg port Hr).
    rewrite clear_c_suspend_body. eexists. reflexivity.
Qed.

(** The amended C5 on port 1 of a plain controller whose port register reads
    owner and power this once, and the connect latch, and nothing later on:
    SetPortFeature(RESET) is accepted without effect,
    ClearPortFeature(C_CONNECTION) writes the latch. *)
Lemma owned_port_set_is_ignored_clear_is_not_witness :
  (exists evs,
     ehci_hub_control (scripted [0x3002] 0) plain_config SetPortFeature USB_PORT_FEAT_RESET
       (1 + 256 * 0) idle_state
     = (0, no_reply, set_log (evs ++ log idle_state) idle_state) /\ Forall is_read evs) /\
  (exists c,
     ehci_hub_control (scripted [0x3002] 0) plain_config ClearPortFeature
       USB_PORT_FEAT_C_CONNECTION 1 idle_state
     = (0, no_reply,
        set_log [ev_readl reg_command c; ev_writel 0x3002 (port_status 0);
                 ev_readl (port_status 0) 0x3002] idle_state)).
Proof.
  pose proof (owned_port_set_is_ignored_clear_is_not (scripted [0x3002] 0) plain_config 1
                idle_state ltac:(vm_compute; split; discriminate)) as H.
  split.
  - apply (proj1 H); [ lia | reflexivity | reflexivity ].
  - exact (proj1 (proj2 H eq_refl)).
Defined.

(** C5 as stated fails at the debug-port gate: a SetPortFeature request on
    a companion-owned port that is the enabled debug port is denied with
    -ENODEV instead of being accepted.  The port register shows the owner bit
    when the request arrives and when it returns, and whenever else it is
    read; the request does not get to read it. *)
Lemma owned_debug_port_is_denied :
  owned_by_companion (steady 0x10003000 0) (log idle_state) 0 /\
  owned_by_companion (steady 0x10003000 0) [ev_readl debug_control 0x10003000] 0 /\
  (forall h, owned_by_companion (steady 0x10003000 0) h 0) /\
  ehci_hub_control (steady 0x10003000 0) (quirkless 0x100012 0 true true false false)
    SetPortFeature USB_PORT_FEAT_POWER 1 idle_state
  = (- ENODEV, no_reply, set_log [ev_readl debug_control 0x10003000] idle_state) /\
  - ENODEV <> 0.
Proof.
  split; [ reflexivity |]. split; [ reflexivity |]. split; [ intros h; reflexivity |].
  split; [ reflexivity | discriminate ].
Qed.

(** ** Masks *)

Lemma tst_land_l (v a m : Z) : tst (Z.land v a) m = tst v (Z.land a m).
Proof. unfold tst. now rewrite Z.land_assoc. Qed.

Lemma tst_lor_l (a b m : Z) : tst (Z.lor a b) m = tst a m || tst b m.
Proof.
  unfold tst. rewrite Z.land_comm, Z.land_lor_distr_r, (Z.land_comm m a), (Z.land_comm m b).
  destruct (Z.eqb_spec (Z.land a m) 0) as [Ha|Ha];
    destruct (Z.eqb_spec (Z.land b m) 0) as [Hb|Hb]; simpl;
    match goal with
    | |- negb (?t =? 0) = _ => destruct (Z.eqb_spec t 0) as [H|H]; simpl; try reflexivity
    end;
    try (apply Z.lor_eq_0_iff in H; tauto).
  exfalso. apply H. apply Z.lor_eq_0_iff. tauto.
Qed.




(** ** SetPortFeature(RESET) *)

Lemma hub_control_set_port_feature_0 env cfg port wValue s :
  1 <= port <= HCS_N_PORTS (hcs_params cfg) ->
  ehci_hub_control env cfg SetPortFeature wValue port s =
  match spf_debug_gate env cfg port s with
  | (Fail r, s1) => (r, no_reply, s1)
  | (Done _, s1) =>
      match set_port_feature env cfg (u16 wValue) (HCS_N_PORTS (hcs_params cfg)) 0
              (port - 1) (port_status (port - 1)) (hostpc_reg_of cfg port) s1 with
      | (Done r, s') => (r, no_reply, s')
      | (Fail r, s') => (r, no_reply, s')
      end
  end.
Proof.
  intros Hr.
  rewrite <- (hub_control_set_port_feature env cfg port Hr wValue 0 s) by lia.
  f_equal. lia.
Qed.







(** ** Requests that fail validation *)

Lemma clear_port_feature_unsupported env cfg wValue idx status_reg hreg s :
  clear_port_feature_supported wValue = false ->
  clear_port_feature env cfg wValue idx status_reg hreg s =
  (Fail (- EPIPE),
   set_log (ev_readl status_reg (u32 (hw_read env (log s) status_reg)) :: log s) s).
Proof.
  unfold clear_port_feature_supported. rewrite !orb_false_iff.
  intros (((((((H1 & H2) & H3) & H4) & H5) & H6) & H7) & H8).
  unfold clear_port_feature. rewrite H1, H2, H3, H4, H5, H6, H7, H8. reflexivity.
Qed.

Lemma set_port_feature_unsupported env cfg wValue ports selector idx status_reg hreg s :
  set_port_feature_supported cfg wValue selector = false ->
  tst (u32 (hw_read env (log s) status_reg)) PORT_OWNER = false ->
  set_port_feature env cfg wValue ports selector idx status_reg hreg s =
  (Fail (- EPIPE),
   set_log (ev_readl status_reg (u32 (hw_read env (log s) status_reg)) :: log s) s).
Proof.
  unfold set_port_feature_supported. rewrite !orb_false_iff.
  intros (((H1 & H2) & H3) & H4) Hown.
  unfold set_port_feature. unfold bind at 1. unfold ehci_readl at 1. cbv zeta.
  rewrite Hown, H1, H2, H3.
  destruct (wValue =? USB_PORT_FEAT_TEST); [| reflexivity ].
  simpl in H4. unfold test_selector_supported in H4. apply orb_false_iff in H4.
  destruct H4 as (H4 & H5). unfold spf_test. rewrite H4, H5. reflexivity.
Qed.

(** C6 (amended): a request that fails validation (a port index that is 0
    or greater than the port count, or an unsupported feature or selector
    code of ClearHubFeature, SetHubFeature, ClearPortFeature or
    SetPortFeature) returns the stall error, and nothing but register reads
    has happened: the state is as before, the log of reads apart.  For
    SetPortFeature this is so when the request reaches the feature switch,
    that is, it passes the debug-port gate and, for an in-range port, the
    port is not owned by the companion. *)
Theorem invalid_request_stalls env cfg typeReq wValue wIndex s :
  0 <= typeReq < 2 ^ 16 -> 0 <= wValue < 2 ^ 16 -> 0 <= wIndex < 2 ^ 16 ->
  fails_validation cfg typeReq wValue wIndex = true ->
  (typeReq = SetPortFeature -> reaches_feature_switch env cfg wIndex s) ->
  exists evs,
    ehci_hub_control env cfg typeReq wValue wIndex s
    = (- EPIPE, no_reply, set_log (evs ++ log s) s) /\ Forall is_read evs.
Proof.
  intros Ht Hv Hi Hbad Hspf.
  assert (Hs : set_log ([] ++ log s) s = s) by (destruct s; reflexivity).
  unfold ehci_hub_control, hub_control_locked.
  rewrite (u16_small typeReq Ht), (u16_small wValue Hv), (u16_small wIndex Hi).
  unfold fails_validation in Hbad. fold (bad_port_index cfg wIndex).
  change 0xff with 255. fold (bad_port_index cfg (Z.land wIndex 255)).
  fold (hub_feature_supported wValue).
  destruct (Z.eqb_spec typeReq ClearHubFeature) as [->|N1].
  { apply negb_true_iff in Hbad. rewrite Hbad. exists []. rewrite Hs. split; [ reflexivity | constructor ]. }
  destruct (Z.eqb_spec typeReq SetHubFeature) as [->|N2].
  { apply negb_true_iff in Hbad. cbn [Z.eqb SetHubFeature ClearPortFeature GetHubDescriptor GetHubStatus GetPortStatus Pos.eqb].
    rewrite Hbad. exists []. rewrite Hs. split; [ reflexivity | constructor ]. }
  destruct (Z.eqb_spec typeReq ClearPortFeature) as [->|N3].
  { destruct (bad_port_index cfg wIndex) eqn:Hidx.
    - exists []. rewrite Hs. split; [ reflexivity | constructor ].
    - simpl in Hbad. apply negb_true_iff in Hbad.
      unfold bind. rewrite clear_port_feature_unsupported by assumption.
      eexists [_]. split; [ reflexivity | repeat constructor ]. }
  destruct (Z.eqb_spec typeReq GetPortStatus) as [->|N4].
  { cbn [Z.eqb GetPortStatus GetHubDescriptor GetHubStatus Pos.eqb].
    rewrite Hbad. exists []. rewrite Hs. split; [ reflexivity | constructor ]. }
  destruct (Z.eqb_spec typeReq SetPortFeature) as [->|N5]; [| discriminate ].
  cbn [Z.eqb SetPortFeature GetHubDescriptor GetHubStatus Pos.eqb].
  destruct (Hspf eq_refl) as (Hgate & Hown).
  destruct (spf_debug_gate_reads env cfg (Z.land wIndex 255) s) as (evs & Es1 & Hevs).
  unfold bind at 1.
  destruct (spf_debug_gate env cfg (Z.land wIndex 255) s) as [o s1].
  simpl in Hgate, Es1, Hown. subst o s1.
  destruct (bad_port_index cfg (Z.land wIndex 255)) eqn:Hidx.
  - exists evs. split; [ reflexivity | exact Hevs ].
  - simpl in Hbad. apply negb_true_iff in Hbad.
    unfold bind. rewrite set_port_feature_unsupported; [| exact Hbad | exact (Hown eq_refl) ].
    eexists (_ :: evs). split; [ reflexivity | constructor; [ exact I | exact Hevs ] ].
Qed.

(** The amended C6 on a plain two-port controller: GetPortStatus on port 3,
    ClearPortFeature with feature code 99, SetPortFeature(TEST) with
    selector 7 on a port the controller owns. *)
Lemma invalid_request_stalls_witness :
  (exists evs,
     ehci_hub_control (scripted [] 0) plain_config GetPortStatus 0 3 idle_state
     = (- EPIPE, no_reply, set_log (evs ++ log idle_state) idle_state) /\ Forall is_read evs) /\
  (exists evs,
     ehci_hub_control (scripted [0x1005] 0) plain_config ClearPortFeature 99 1 idle_state
     = (- EPIPE, no_reply, set_log (evs ++ log idle_state) idle_state) /\ Forall is_read evs) /\
  (exists evs,
     ehci_hub_control (scripted [0x1005] 0) plain_config SetPortFeature USB_PORT_FEAT_TEST
       (1 + 256 * 7) idle_state
     = (- EPIPE, no_reply, set_log (evs ++ log idle_state) idle_state) /\ Forall is_read evs).
Proof.
  split; [| split ].
  - apply invalid_request_stalls;
      [ vm_compute; split; [ discriminate | reflexivity ]
      | lia | lia | reflexivity | discriminate ].
  - apply invalid_request_stalls;
      [ vm_compute; split; [ discriminate | reflexivity ]
      | lia | lia | reflexivity | discriminate ].
  - apply invalid_request_stalls;
      [ vm_compute; split; [ discriminate | reflexivity ]
      | vm_compute; split; [ discriminate | reflexivity ]
      | lia | reflexivity | ].
    intros _. split; [ reflexivity | intros _; reflexivity ].
Defined.

(** C6 as stated fails on a port owned by the companion: SetPortFeature
    with the unsupported feature code 99 is accepted with success instead of
    being refused with the stall error. *)
Lemma unsupported_feature_on_owned_port_succeeds :
  fails_validation plain_config SetPortFeature 99 1 = true /\
  ehci_hub_control (scripted [0x3000] 0) plain_config SetPortFeature 99 1 idle_state
  = (0, no_reply, set_log [ev_readl (port_status 0) 0x3000] idle_state) /\
  0 <> - EPIPE.
Proof. repeat split. discriminate. Qed.

(** ** GetPortStatus: what every block preserves *)

Lemma test_bit_set_bit_same (i x : Z) : 0 <= i -> test_bit i (set_bit i x) = true.
Proof.
  intros Hi. unfold test_bit, set_bit.
  rewrite Z.lor_spec, Z.shiftl_1_l, Z.pow2_bits_eqb, Z.eqb_refl by assumption.
  apply orb_true_r.
Qed.

Lemma test_bit_set_bit (i j x : Z) :
  0 <= j -> test_bit i (set_bit j x) = (i =? j) || test_bit i x.
Proof.
  intros Hj. unfold test_bit, set_bit.
  rewrite Z.lor_spec, Z.shiftl_1_l, Z.pow2_bits_eqb, (Z.eqb_sym j i) by assumption.
  apply orb_comm.
Qed.

Lemma test_bit_clear_bit_same (i x : Z) : 0 <= i -> test_bit i (clear_bit i x) = false.
Proof.
  intros Hi. unfold test_bit, clear_bit.
  rewrite Z.land_spec, Z.lnot_spec, Z.shiftl_1_l, Z.pow2_bits_eqb, Z.eqb_refl by assumption.
  apply andb_false_r.
Qed.

Lemma test_bit_clear_bit_false (i j x : Z) :
  test_bit i x = false -> test_bit i (clear_bit j x) = false.
Proof.
  unfold test_bit, clear_bit. intros H. now rewrite Z.land_spec, H.
Qed.

Lemma test_bit_set_bit_true (i j x : Z) :
  test_bit i x = true -> test_bit i (set_bit j x) = true.
Proof.
  unfold test_bit, set_bit. intros H. now rewrite Z.lor_spec, H.
Qed.

Section StepInvariants.
Variable env : environment.
Variable cfg : ehci_config.
Variable R : ehci_hcd -> ehci_hcd -> Prop.
Variable i : Z.
Hypothesis R_refl : forall s, R s s.
Hypothesis R_trans : forall s1 s2 s3, R s1 s2 -> R s2 s3 -> R s1 s3.
Hypothesis R_log : forall e s, R s (set_log (e :: log s) s).
Hypothesis R_reset_done : forall v s, R s (set_reset_done i v s).
Hypothesis R_suspended :
  forall s, R s (set_suspended_ports (clear_bit i (suspended_ports s)) s).
Hypothesis R_resuming :
  forall s, R s (set_resuming_ports (clear_bit i (resuming_ports s)) s).
Hypothesis R_c_suspend :
  forall s, R s (set_port_c_suspend (set_bit i (port_c_suspend s)) s).

Lemma inv_ret {A} (a : A) : step_inv R (ret a).
Proof. intros s o s' E. inversion E. apply R_refl. Qed.

Lemma inv_fail {A} (r : Z) : step_inv R (@fail A r).
Proof. intros s o s' E. inversion E. apply R_refl. Qed.

Lemma inv_gets {A} (f : ehci_hcd -> A) : step_inv R (gets f).
Proof. intros s o s' E. inversion E. apply R_refl. Qed.

Lemma inv_bind {A B} (m : M A) (k : A -> M B) :
  step_inv R m -> (forall a, step_inv R (k a)) -> step_inv R (bind m k).
Proof.
  intros Hm Hk s o s' E. unfold bind in E.
  destruct (m s) as [[a|r] s1] eqn:Em.
  - eapply R_trans; [ eapply Hm; exact Em | eapply Hk; exact E ].
  - inversion E; subst. eapply Hm; exact Em.
Qed.

Lemma inv_when (b : bool) (m : M unit) : step_inv R m -> step_inv R (when b m).
Proof. destruct b; simpl; [ trivial | intros _; apply inv_ret ]. Qed.

Lemma inv_emit (e : event) : step_inv R (emit e).
Proof. intros s o s' E. inversion E. apply R_log. Qed.

Lemma inv_readl (r : reg) : step_inv R (ehci_readl env r).
Proof. intros s o s' E. inversion E. apply R_log. Qed.

Lemma inv_handshake (r : reg) (mask done usec : Z) :
  step_inv R (handshake env r mask done usec).
Proof. intros s o s' E. inversion E. apply R_log. Qed.

Lemma inv_modify (f : ehci_hcd -> ehci_hcd) :
  (forall s, R s (f s)) -> step_inv R (modify f).
Proof. intros Hf s o s' E. inversion E. apply Hf. Qed.

Ltac inv_steps :=
  cbv zeta;
  repeat first
    [ apply inv_ret | apply inv_fail | apply inv_gets | apply inv_emit
    | apply inv_readl | apply inv_handshake
    | apply inv_modify; solve [ auto ]
    | apply inv_when
    | apply inv_bind; [| intros ? ]
    | match goal with
      | |- step_inv _ (if ?b then _ else _) => destruct b
      | |- step_inv _ (match ?o with Some _ => _ | None => _ end) => destruct o
      end ].

Lemma inv_check_reset_complete status_reg port_status :
  step_inv R (check_reset_complete cfg i status_reg port_status).
Proof. unfold check_reset_complete, ehci_writel, call. inv_steps. Qed.


Lemma inv_gps_reset status_reg temp status :
  step_inv R (gps_reset env cfg i status_reg temp status).
Proof.
  unfold gps_reset, ehci_writel, goto_error. inv_steps.
  apply inv_check_reset_complete.
Qed.

Lemma inv_gps_stale temp : step_inv R (gps_stale i temp).
Proof. unfold gps_stale. inv_steps. Qed.

Lemma inv_gps_companion status_reg temp :
  step_inv R (gps_companion env cfg i status_reg temp).
Proof. unfold gps_companion, ehci_writel. inv_steps. Qed.

Lemma inv_gps_compose hreg temp status :
  step_inv R (gps_compose env cfg i hreg temp status).
Proof. unfold gps_compose. inv_steps. Qed.

Lemma inv_gps_finish status_reg temp status :
  step_inv R (gps_finish env cfg i status_reg temp status).
Proof.
  unfold gps_finish.
  apply inv_bind; [ apply inv_gps_reset | intros ? ].
  apply inv_bind; [ apply inv_gps_stale | intros ? ].
  apply inv_bind; [ apply inv_gps_companion | intros ? ].
  apply inv_ret.
Qed.

End StepInvariants.

Lemma extends_refl (s : ehci_hcd) : extends s s.
Proof. now exists []. Qed.

Lemma extends_trans (s1 s2 s3 : ehci_hcd) : extends s1 s2 -> extends s2 s3 -> extends s1 s3.
Proof.
  intros (e1 & H1) (e2 & H2). exists (e2 ++ e1). now rewrite H2, H1, app_assoc.
Qed.

Lemma extends_log (e : event) (s : ehci_hcd) : extends s (set_log (e :: log s) s).
Proof. now exists [e]. Qed.

(** Every block of GetPortStatus only adds to the log. *)
Ltac by_extends lem :=
  apply lem;
  first [ exact extends_refl | exact extends_trans | exact extends_log
        | intros; exists []; reflexivity ].

Lemma gps_compose_extends env cfg idx hreg temp status :
  step_inv extends (gps_compose env cfg idx hreg temp status).
Proof. by_extends inv_gps_compose. Qed.

Lemma gps_finish_extends env cfg idx status_reg temp status :
  step_inv extends (gps_finish env cfg idx status_reg temp status).
Proof. by_extends inv_gps_finish. Qed.


Lemma bind_done_inv {A B} (m : M A) (k : A -> M B) s b s' :
  bind m k s = (Done b, s') ->
  exists a s1, m s = (Done a, s1) /\ k a s1 = (Done b, s').
Proof.
  unfold bind. destruct (m s) as [[a|r] s1]; [| discriminate ].
  intros E. now exists a, s1.
Qed.


Lemma gps_compose_status env cfg idx hreg temp status s w s' :
  gps_compose env cfg idx hreg temp status s = (Done w, s') ->
  forall m, has_bits status m -> has_bits w m.
Proof.
  unfold gps_compose. intros E m Hm.
  apply bind_done_inv in E. destruct E as (st1 & s1 & EA & E).
  assert (H1 : has_bits st1 m).
  { destruct (tst temp PORT_CONNECT); [ destruct hreg |];
      unfold bind, ehci_readl, ret in EA; inversion EA; subst;
      repeat apply has_bits_lor_l; exact Hm. }
  clear EA. cbv zeta in E.
  apply bind_done_inv in E. destruct E as (st3 & s3 & EB & E).
  assert (H3 : has_bits st3 m).
  { destruct (tst temp (Z.lor PORT_SUSPEND PORT_RESUME)).
    - inversion EB; subst. destruct (tst temp PORT_PE); repeat apply has_bits_lor_l; exact H1.
    - apply bind_done_inv in EB. destruct EB as (s2 & ? & _ & EB).
      destruct (test_bit idx (suspended_ports s2)).
      + do 4 (apply bind_done_inv in EB; destruct EB as (? & ? & _ & EB)).
        inversion EB; subst.
        destruct (tst temp PORT_PE); repeat apply has_bits_lor_l; exact H1.
      + inversion EB; subst.
        destruct (tst temp PORT_PE); repeat apply has_bits_lor_l; exact H1. }
  clear EB.
  apply bind_done_inv in E. destruct E as (s4 & ? & _ & E).
  inversion E; subst.
  destruct (test_bit idx (port_c_suspend s4)), (tst temp PORT_OC), (tst temp PORT_RESET),
    (tst temp PORT_POWER); repeat apply has_bits_lor_l; exact H3.
Qed.


(** GetPortStatus, once the change bits are taken: what is left to run. *)
Lemma get_port_status_after_change_bits env cfg idx status_reg hreg s ts sA :
  gps_change_bits env cfg status_reg s = (Done ts, sA) ->
  get_port_status env cfg idx status_reg hreg s =
  bind (gps_settle env cfg idx status_reg ts)
    (fun ts' => gps_compose env cfg idx hreg (fst ts') (snd ts')) sA.
Proof.
  intros E. unfold get_port_status, gps_resolve.
  unfold bind at 1. unfold bind at 1. rewrite E. reflexivity.
Qed.


(** ** GetPortStatus and over-current *)




(** ** GetPortStatus and the suspend bit *)

Lemma gps_change_bits_low16 env cfg status_reg s ts sA :
  gps_change_bits env cfg status_reg s = (Done ts, sA) -> Z.land (snd ts) 0xffff = 0.
Proof.
  unfold gps_change_bits. unfold bind at 1. unfold ehci_readl at 1. cbv zeta.
  destruct (tst _ PORT_CSC), (tst _ PORT_PEC), (tst _ PORT_OCC && negb (ignore_oc cfg));
    try destruct (tst _ PORT_OC && HCS_PPC (hcs_params cfg));
    intros E; inversion E; reflexivity.
Qed.

Lemma gps_settle_low16 env cfg idx status_reg ts s t st s' :
  gps_settle env cfg idx status_reg ts s = (Done (t, st), s') ->
  Z.land (snd ts) 0xffff = 0 -> Z.land st 0xffff = 0.
Proof.
  unfold gps_settle, gps_finish. intros E H0.
  apply bind_done_inv in E. destruct E as (t1 & s1 & _ & E).
  apply bind_done_inv in E. destruct E as ([t2 st2] & s2 & Er & E).
  do 2 (apply bind_done_inv in E; destruct E as (? & ? & _ & E)).
  inversion E; subst. simpl. clear E.
  unfold gps_reset in Er.
  apply bind_done_inv in Er. destruct Er as (s0 & ? & _ & Er).
  destruct (tst t1 PORT_RESET && time_after_eq (jiffies s0) (reset_done s0 idx)).
  - do 4 (apply bind_done_inv in Er; destruct Er as (? & ? & _ & Er)).
    match type of Er with (if ?b then _ else _) _ = _ => destruct b end;
      [ discriminate |].
    do 2 (apply bind_done_inv in Er; destruct Er as (? & ? & _ & Er)).
    inversion Er; subst. rewrite Z.land_lor_distr_l, H0. reflexivity.
  - inversion Er; subst. exact H0.
Qed.

(** The suspend bit of the status word is set by one line only. *)
Lemma gps_compose_suspend_bit env cfg idx hreg temp status s w s' :
  (forall v, tst (u32 (ehci_port_speed env cfg v)) USB_PORT_STAT_SUSPEND = false) ->
  tst status USB_PORT_STAT_SUSPEND = false ->
  gps_compose env cfg idx hreg temp status s = (Done w, s') ->
  tst w USB_PORT_STAT_SUSPEND = tst temp (Z.lor PORT_SUSPEND PORT_RESUME).
Proof.
  intros Hspeed Hst. unfold gps_compose. intros E.
  apply bind_done_inv in E. destruct E as (st1 & s1 & EA & E).
  assert (H1 : tst st1 USB_PORT_STAT_SUSPEND = false).
  { destruct (tst temp PORT_CONNECT); [ destruct hreg |];
      unfold bind, ehci_readl, ret in EA; inversion EA; subst;
      rewrite ?tst_lor_l, ?Hspeed, Hst; reflexivity. }
  clear EA. cbv zeta in E.
  apply bind_done_inv in E. destruct E as (st3 & s3 & EB & E).
  assert (H3 : tst st3 USB_PORT_STAT_SUSPEND = tst temp (Z.lor PORT_SUSPEND PORT_RESUME)).
  { assert (H2 : tst (if tst temp PORT_PE then Z.lor st1 USB_PORT_STAT_ENABLE else st1)
                   USB_PORT_STAT_SUSPEND = false)
      by (destruct (tst temp PORT_PE); rewrite ?tst_lor_l, H1; reflexivity).
    destruct (tst temp (Z.lor PORT_SUSPEND PORT_RESUME)).
    - inversion EB; subst. rewrite tst_lor_l, H2. reflexivity.
    - apply bind_done_inv in EB. destruct EB as (s2 & ? & _ & EB).
      destruct (test_bit idx (suspended_ports s2)).
      + do 4 (apply bind_done_inv in EB; destruct EB as (? & ? & _ & EB)).
        inversion EB; subst. exact H2.
      + inversion EB; subst. exact H2. }
  clear EB.
  apply bind_done_inv in E. destruct E as (s4 & ? & _ & E).
  inversion E; subst. rewrite <- H3.
  destruct (test_bit idx (port_c_suspend s4)), (tst temp PORT_OC), (tst temp PORT_RESET),
    (tst temp PORT_POWER); rewrite ?tst_lor_l, ?orb_false_r; reflexivity.
Qed.

(** The port was unsuspended without the driver's knowledge. *)
Lemma gps_compose_leftover env cfg idx hreg temp status s :
  0 <= idx ->
  tst temp (Z.lor PORT_SUSPEND PORT_RESUME) = false ->
  test_bit idx (suspended_ports s) = true ->
  exists w s',
    gps_compose env cfg idx hreg temp status s = (Done w, s') /\
    test_bit idx (suspended_ports s') = false /\
    test_bit idx (resuming_ports s') = false /\
    reset_done s' idx = 0 /\
    (tst temp PORT_PE = true ->
     test_bit idx (port_c_suspend s') = true /\
     has_bits w (Z.shiftl USB_PORT_STAT_C_SUSPEND 16)).
Proof.
  intros Hi Hsr Hsusp. unfold gps_compose. rewrite Hsr.
  assert (Hclr : forall x, test_bit idx (clear_bit idx x) = false)
    by (intros; now apply test_bit_clear_bit_same).
  assert (Hset : forall x, test_bit idx (set_bit idx x) = true)
    by (intros; now apply test_bit_set_bit_same).
  destruct (tst temp PORT_CONNECT); [ destruct hreg |];
    unfold bind, ehci_readl, ret, gets, modify, when; cbn [suspended_ports set_log];
    rewrite Hsusp; destruct (tst temp PORT_PE);
    cbn [port_c_suspend set_port_c_suspend set_reset_done set_resuming_ports
         set_suspended_ports];
    rewrite ?Hset;
    do 2 eexists; (split; [ reflexivity |]);
    simpl; rewrite ?Hclr, ?Hset, ?Z.eqb_refl;
    repeat split; try discriminate; try apply has_bits_lor_r.
Qed.

Lemma gps_compose_done env cfg idx hreg temp status s :
  exists w s', gps_compose env cfg idx hreg temp status s = (Done w, s').
Proof.
  unfold gps_compose.
  assert (T : total (gps_compose env cfg idx hreg temp status))
    by (unfold gps_compose; totality).
  exact (T s).
Qed.

(** C7 (amended): the status word of GetPortStatus has the suspend bit set
    exactly when the register value it is composed from (the port register as
    the earlier blocks of the request left it) shows the suspend or the resume
    bit.  When that value shows neither and the tracker still records the port
    as suspended, the suspend bit is not reported: the tracker's suspended
    and resuming flags and the port's deadline are cleared and, for an enabled
    port, the suspend-change flag is set and reported in the status word. *)
Theorem suspend_bit_follows_register env cfg port s temp status s1 :
  1 <= port <= HCS_N_PORTS (hcs_params cfg) ->
  (forall v, tst (u32 (ehci_port_speed env cfg v)) USB_PORT_STAT_SUSPEND = false) ->
  gps_resolve env cfg (port - 1) (port_status (port - 1)) s = (Done (temp, status), s1) ->
  exists word s',
    ehci_hub_control env cfg GetPortStatus 0 port s = (0, reply_port_status word, s') /\
    tst word USB_PORT_STAT_SUSPEND = tst temp (Z.lor PORT_SUSPEND PORT_RESUME) /\
    (tst temp (Z.lor PORT_SUSPEND PORT_RESUME) = false ->
     test_bit (port - 1) (suspended_ports s1) = true ->
     test_bit (port - 1) (suspended_ports s') = false /\
     test_bit (port - 1) (resuming_ports s') = false /\
     reset_done s' (port - 1) = 0 /\
     (tst temp PORT_PE = true ->
      test_bit (port - 1) (port_c_suspend s') = true /\
      has_bits word (Z.shiftl USB_PORT_STAT_C_SUSPEND 16))).
Proof.
  intros Hr Hspeed Eres.
  assert (Hlow : tst status USB_PORT_STAT_SUSPEND = false).
  { unfold gps_resolve in Eres.
    apply bind_done_inv in Eres. destruct Eres as (ts & sA & Ecb & Es).
    pose proof (gps_settle_low16 _ _ _ _ _ _ _ _ _ Es (gps_change_bits_low16 _ _ _ _ _ _ Ecb))
      as H0.
    apply tst_false_iff.
    assert (H4 : Z.land USB_PORT_STAT_SUSPEND 0xffff = USB_PORT_STAT_SUSPEND) by reflexivity.
    rewrite <- H4, (Z.land_comm USB_PORT_STAT_SUSPEND), Z.land_assoc, H0. reflexivity. }
  rewrite (hub_control_get_port_status env cfg port Hr).
  unfold get_port_status. unfold bind at 1. rewrite Eres. cbn [fst snd].
  destruct (gps_compose_done env cfg (port - 1) (hostpc_reg_of cfg port) temp status s1)
    as (w & s' & Ec).
  rewrite Ec. exists w, s'. split; [ reflexivity |]. split.
  - eapply gps_compose_suspend_bit; eassumption.
  - intros Hsr Hsusp.
    destruct (gps_compose_leftover env cfg (port - 1) (hostpc_reg_of cfg port) temp status s1
                ltac:(lia) Hsr Hsusp) as (w' & s'' & Ec' & H).
    rewrite Ec in Ec'. inversion Ec'; subst. exact H.
Qed.

(** The amended C7 on port 1 of a plain controller: the tracker records the
    port as suspended, the register reads connected, enabled and powered. *)
Lemma suspend_bit_follows_register_witness :
  exists word s',
    ehci_hub_control (scripted [0x1005] 0) plain_config GetPortStatus 0 1
      (set_suspended_ports 1 idle_state) = (0, reply_port_status word, s') /\
    tst word USB_PORT_STAT_SUSPEND = false /\
    test_bit 0 (suspended_ports s') = false /\
    test_bit 0 (port_c_suspend s') = true /\
    has_bits word (Z.shiftl USB_PORT_STAT_C_SUSPEND 16).
Proof.
  destruct (suspend_bit_follows_register (scripted [0x1005] 0) plain_config 1
              (set_suspended_ports 1 idle_state) 0x1005 0
              (snd (gps_resolve (scripted [0x1005] 0) plain_config 0 (port_status 0)
                      (set_suspended_ports 1 idle_state)))
              ltac:(vm_compute; split; discriminate)
              ltac:(intros v; unfold scripted, ehci_port_speed, port_speed_of; simpl;
                    destruct (Z.land (Z.shiftr v 26) 3 =? 0);
                    [| destruct (Z.land (Z.shiftr v 26) 3 =? 1) ]; reflexivity)
              eq_refl)
    as (word & s' & E & Hbit & Hleft).
  exists word, s'. split; [ exact E |].
  destruct (Hleft eq_refl eq_refl) as (H1 & _ & _ & H4).
  destruct (H4 eq_refl) as (H5 & H6).
  repeat split; assumption.
Defined.

(** C7 as stated fails in the leftover case: the tracker records port 1 as
    suspended and the register shows neither the suspend nor the resume bit;
    the status word returned does not have the suspend bit. *)
Lemma leftover_suspend_is_not_reported :
  test_bit 0 (suspended_ports (set_suspended_ports 1 idle_state)) = true /\
  tst 0x1005 (Z.lor PORT_SUSPEND PORT_RESUME) = false /\
  fst (ehci_hub_control (scripted [0x1005] 0) plain_config GetPortStatus 0 1
         (set_suspended_ports 1 idle_state)) = (0, reply_port_status 0x40503) /\
  tst 0x40503 USB_PORT_STAT_SUSPEND = false.
Proof. repeat split. Qed.

(** ** GetPortStatus and the resume bit *)

Lemma slong_congr (a b : Z) : a mod 2 ^ 32 = b mod 2 ^ 32 -> slong a = slong b.
Proof. unfold slong. now intros ->. Qed.

Lemma slong_mod_eq (z : Z) : slong z mod 2 ^ 32 = z mod 2 ^ 32.
Proof.
  unfold slong. destruct (z mod 2 ^ 32 <? 2 ^ 31).
  - apply Z.mod_mod. lia.
  - rewrite Zminus_mod, Z.mod_same, Z.sub_0_r, !Z.mod_mod by lia. reflexivity.
Qed.

(** A deadline up to 2^31 ticks ahead has not elapsed. *)
Lemma deadline_not_elapsed (j d : Z) :
  0 < d < 2 ^ 31 -> time_after_eq j (ulong (j + d)) = false.
Proof.
  intros Hd. unfold time_after_eq, ulong.
  assert (E : slong (slong j - slong ((j + d) mod 2 ^ 32)) = - d).
  { rewrite (slong_congr _ (- d)).
    - unfold slong.
      assert (Hm : (- d) mod 2 ^ 32 = 2 ^ 32 - d).
      { replace (- d) with (2 ^ 32 - d + (-1) * 2 ^ 32) by lia.
        rewrite Z.mod_add by lia. apply Z.mod_small. lia. }
      rewrite Hm. destruct (Z.ltb_spec (2 ^ 32 - d) (2 ^ 31)); lia.
    - rewrite Zminus_mod, !slong_mod_eq, Z.mod_mod, <- Zminus_mod by lia.
      f_equal. lia. }
  rewrite E. apply Z.leb_gt. lia.
Qed.

Lemma gps_change_bits_state env cfg status_reg s ts sA :
  gps_change_bits env cfg status_reg s = (Done ts, sA) ->
  exists evs, sA = set_log (evs ++ log s) s.
Proof.
  unfold gps_change_bits. unfold bind at 1. unfold ehci_readl at 1. cbv zeta.
  destruct (tst _ PORT_OCC && negb (ignore_oc cfg));
    [ destruct (tst _ PORT_OC && HCS_PPC (hcs_params cfg)) |];
    intros E; inversion E;
    [ eexists [_; _; _] | eexists [_] | eexists [_] ]; reflexivity.
Qed.

Lemma gps_settle_split env cfg idx status_reg ts :
  gps_settle env cfg idx status_reg ts =
  bind (gps_resume env idx status_reg (fst ts))
    (fun temp => gps_finish env cfg idx status_reg temp (snd ts)).
Proof. reflexivity. Qed.

Lemma keeps_resume_completed_refl i s : keeps_resume_completed i s s.
Proof. unfold keeps_resume_completed. tauto. Qed.

Lemma keeps_resume_completed_trans i s1 s2 s3 :
  keeps_resume_completed i s1 s2 -> keeps_resume_completed i s2 s3 ->
  keeps_resume_completed i s1 s3.
Proof. unfold keeps_resume_completed. tauto. Qed.

Ltac by_keeps lem :=
  apply lem;
  first [ exact (keeps_resume_completed_refl _)
        | exact (keeps_resume_completed_trans _)
        | intros; unfold keeps_resume_completed, resume_completed; simpl;
          intros (H1 & H2 & H3);
          auto using test_bit_clear_bit_false, test_bit_set_bit_true ].

Lemma gps_finish_keeps env cfg idx status_reg temp status :
  step_inv (keeps_resume_completed idx) (gps_finish env cfg idx status_reg temp status).
Proof. by_keeps inv_gps_finish. Qed.

Lemma gps_compose_keeps env cfg idx hreg temp status :
  step_inv (keeps_resume_completed idx) (gps_compose env cfg idx hreg temp status).
Proof. by_keeps inv_gps_compose. Qed.

Lemma gps_resume_start env idx status_reg temp s :
  tst temp PORT_RESUME = true -> reset_done s idx = 0 ->
  gps_resume env idx status_reg temp s =
  (Done temp,
   set_log (ev_call (x_mod_timer rh_timer (deadline env s 20)) :: log s)
     (set_reset_done idx (deadline env s 20) s)).
Proof.
  intros Hres H0. unfold gps_resume. rewrite Hres.
  unfold bind at 1. unfold gets at 1. rewrite H0. simpl Z.eqb. cbv iota.
  unfold bind, modify, gets, call, emit, ret. simpl. rewrite Z.eqb_refl. reflexivity.
Qed.

Lemma gps_resume_complete env idx status_reg temp s :
  tst temp PORT_RESUME = true -> reset_done s idx <> 0 ->
  time_after_eq (jiffies s) (reset_done s idx) = true ->
  let t2 := u32 (hw_read env (log s) status_reg) in
  let w := Z.land t2 (Z.lnot (Z.lor PORT_RWC_BITS PORT_RESUME)) in
  let l2 := ev_writel w status_reg :: ev_readl status_reg t2 :: log s in
  let rc := hw_handshake env l2 status_reg PORT_RESUME 0 2000 in
  let sC := set_log (ev_handshake status_reg PORT_RESUME 0 2000 rc :: l2)
              (set_resuming_ports (clear_bit idx (resuming_ports s))
                 (set_reset_done idx 0
                    (set_port_c_suspend (set_bit idx (port_c_suspend s))
                       (set_suspended_ports (clear_bit idx (suspended_ports s)) s)))) in
  gps_resume env idx status_reg temp s =
  ((if rc =? 0
    then Done (Z.land t2 (Z.lnot (Z.lor (Z.lor PORT_SUSPEND PORT_RESUME) (Z.shiftl 3 10))))
    else Fail (- EPIPE)), sC).
Proof.
  intros Hres Hne Helapsed. cbv zeta. unfold gps_resume. rewrite Hres.
  unfold bind at 1. unfold gets at 1. apply Z.eqb_neq in Hne. rewrite Hne, Helapsed.
  unfold bind, modify, gets, ehci_readl, ehci_writel, emit, handshake, ret, goto_error, fail.
  simpl.
  destruct (hw_handshake env _ status_reg PORT_RESUME 0 2000 =? 0); reflexivity.
Qed.

(** When the resume bit shows, the register value is not touched by the
    blocks between the resume check and the composition of the status word,
    unless the reset has to be completed or the port is handed over. *)
Lemma gps_finish_idle env cfg idx status_reg temp status s :
  tst temp PORT_RESUME = true ->
  tst temp PORT_RESET && time_after_eq (jiffies s) (reset_done s idx) = false ->
  tst temp PORT_CONNECT && test_bit idx (companion_ports cfg) = false ->
  gps_finish env cfg idx status_reg temp status s = (Done (temp, status), s).
Proof.
  intros Hres Hreset Hcomp. unfold gps_finish, gps_reset.
  unfold bind at 1. unfold bind at 1. unfold gets at 1. rewrite Hreset.
  unfold ret at 1. cbn [fst snd].
  unfold gps_stale. rewrite tst_lor, Hres. simpl negb. unfold when.
  unfold bind at 1. unfold ret at 1.
  unfold gps_companion. rewrite Hcomp. reflexivity.
Qed.

(** With the suspend or resume bit in the register value, the status word
    has the suspend bit and the tracker is left alone. *)
Lemma gps_compose_suspended env cfg idx hreg temp status s :
  tst temp (Z.lor PORT_SUSPEND PORT_RESUME) = true ->
  exists w evs,
    gps_compose env cfg idx hreg temp status s = (Done w, set_log (evs ++ log s) s) /\
    tst w USB_PORT_STAT_SUSPEND = true.
Proof.
  intros Hsr. unfold gps_compose. rewrite Hsr.
  assert (Hb : forall x, has_bits x USB_PORT_STAT_SUSPEND -> tst x USB_PORT_STAT_SUSPEND = true).
  { intros x Hx. unfold tst. rewrite Hx. reflexivity. }
  destruct (tst temp PORT_CONNECT); [ destruct hreg |];
    unfold bind, ehci_readl, ret, gets;
    [ eexists; eexists [_] | eexists; exists [] | eexists; exists [] ];
    (split; [ destruct s; reflexivity |]);
    apply Hb; simpl log;
    repeat first
      [ apply has_bits_lor_r
      | match goal with
        | |- has_bits (if ?b then _ else _) _ => destruct b
        end
      | apply has_bits_lor_l ].
Qed.

(** C2 (amended): on an in-range port, when GetPortStatus finds the resume
    bit in the register value left by the change-bit block:
    - with no deadline recorded for the port, it schedules a re-check at the
      current time plus 20 ms; and, when the port is not then handed over to
      the companion (connected and statically routed), it returns a status
      word with the suspend bit set and leaves that deadline recorded;
    - with a recorded deadline that has elapsed, it reads the register again,
      writes it back with the resume bit (and the change latches) clear, runs
      the handshake on the resume bit with a timeout of 2000 microseconds,
      and whatever follows, the port's suspended and resuming flags end up
      clear and its suspend-change flag set; a handshake that fails makes
      GetPortStatus return the stall error.
    For the first case 20 ms are taken to be between 1 and 2^31 - 1 ticks of
    the clock. *)
Theorem resume_bit_in_get_port_status env cfg port s ts sA :
  1 <= port <= HCS_N_PORTS (hcs_params cfg) ->
  let idx := port - 1 in
  let status_reg := port_status idx in
  let r := ehci_hub_control env cfg GetPortStatus 0 port s in
  gps_change_bits env cfg status_reg s = (Done ts, sA) ->
  tst (fst ts) PORT_RESUME = true ->
  (reset_done s idx = 0 ->
   In (ev_call (x_mod_timer rh_timer (deadline env s 20))) (log (snd r)) /\
   (0 < msecs_to_jiffies env 20 < 2 ^ 31 ->
    tst (fst ts) PORT_CONNECT && test_bit idx (companion_ports cfg) = false ->
    exists word,
      fst r = (0, reply_port_status word) /\
      tst word USB_PORT_STAT_SUSPEND = true /\
      reset_done (snd r) idx = deadline env s 20)) /\
  (reset_done s idx <> 0 -> time_after_eq (jiffies s) (reset_done s idx) = true ->
   let t2 := u32 (hw_read env (log sA) status_reg) in
   let w := Z.land t2 (Z.lnot (Z.lor PORT_RWC_BITS PORT_RESUME)) in
   let l2 := ev_writel w status_reg :: ev_readl status_reg t2 :: log sA in
   let rc := hw_handshake env l2 status_reg PORT_RESUME 0 2000 in
   tst w PORT_RESUME = false /\
   (exists evs,
      log (snd r) = evs ++ ev_handshake status_reg PORT_RESUME 0 2000 rc :: l2) /\
   resume_completed idx (snd r) /\
   (rc <> 0 -> fst r = (- EPIPE, no_reply))).
Proof.
  intros Hr idx status_reg r Ecb Hres.
  destruct (gps_change_bits_state _ _ _ _ _ _ Ecb) as (evs0 & HsA).
  assert (Hrd : reset_done sA = reset_done s) by (subst sA; reflexivity).
  assert (Hj : jiffies sA = jiffies s) by (subst sA; reflexivity).
  assert (Hd : forall n, deadline env sA n = deadline env s n)
    by (intros n; unfold deadline; now rewrite Hj).
  assert (Er : r = match bind (gps_settle env cfg idx status_reg ts)
                           (fun ts' => gps_compose env cfg idx (hostpc_reg_of cfg port)
                                         (fst ts') (snd ts')) sA with
                   | (Done status, s') => (0, reply_port_status status, s')
                   | (Fail rv, s') => (rv, no_reply, s')
                   end).
  { subst r. rewrite (hub_control_get_port_status env cfg port Hr).
    fold idx. fold status_reg.
    now rewrite (get_port_status_after_change_bits _ _ _ _ _ _ _ _ Ecb). }
  clearbody r. rewrite gps_settle_split in Er.
  split.
  - intros H0. rewrite <- Hrd in H0.
    unfold bind at 1 in Er. unfold bind at 1 in Er.
    rewrite (gps_resume_start env idx status_reg (fst ts) sA Hres H0), Hd in Er.
    cbv beta iota in Er.
    set (sB := set_log _ (set_reset_done idx (deadline env s 20) sA)) in Er.
    split.
    + destruct (gps_finish env cfg idx status_reg (fst ts) (snd ts) sB)
        as [[ts'|rv] s1] eqn:Ef.
      * pose proof (gps_finish_extends _ _ _ _ _ _ _ _ _ Ef) as (e1 & H1).
        destruct (gps_compose env cfg idx (hostpc_reg_of cfg port) (fst ts') (snd ts') s1)
          as [[w|rv] s2] eqn:Ec;
          pose proof (gps_compose_extends _ _ _ _ _ _ _ _ _ Ec) as (e2 & H2);
          subst r; simpl; rewrite H2, H1; apply in_or_app; right; apply in_or_app; right;
          left; reflexivity.
      * pose proof (gps_finish_extends _ _ _ _ _ _ _ _ _ Ef) as (e1 & H1).
        subst r. simpl. rewrite H1. apply in_or_app. right. left. reflexivity.
    + intros Hms Hcomp.
      rewrite gps_finish_idle in Er; [| exact Hres | | exact Hcomp ].
      * cbn [fst snd] in Er.
        destruct (gps_compose_suspended env cfg idx (hostpc_reg_of cfg port) (fst ts)
                    (snd ts) sB) as (w & evs & Ec & Hw).
        { rewrite tst_lor, Hres. apply orb_true_r. }
        rewrite Ec in Er. subst r. exists w. split; [ reflexivity |]. split; [ exact Hw |].
        simpl. now rewrite Z.eqb_refl.
      * subst sB. simpl. rewrite Z.eqb_refl, Hj.
        unfold deadline. rewrite deadline_not_elapsed by assumption. apply andb_false_r.
  - intros Hne Helapsed t2 w l2 rc. rewrite <- Hrd in Hne. rewrite <- Hrd, <- Hj in Helapsed.
    split.
    { subst w. rewrite tst_land_l.
      change (Z.land (Z.lnot (Z.lor PORT_RWC_BITS PORT_RESUME)) PORT_RESUME) with 0.
      unfold tst. now rewrite Z.land_0_r. }
    unfold bind at 1 in Er. unfold bind at 1 in Er.
    rewrite (gps_resume_complete env idx status_reg (fst ts) sA Hres Hne Helapsed) in Er.
    fold t2 in Er. fold w in Er. fold l2 in Er. fold rc in Er.
    set (sC := set_log _ _) in Er.
    assert (HC : resume_completed idx sC).
    { unfold resume_completed. subst sC. simpl.
      rewrite !test_bit_clear_bit_same, test_bit_set_bit_same by (unfold idx; lia). tauto. }
    destruct (rc =? 0) eqn:Hrc; cbv beta iota in Er.
    all: cycle 1.
    { subst r. simpl. split; [ exists []; reflexivity |]. split; [ exact HC | reflexivity ]. }
    apply Z.eqb_eq in Hrc.
    destruct (gps_finish env cfg idx status_reg _ (snd ts) sC) as [[ts'|rv] s1] eqn:Ef.
    + pose proof (gps_finish_extends _ _ _ _ _ _ _ _ _ Ef) as (e1 & H1).
      pose proof (gps_finish_keeps _ _ _ _ _ _ _ _ _ Ef HC) as K1.
      destruct (gps_compose env cfg idx (hostpc_reg_of cfg port) (fst ts') (snd ts') s1)
        as [[w'|rv] s2] eqn:Ec;
        pose proof (gps_compose_extends _ _ _ _ _ _ _ _ _ Ec) as (e2 & H2);
        pose proof (gps_compose_keeps _ _ _ _ _ _ _ _ _ Ec K1) as K2;
        subst r; simpl;
        (split; [ exists (e2 ++ e1); rewrite H2, H1, <- app_assoc; reflexivity |]);
        (split; [ exact K2 |]); intros Hn; contradiction.
    + pose proof (gps_finish_extends _ _ _ _ _ _ _ _ _ Ef) as (e1 & H1).
      pose proof (gps_finish_keeps _ _ _ _ _ _ _ _ _ Ef HC) as K1.
      subst r. simpl. split; [ exists e1; exact H1 |]. split; [ exact K1 |].
      intros Hn. contradiction.
Qed.

(** The amended C2 on port 1 of a plain controller, at time 1000 with a
    100 Hz clock: a resume that starts (no deadline recorded), and a resume
    whose deadline of 900 has elapsed and whose handshake times out. *)
Lemma resume_bit_in_get_port_status_witness :
  (exists word,
     fst (ehci_hub_control (scripted [0x1045] 0) plain_config GetPortStatus 0 1 idle_state)
     = (0, reply_port_status word) /\
     tst word USB_PORT_STAT_SUSPEND = true /\
     reset_done
       (snd (ehci_hub_control (scripted [0x1045] 0) plain_config GetPortStatus 0 1
               idle_state)) 0 = 1002) /\
  resume_completed 0
    (snd (ehci_hub_control (scripted [0x1045; 0x1045] (-110)) plain_config GetPortStatus 0 1
            (set_reset_done 0 900 idle_state))) /\
  fst (ehci_hub_control (scripted [0x1045; 0x1045] (-110)) plain_config GetPortStatus 0 1
         (set_reset_done 0 900 idle_state)) = (- EPIPE, no_reply).
Proof.
  assert (Hr : 1 <= 1 <= HCS_N_PORTS (hcs_params plain_config))
    by (vm_compute; split; discriminate).
  split.
  - apply (proj1 (resume_bit_in_get_port_status (scripted [0x1045] 0) plain_config 1
                    idle_state (0x1045, 0)
                    (snd (gps_change_bits (scripted [0x1045] 0) plain_config (port_status 0)
                            idle_state))
                    Hr eq_refl eq_refl) eq_refl).
    + vm_compute. split; reflexivity.
    + reflexivity.
  - pose proof (proj2 (resume_bit_in_get_port_status (scripted [0x1045; 0x1045] (-110))
                         plain_config 1 (set_reset_done 0 900 idle_state) (0x1045, 0)
                         (snd (gps_change_bits (scripted [0x1045; 0x1045] (-110))
                                 plain_config (port_status 0)
                                 (set_reset_done 0 900 idle_state)))
                         Hr eq_refl eq_refl)
                  ltac:(simpl; discriminate) eq_refl) as (_ & _ & Hc & Hf).
    split; [ exact Hc | apply Hf; simpl; discriminate ].
Defined.

(** C2 as stated fails on a port statically routed to the companion: the
    resume bit is read with no deadline recorded, the port is connected and
    is handed over, and the status word composed from the register read
    after the handover does not have the suspend bit. *)
Lemma resuming_companion_port_not_reported_suspended :
  tst 0x1045 PORT_RESUME = true /\
  reset_done idle_state 0 = 0 /\
  ehci_hub_control (scripted [0x1045; 0x3000] 0) (quirkless 0x12 1 false true false false)
    GetPortStatus 0 1 idle_state
  = (0, reply_port_status 0x100,
     set_log [ev_readl (port_status 0) 0x3000; ev_writel 0x3045 (port_status 0);
              ev_call (x_mod_timer rh_timer 1002); ev_readl (port_status 0) 0x1045]
       (set_reset_done 0 1002 idle_state)) /\
  tst 0x100 USB_PORT_STAT_SUSPEND = false.
Proof. repeat split. Qed.

(** ** [ehci_hub_status_data] *)

Lemma testbit_u8_lor (b m k : Z) :
  0 <= m -> 0 <= k < 8 ->
  Z.testbit (u8 (Z.lor b (Z.shiftl 1 m))) k = Z.testbit b k || (k =? m).
Proof.
  intros Hm Hk. unfold u8. rewrite Z.mod_pow2_bits_low by lia.
  rewrite Z.lor_spec, Z.shiftl_1_l, Z.pow2_bits_eqb by assumption.
  now rewrite (Z.eqb_sym m k).
Qed.

Lemma marks_step (i : Z) (c : Prop) (hit : bool) (acc : status_acc) :
  0 <= i <= 14 -> (hit = true <-> c) ->
  marks i (i + 1) (fun _ => c) acc (if hit then mark_port i acc else acc).
Proof.
  intros Hi Hc. destruct acc as [[b0 b1] st]. destruct hit.
  - assert (Hyes : c) by (apply Hc; reflexivity).
    assert (Hst : STS_PCD <> 0 <-> st <> 0 \/ (exists j, i <= j < i + 1 /\ c)).
    { split; [ intros _; right; exists i; split; [ lia | exact Hyes ] | discriminate ]. }
    unfold mark_port, marks. destruct (Z.ltb_spec i 7) as [Hlt|Hge].
    + split; [| split; [| split; [ reflexivity | exact Hst ] ] ].
      * intros k Hk. rewrite testbit_u8_lor, orb_true_iff, Z.eqb_eq by lia. split.
        -- intros [Hb|Hb]; [ left; exact Hb | right; exists i ].
           repeat split; try lia. exact Hyes.
        -- intros [Hb|(j & Hj & _ & Hkj & _)]; [ left; exact Hb | right; lia ].
      * intros k Hk. split; [ intros Hb; left; exact Hb |].
        intros [Hb|(j & Hj & Hj7 & _)]; [ exact Hb | lia ].
    + split; [| split; [| split; [ lia | exact Hst ] ] ].
      * intros k Hk. split; [ intros Hb; left; exact Hb |].
        intros [Hb|(j & Hj & Hj7 & _)]; [ exact Hb | lia ].
      * intros k Hk. rewrite testbit_u8_lor, orb_true_iff, Z.eqb_eq by lia. split.
        -- intros [Hb|Hb]; [ left; exact Hb | right; exists i ].
           repeat split; try lia. exact Hyes.
        -- intros [Hb|(j & Hj & _ & Hkj & _)]; [ left; exact Hb | right; lia ].
  - assert (Hno : ~ c) by (intros Hb; apply Hc in Hb; discriminate).
    unfold marks. split; [| split; [| split; [ reflexivity |] ] ].
    + intros k Hk. split; [ intros Hb; left; exact Hb |].
      intros [Hb|(j & _ & _ & _ & Hb)]; [ exact Hb | contradiction ].
    + intros k Hk. split; [ intros Hb; left; exact Hb |].
      intros [Hb|(j & _ & _ & _ & Hb)]; [ exact Hb | contradiction ].
    + split; [ intros Hb; left; exact Hb |].
      intros [Hb|(j & _ & Hb)]; [ exact Hb | contradiction ].
Qed.

Lemma marks_trans (lo mid hi : Z) (chg : Z -> Prop) (a b c : status_acc) :
  lo <= mid <= hi ->
  marks lo mid chg a b -> marks mid hi chg b c -> marks lo hi chg a c.
Proof.
  intros Hm. destruct a as [[a0 a1] ast], b as [[b0 b1] bst], c as [[c0 c1] cst].
  unfold marks. intros (A0 & A1 & A2 & A3) (B0 & B1 & B2 & B3).
  split; [| split; [| split ] ].
  - intros k Hk. rewrite (B0 k Hk), (A0 k Hk). split.
    + intros [[H|(j & Hj & H)]|(j & Hj & H)]; [ now left | right; exists j .. ];
        (split; [ lia | exact H ]).
    + intros [H|(j & Hj & H)]; [ now left; left |].
      destruct (Z.lt_ge_cases j mid);
        [ left; right | right ]; exists j; (split; [ lia | exact H ]).
  - intros k Hk. rewrite (B1 k Hk), (A1 k Hk). split.
    + intros [[H|(j & Hj & H)]|(j & Hj & H)]; [ now left | right; exists j .. ];
        (split; [ lia | exact H ]).
    + intros [H|(j & Hj & H)]; [ now left; left |].
      destruct (Z.lt_ge_cases j mid);
        [ left; right | right ]; exists j; (split; [ lia | exact H ]).
  - intros H7. rewrite B2, A2 by lia. reflexivity.
  - rewrite B3, A3. split.
    + intros [[H|(j & Hj & H)]|(j & Hj & H)]; [ now left | right; exists j .. ];
        (split; [ lia | exact H ]).
    + intros [H|(j & Hj & H)]; [ now left; left |].
      destruct (Z.lt_ge_cases j mid);
        [ left; right | right ]; exists j; (split; [ lia | exact H ]).
Qed.

Lemma marks_ext (lo hi : Z) (chg chg' : Z -> Prop) (a b : status_acc) :
  (forall j, lo <= j < hi -> (chg j <-> chg' j)) ->
  marks lo hi chg a b -> marks lo hi chg' a b.
Proof.
  intros Hx. destruct a as [[a0 a1] ast], b as [[b0 b1] bst].
  unfold marks. intros (A0 & A1 & A2 & A3).
  split; [| split; [| split ] ].
  - intros k Hk. rewrite (A0 k Hk). split;
      (intros [H|(j & Hj & H7 & Hkj & H)]; [ now left | right; exists j ];
       split; [ exact Hj | split; [ exact H7 | split; [ exact Hkj |] ] ];
       apply (Hx j Hj); exact H).
  - intros k Hk. rewrite (A1 k Hk). split;
      (intros [H|(j & Hj & H7 & Hkj & H)]; [ now left | right; exists j ];
       split; [ exact Hj | split; [ exact H7 | split; [ exact Hkj |] ] ];
       apply (Hx j Hj); exact H).
  - exact A2.
  - rewrite A3. split;
      (intros [H|(j & Hj & H)]; [ now left | right; exists j ];
       split; [ exact Hj |]; apply (Hx j Hj); exact H).
Qed.

Section StatusLoop.
Variable env : environment.
Variable cfg : ehci_config.
Variable ppcd : Z.
(** One port: it is skipped, or read and found quiet, or read and marked. *)
Lemma status_port_step (j : Z) (acc : status_acc) (s : ehci_hcd) :
  exists evs (hit : bool),
    status_port env cfg ppcd (change_mask cfg) j acc s =
    (Done (if hit then mark_port j acc else acc), set_log (evs ++ log s) s) /\
    (forall e, In e evs -> exists v, e = ev_readl (port_status j) v) /\
    (hit = true <-> found_changed cfg s evs j).
Proof.
  destruct acc as [[b0 b1] status]. unfold status_port.
  destruct (has_ppcd cfg && negb (tst ppcd (Z.shiftl 1 j))).
  - exists (@nil event), false. split; [ destruct s; reflexivity |].
    split; [ intros e [] |].
    split; [ discriminate | intros (v & [] & _) ].
  - unfold bind, ehci_readl, gets, ret. cbv zeta.
    set (v := u32 (hw_read env (log s) (port_status j))).
    assert (Hpc : port_change (set_log (ev_readl (port_status j) v :: log s) s) (change_mask cfg) j v
                  = port_change s (change_mask cfg) j v) by reflexivity.
    rewrite Hpc.
    exists [ev_readl (port_status j) v], (port_change s (change_mask cfg) j v).
    split.
    + unfold mark_port. destruct (port_change s (change_mask cfg) j v); [ destruct (j <? 7) |]; reflexivity.
    + split.
      * intros e [<- | []]. now exists v.
      * split.
        -- intros H. exists v. split; [ left; reflexivity | exact H ].
        -- intros (v' & [E | []] & H). inversion E; subst. exact H.
Qed.
End StatusLoop.

Section StatusLoopInduction.
Variable env : environment.
Variable cfg : ehci_config.
Variable ppcd : Z.

Lemma found_changed_set_log (l : history) (s : ehci_hcd) (evs : list event) (j : Z) :
  found_changed cfg (set_log l s) evs j <-> found_changed cfg s evs j.
Proof. unfold found_changed. reflexivity. Qed.

(** The loop over [n] ports from index [i]: it only reads, each port at most
    once, and marks the ports it finds changed. *)
Lemma status_ports_loop (n : nat) :
  forall (i : Z) (acc : status_acc) (s : ehci_hcd),
    0 <= i -> i + Z.of_nat n <= 15 ->
    exists evs acc',
      status_ports env cfg ppcd (change_mask cfg) i n acc s
      = (Done acc', set_log (evs ++ log s) s) /\
      (forall e, In e evs -> exists q v, e = ev_readl (port_status q) v /\
                                         i <= q < i + Z.of_nat n) /\
      marks i (i + Z.of_nat n) (found_changed cfg s evs) acc acc'.
Proof.
  induction n as [|k IH]; intros i acc s Hi Hn.
  - exists [], acc. split; [ destruct s; reflexivity |]. split; [ intros e [] |].
    destruct acc as [[b0 b1] st]. unfold marks.
    split; [| split; [| split; [ reflexivity |] ] ];
      try (intros k Hk); (split; [ intros H; left; exact H |]);
      intros [H|(j & Hj & _)]; try exact H; lia.
  - cbn [status_ports].
    destruct (status_port_step env cfg ppcd i acc s) as (evs1 & hit & E1 & R1 & H1).
    unfold bind. rewrite E1.
    set (acc1 := if hit then mark_port i acc else acc) in *.
    set (s1 := set_log (evs1 ++ log s) s) in *.
    destruct (IH (i + 1) acc1 s1 ltac:(lia) ltac:(lia)) as (evs2 & acc' & E2 & R2 & M2).
    rewrite E2. exists (evs2 ++ evs1), acc'.
    split; [ subst s1; simpl; now rewrite app_assoc |].
    split.
    + intros e He. apply in_app_or in He. destruct He as [He|He].
      * destruct (R2 e He) as (q & v & -> & Hq). exists q, v. split; [ reflexivity | lia ].
      * destruct (R1 e He) as (v & ->). exists i, v. split; [ reflexivity | lia ].
    + replace (i + Z.of_nat (S k)) with (i + 1 + Z.of_nat k) by lia.
      apply (marks_trans i (i + 1) (i + 1 + Z.of_nat k) _ acc acc1 acc'); [ lia | |].
      * apply (marks_ext i (i + 1) (fun _ => found_changed cfg s evs1 i)).
        -- intros j Hj. assert (j = i) by lia. subst j.
           unfold found_changed. split.
           ++ intros (v & Hin & Hp). exists v. split; [ apply in_or_app; now right | exact Hp ].
           ++ intros (v & Hin & Hp). exists v. split; [| exact Hp ].
              apply in_app_or in Hin. destruct Hin as [Hin|Hin]; [| exact Hin ].
              destruct (R2 _ Hin) as (q & v' & Heq & Hq). inversion Heq. lia.
        -- apply marks_step; [ lia | exact H1 ].
      * apply (marks_ext (i + 1) (i + 1 + Z.of_nat k) (found_changed cfg s1 evs2)); [| exact M2 ].
        intros j Hj. subst s1. rewrite found_changed_set_log.
        unfold found_changed. split.
        -- intros (v & Hin & Hp). exists v. split; [ apply in_or_app; now left | exact Hp ].
        -- intros (v & Hin & Hp). exists v. split; [| exact Hp ].
           apply in_app_or in Hin. destruct Hin as [Hin|Hin]; [ exact Hin |].
           destruct (R1 _ Hin) as (v' & Heq). inversion Heq. lia.
Qed.
End StatusLoopInduction.

Lemma found_changed_frame cfg s (pre post evs : list event) (j : Z) :
  (forall e, In e pre \/ In e post -> forall q v, e <> ev_readl (port_status q) v) ->
  found_changed cfg s (pre ++ evs ++ post) j <-> found_changed cfg s evs j.
Proof.
  intros Hframe. unfold found_changed. split.
  - intros (v & Hin & Hp). exists v. split; [| exact Hp ].
    apply in_app_or in Hin. destruct Hin as [Hin|Hin].
    + exfalso. exact (Hframe _ (or_introl Hin) _ _ eq_refl).
    + apply in_app_or in Hin. destruct Hin as [Hin|Hin]; [ exact Hin |].
      exfalso. exact (Hframe _ (or_intror Hin) _ _ eq_refl).
  - intros (v & Hin & Hp). exists v. split; [| exact Hp ].
    apply in_or_app. right. apply in_or_app. now left.
Qed.

(** C9 (amended): [ehci_hub_status_data] returns 0 and leaves the buffer
    alone when the root hub is not running.  When it is running, the result
    is non-zero exactly when a port resume is in progress (the resuming-ports
    set is non-empty) or some port was read with a change pending: a connect
    or enable change latch (an over-current change latch too, unless
    over-current reports are ignored), the tracked suspend-change flag, or a
    recorded deadline that has elapsed; on a controller with per-port change
    detection only the ports it flags are read.  The non-zero result is the
    number of bytes of the bitmap.  In the bitmap, bit 0 of the first byte is
    zero, bit N+1 of the first byte is set exactly for the changed ports
    N < 7, and bit N-7 of the second byte exactly for the changed ports
    N >= 7; the second byte is left as it was for a hub of at most 7
    ports. *)
Theorem hub_status_data_reports env cfg buf s :
  let ports := HCS_N_PORTS (hcs_params cfg) in
  let r := ehci_hub_status_data env cfg buf s in
  (rh_state s <> EHCI_RH_RUNNING -> r = (0, buf, s)) /\
  (rh_state s = EHCI_RH_RUNNING ->
   exists evs ret b0 b1,
     r = (ret, (b0, b1), set_log (evs ++ log s) s) /\
     (ret <> 0 <->
      resuming_ports s <> 0 \/ exists j, 0 <= j < ports /\ found_changed cfg s evs j) /\
     (ret = 0 \/ ret = if 7 <? ports then 2 else 1) /\
     Z.testbit b0 0 = false /\
     (forall j, 0 <= j < 7 ->
        (Z.testbit b0 (j + 1) = true <-> j < ports /\ found_changed cfg s evs j)) /\
     (7 < ports -> forall j, 7 <= j < 15 ->
        (Z.testbit b1 (j - 7) = true <-> j < ports /\ found_changed cfg s evs j)) /\
     (ports <= 7 -> b1 = snd buf)).
Proof.
  intros ports r. pose proof (HCS_N_PORTS_range (hcs_params cfg)) as Hports. fold ports in Hports.
  split.
  - intros Hnr. subst r. unfold ehci_hub_status_data.
    destruct (rh_state s); try reflexivity. now contradiction Hnr.
  - intros Hrun. subst r. unfold ehci_hub_status_data. rewrite Hrun. cbn [rh_state_eqb negb].
    fold ports.
    set (b1i := if 7 <? ports then 0 else snd buf).
    set (retval := if 7 <? ports then 2 else 1).
    assert (Hpair : (if 7 <? ports then (0, 2) else (snd buf, 1)) = (b1i, retval))
      by (subst b1i retval; destruct (7 <? ports); reflexivity).
    rewrite Hpair. clear Hpair.
    (* the per-port change detect bits *)
    assert (Hppcd : exists pre ppcd,
              (if has_ppcd cfg
               then bind (ehci_readl env reg_status) (fun v => ret (Z.shiftr v 16))
               else ret 0) s = (Done ppcd, set_log (pre ++ log s) s) /\
              (forall e, In e pre -> forall q v, e <> ev_readl (port_status q) v)).
    { destruct (has_ppcd cfg).
      - eexists [_], _. split; [ reflexivity |]. intros e [<-|[]] q v. discriminate.
      - exists [], 0. split; [ destruct s; reflexivity |]. intros e []. }
    destruct Hppcd as (pre & ppcd & Ep & Hpre).
    unfold bind at 1. rewrite Ep. cbv beta iota.
    set (sP := set_log (pre ++ log s) s).
    destruct (status_ports_loop env cfg ppcd (Z.to_nat ports) 0 (0, b1i, resuming_ports s) sP
                ltac:(lia) ltac:(lia)) as (evs & [[b0 b1] st] & El & Hreads & Hm).
    unfold bind at 1. rewrite El. cbv beta iota.
    set (sL := set_log (evs ++ log sP) sP).
    set (post := if negb (resuming_ports s =? 0)
                 then [ev_call (x_mod_timer rh_timer (deadline env sL 25))] else []).
    assert (Hpost : forall e, In e post -> forall q v, e <> ev_readl (port_status q) v).
    { subst post. destruct (negb (resuming_ports s =? 0)).
      - intros e [<-|[]] q v. discriminate.
      - intros e []. }
    exists (post ++ evs ++ pre), (if st =? 0 then 0 else retval), b0, b1.
    assert (Hfc : forall j, found_changed cfg s (post ++ evs ++ pre) j
                            <-> found_changed cfg sP evs j).
    { intros j. subst sP. rewrite found_changed_set_log. apply found_changed_frame.
      intros e [He|He]; [ now apply Hpost | now apply Hpre ]. }
    rewrite Z2Nat.id in Hm by lia. cbn [Z.add] in Hm.
    unfold marks in Hm. destruct Hm as (M0 & M1 & M2 & M3).
    split.
    { unfold bind, gets, when, call, emit, modify, ret. subst post.
      change (resuming_ports sL) with (resuming_ports s).
      destruct (negb (resuming_ports s =? 0)); subst sL sP; simpl;
        now rewrite <- ?app_assoc. }
    split; [| split; [| split; [| split; [| split ] ] ] ].
    + assert (Hret : (if st =? 0 then 0 else retval) <> 0 <-> st <> 0).
      { destruct (Z.eqb_spec st 0) as [->|Hne].
        - tauto.
        - split; [ intros _; exact Hne | intros _ ].
          subst retval. destruct (7 <? ports); discriminate. }
      rewrite Hret, M3. split;
        (intros [H|(j & Hj & H)]; [ now left | right; exists j; split; [ exact Hj |] ];
         apply Hfc; exact H).
    + destruct (st =? 0); [ now left | now right ].
    + destruct (Z.testbit b0 0) eqn:Hb; [| reflexivity ].
      apply (M0 0 ltac:(lia)) in Hb. destruct Hb as [Hb|(j & Hj & _ & Hk & _)];
        [ rewrite Z.bits_0 in Hb; discriminate | lia ].
    + intros j Hj. rewrite (M0 (j + 1) ltac:(lia)). split.
      * intros [Hb|(j' & Hj' & _ & Hk & H)]; [ rewrite Z.bits_0 in Hb; discriminate |].
        assert (j' = j) by lia. subst j'. split; [ lia | apply Hfc; exact H ].
      * intros (Hlt & H). right. exists j. repeat split; try lia. apply Hfc. exact H.
    + intros H7 j Hj. rewrite (M1 (j - 7) ltac:(lia)).
      assert (Hb1i : b1i = 0) by (subst b1i; apply Z.ltb_lt in H7; now rewrite H7).
      rewrite Hb1i. split.
      * intros [Hb|(j' & Hj' & _ & Hk & H)]; [ rewrite Z.bits_0 in Hb; discriminate |].
        assert (j' = j) by lia. subst j'. split; [ lia | apply Hfc; exact H ].
      * intros (Hlt & H). right. exists j. repeat split; try lia. apply Hfc. exact H.
    + intros H7. rewrite (M2 H7). subst b1i.
      destruct (Z.ltb_spec 7 ports); [ lia | reflexivity ].
Qed.

(** The amended C9 on a plain two-port controller: port 1 shows a connect
    change, port 2 is quiet; and the same hub when it is suspended. *)
Lemma hub_status_data_reports_witness :
  (exists evs b1 s',
     ehci_hub_status_data (scripted [0x1003; 0x1005] 0) plain_config (7, 7) idle_state
     = (1, (2, b1), s') /\
     found_changed plain_config idle_state evs 0 /\ b1 = 7) /\
  ehci_hub_status_data (scripted [0x1003; 0x1005] 0) plain_config (7, 7)
    (set_rh_state EHCI_RH_SUSPENDED idle_state)
  = (0, (7, 7), set_rh_state EHCI_RH_SUSPENDED idle_state).
Proof.
  split.
  - destruct (proj2 (hub_status_data_reports (scripted [0x1003; 0x1005] 0) plain_config
                       (7, 7) idle_state) eq_refl)
      as (evs & ret & b0 & b1 & E & _ & _ & _ & Hb0 & _ & Hb1).
    vm_compute in E. inversion E; subst.
    eexists _, 7, _. split; [ reflexivity |]. split; [| reflexivity ].
    apply (proj1 (Hb0 0 ltac:(lia)) eq_refl).
  - apply (proj1 (hub_status_data_reports (scripted [0x1003; 0x1005] 0) plain_config (7, 7)
                    (set_rh_state EHCI_RH_SUSPENDED idle_state))).
    discriminate.
Defined.

(** C9 as stated fails while a resume is in progress: no port has a change
    pending (no change latch, no suspend-change flag, the deadline of port 1
    still ahead), yet the result is non-zero, with an empty bitmap. *)
Lemma resume_in_progress_reported_without_change :
  ehci_hub_status_data (scripted [0x1005; 0x1005] 0) plain_config (7, 7) resuming_state
  = (1, (0, 7),
     set_log [ev_call (x_mod_timer rh_timer 1003); ev_readl (port_status 1) 0x1005;
              ev_readl (port_status 0) 0x1005] resuming_state) /\
  resuming_ports resuming_state <> 0 /\
  port_change resuming_state (change_mask plain_config) 0 0x1005 = false /\
  port_change resuming_state (change_mask plain_config) 1 0x1005 = false.
Proof. repeat split. discriminate. Qed.

(** ** [ehci_bus_suspend]: the loop over the ports *)








(** ** [ehci_bus_suspend]: around the loop *)















Lemma bind_run {A B} (m : M A) (k : A -> M B) s a s1
    (Q : outcome B * ehci_hcd -> Prop) :
  m s = (Done a, s1) -> Q (k a s1) -> Q (bind m k s).
Proof. intros E H. unfold bind. now rewrite E. Qed.

(** Run the first computation of the goal's [bind] with the equation [E]. *)
Ltac run E :=
  match type of E with
  | ?m ?st = (Done _, _) =>
      match goal with
      | |- context [bind m ?k st] =>
          pattern (bind m k st); eapply (bind_run _ _ _ _ _ _ E); cbv beta
      end
  end.

(** Run a quiet computation, keeping what it preserves. *)
Ltac run_quiet lem st :=
  let a := fresh "a" in
  let s1 := fresh "s" in
  let E := fresh "E" in
  let Q := fresh "Q" in
  destruct (lem st) as (a & s1 & E & Q); run E; clear E.






(** ** [ehci_handover_companion_ports]: the consumer of [owned_ports] *)

Lemma handover_nothing_owned env cfg s :
  owned_ports s = 0 -> ehci_handover_companion_ports env cfg s = s.
Proof. intros H. unfold ehci_handover_companion_ports. now rewrite H. Qed.

(** The first pass leaves the ports that are not recorded alone. *)
Lemma handover_skips_unowned env cfg (n : nat) s :
  (forall p, 0 <= p < Z.of_nat n -> test_bit p (owned_ports s) = false) ->
  handover_reset_owned env cfg n s = (Done tt, s).
Proof.
  induction n as [|k IH]; intros Hno; [ reflexivity |].
  cbn [handover_reset_owned]. unfold bind at 1. unfold gets at 1.
  rewrite (Hno (Z.of_nat k)) by lia. unfold bind at 1. unfold ret at 1.
  apply IH. intros p Hp. apply Hno. lia.
Qed.

Lemma total_handover_reset_owned env cfg (n : nat) : total (handover_reset_owned env cfg n).
Proof.
  induction n as [|k IH]; cbn [handover_reset_owned]; [ apply total_ret |].
  unfold ehci_writel, hub_control_call. totality; exact IH.
Qed.

Lemma total_handover_verify_owned env cfg (n : nat) :
  total (handover_verify_owned env cfg n).
Proof.
  induction n as [|k IH]; cbn [handover_verify_owned]; [ apply total_ret |].
  unfold ehci_writel, hub_control_call. totality; exact IH.
Qed.

(** Whatever it finds, the recovery ends with nothing recorded. *)
Lemma handover_clears_owned_ports env cfg s :
  owned_ports (ehci_handover_companion_ports env cfg s) = 0.
Proof.
  unfold ehci_handover_companion_ports.
  destruct (Z.eqb_spec (owned_ports s) 0) as [H0|Hne]; [ exact H0 |].
  cbv zeta.
  destruct (total_msleep env 20 s) as ([] & s1 & E1).
  unfold bind at 1. rewrite E1.
  destruct (total_handover_reset_owned env cfg (Z.to_nat (HCS_N_PORTS (hcs_params cfg))) s1)
    as ([] & s2 & E2).
  unfold bind at 1. rewrite E2. unfold bind at 1. unfold gets at 1.
  destruct (Z.eqb_spec (owned_ports s2) 0) as [H2|Hne2]; [ exact H2 |].
  destruct (total_msleep env 90 s2) as ([] & s3 & E3).
  unfold bind at 1. rewrite E3.
  destruct (total_handover_verify_owned env cfg (Z.to_nat (HCS_N_PORTS (hcs_params cfg))) s3)
    as ([] & s4 & E4).
  unfold bind at 1. rewrite E4. reflexivity.
Qed.

(* ------------------------------------------------------------------------- *)
(** * Further properties of the hub code *)

(** ** Runs described event by event *)

Lemma only_refl P s : only P s s.
Proof. exists []. split; [ reflexivity | constructor ]. Qed.

Lemma only_trans P s1 s2 s3 : only P s1 s2 -> only P s2 s3 -> only P s1 s3.
Proof.
  intros (e1 & H1 & F1) (e2 & H2 & F2). exists (e2 ++ e1).
  split; [ now rewrite H2, H1, app_assoc | now apply Forall_app ].
Qed.

Lemma only_weaken (P Q : event -> Prop) s s' :
  (forall e, P e -> Q e) -> only P s s' -> only Q s s'.
Proof.
  intros H (evs & L & F). exists evs. split; [ exact L |].
  eapply Forall_impl; [ exact H | exact F ].
Qed.

Lemma only_emit P e : P e -> step_inv (only P) (emit e).
Proof.
  intros He s o s' E. inversion E. exists [e]. split; [ reflexivity | now constructor ].
Qed.

Lemma only_readl P env r : (forall v, P (ev_readl r v)) -> step_inv (only P) (ehci_readl env r).
Proof.
  intros He s o s' E. inversion E. eexists [_]. split; [ reflexivity | now constructor ].
Qed.

Lemma only_handshake P env r m d u :
  (forall rc, P (ev_handshake r m d u rc)) -> step_inv (only P) (handshake env r m d u).
Proof.
  intros He s o s' E. inversion E. eexists [_]. split; [ reflexivity | now constructor ].
Qed.

Lemma only_modify P f : (forall s, log (f s) = log s) -> step_inv (only P) (modify f).
Proof.
  intros Hf s o s' E. inversion E. exists []. split; [ apply Hf | constructor ].
Qed.

(** The monad laws, as far as invariants need them. *)
Lemma inv_bind_assoc {A B C} R (m : M A) (f : A -> M B) (g : B -> M C) :
  step_inv R (bind m (fun x => bind (f x) g)) -> step_inv R (bind (bind m f) g).
Proof.
  intros H s o s' E. apply (H s o s'). rewrite <- E. unfold bind.
  destruct (m s) as [[a|r] s1]; reflexivity.
Qed.

Lemma inv_bind_ret {A B} R (a : A) (k : A -> M B) :
  step_inv R (k a) -> step_inv R (bind (ret a) k).
Proof. intros H s o s' E. exact (H s o s' E). Qed.

Lemma inv_bind_fail {A B} R (r : Z) (k : A -> M B) :
  step_inv R (@fail B r) -> step_inv R (bind (fail r) k).
Proof. intros H s o s' E. exact (H s o s' E). Qed.

(** Walk through a computation, keeping the tests it makes; the events
    are left to check. *)
Ltac only_walk :=
  cbv zeta;
  repeat match goal with
         | |- step_inv _ (bind (if ?b then _ else _) _) => destruct b eqn:?
         | |- step_inv _ (bind (match ?o with Some _ => _ | None => _ end) _) => destruct o
         | |- step_inv _ (bind (bind _ _) _) => apply inv_bind_assoc
         | |- step_inv _ (bind (ret _) _) => apply inv_bind_ret; cbv beta zeta
         | |- step_inv _ (bind (fail _) _) => apply inv_bind_fail
         | |- step_inv _ (bind goto_error _) => unfold goto_error at 1
         | |- step_inv _ (bind _ _) => apply (inv_bind _ (only_trans _)); [| intros ? ]
         | |- step_inv _ (if ?b then _ else _) => destruct b eqn:?
         | |- step_inv _ (match ?o with Some _ => _ | None => _ end) => destruct o
         | |- step_inv _ (when _ _) => apply (inv_when _ (only_refl _))
         | |- step_inv _ (ret _) => apply (inv_ret _ (only_refl _))
         | |- step_inv _ (fail _) => apply (inv_fail _ (only_refl _))
         | |- step_inv _ goto_error => apply (inv_fail _ (only_refl _))
         | |- step_inv _ (gets _) => apply (inv_gets _ (only_refl _))
         | |- step_inv _ (modify _) => apply only_modify; intros; reflexivity
         end.

(** ** Masked values *)

Lemma masked_land_r (a m r : Z) : Z.land m r = 0 -> Z.land (Z.land a m) r = 0.
Proof. intros H. now rewrite <- Z.land_assoc, H, Z.land_0_r. Qed.

Lemma masked_land_l (a m r : Z) : Z.land a r = 0 -> Z.land (Z.land a m) r = 0.
Proof.
  intros H. rewrite <- Z.land_assoc, (Z.land_comm m r), Z.land_assoc, H. apply Z.land_0_l.
Qed.

Lemma masked_lor (a b r : Z) : Z.land a r = 0 -> Z.land b r = 0 -> Z.land (Z.lor a b) r = 0.
Proof. intros Ha Hb. now rewrite Z.land_lor_distr_l, Ha, Hb. Qed.

Ltac closedZ t :=
  lazymatch t with
  | Z.lor ?a ?b => closedZ a; closedZ b
  | Z.land ?a ?b => closedZ a; closedZ b
  | Z.lxor ?a ?b => closedZ a; closedZ b
  | Z.shiftl ?a ?b => closedZ a; closedZ b
  | Z.lnot ?a => closedZ a
  | Z0 => idtac
  | Zpos _ => idtac
  | Zneg _ => idtac
  | _ => is_const t
  end.

(** [Z.land x r = 0] for a value [x] built from masks. *)
Ltac masked :=
  repeat first
    [ assumption
    | match goal with
      | |- Z.land ?c ?r = 0 => closedZ c; closedZ r; vm_compute; reflexivity
      end
    | apply masked_lor
    | match goal with
      | |- Z.land (Z.land _ ?m) ?r = 0 =>
          closedZ m; closedZ r; apply masked_land_r; vm_compute; reflexivity
      end
    | apply masked_land_l ].

(** Bit tests of values built with [Z.land] and [Z.lor] from a register
    value and constants: brought down to tests of the register value. *)
Ltac tst_const :=
  repeat match goal with
         | |- context [tst ?x ?m] =>
             closedZ x; closedZ m;
             let c := eval vm_compute in (tst x m) in change (tst x m) with c
         | H : context [tst ?x ?m] |- _ =>
             closedZ x; closedZ m;
             let c := eval vm_compute in (tst x m) in change (tst x m) with c in H
         | |- context [tst _ (Z.land ?a ?m)] =>
             closedZ a; closedZ m;
             let c := eval vm_compute in (Z.land a m) in change (Z.land a m) with c
         | H : context [tst _ (Z.land ?a ?m)] |- _ =>
             closedZ a; closedZ m;
             let c := eval vm_compute in (Z.land a m) in change (Z.land a m) with c in H
         end.

Lemma tst_0_r (x : Z) : tst x 0 = false.
Proof. unfold tst. now rewrite Z.land_0_r. Qed.

Ltac tst_norm :=
  rewrite ?tst_lor_l, ?tst_land_l in *;
  tst_const;
  rewrite ?tst_0_r, ?orb_false_r, ?orb_true_r, ?orb_false_l, ?orb_true_l in *.

(** Close a goal about bit tests with the tests at hand. *)
Ltac tst_done :=
  tst_norm;
  repeat match goal with
         | H : tst _ _ = _ |- _ => rewrite H
         end;
  reflexivity.

(** The tests inside a written value, case by case. *)
Ltac split_ifs :=
  repeat match goal with
         | |- context [if ?b then _ else _] => destruct b eqn:?
         end.

(** ** Invariants of the state *)

(** Walk through a computation for an invariant that does not look at the
    values; what is left are the events, the updates and the loops. *)
Ltac inv_walk refl trans :=
  cbv zeta;
  repeat match goal with
         | |- step_inv _ (bind _ _) => apply (inv_bind _ trans); [| intros ? ]
         | |- step_inv _ (if ?b then _ else _) => destruct b
         | |- step_inv _ (match ?o with Some _ => _ | None => _ end) => destruct o
         | |- step_inv _ (when _ _) => apply (inv_when _ refl)
         | |- step_inv _ (ret _) => apply (inv_ret _ refl)
         | |- step_inv _ (fail _) => apply (inv_fail _ refl)
         | |- step_inv _ goto_error => apply (inv_fail _ refl)
         | |- step_inv _ (gets _) => apply (inv_gets _ refl)
         end.

Lemma same_tracker_refl s : same_tracker s s.
Proof. unfold same_tracker. tauto. Qed.

Lemma same_tracker_trans s1 s2 s3 :
  same_tracker s1 s2 -> same_tracker s2 s3 -> same_tracker s1 s3.
Proof.
  unfold same_tracker.
  intros (A1 & A2 & A3 & A4 & A5 & A6 & A7 & A8 & A9) (B1 & B2 & B3 & B4 & B5 & B6 & B7 & B8 & B9).
  rewrite B1, B2, B3, B4, B5, B6, B7, B8, B9. tauto.
Qed.

Lemma same_tracker_log e s : same_tracker s (set_log (e :: log s) s).
Proof. unfold same_tracker. simpl. tauto. Qed.

Lemma same_tracker_jiffies j s : same_tracker s (set_jiffies j s).
Proof. unfold same_tracker. simpl. tauto. Qed.

Lemma msleep_same_tracker env n : step_inv same_tracker (msleep env n).
Proof.
  unfold msleep, call.
  apply (inv_bind _ same_tracker_trans); [ apply (inv_emit _ same_tracker_log) | intros ? ].
  apply inv_modify. intros s. apply same_tracker_jiffies.
Qed.

(** Registers are accessed, sleeps are taken; the tracker is not touched. *)
Ltac keeps_tracker :=
  unfold ehci_writel, call;
  inv_walk same_tracker_refl same_tracker_trans;
  try first [ apply (inv_emit _ same_tracker_log)
            | apply (inv_readl _ _ same_tracker_log)
            | apply (inv_handshake _ _ same_tracker_log)
            | apply msleep_same_tracker ].

Lemma only_msleep P env n : P (ev_call (x_msleep n)) -> step_inv (only P) (msleep env n).
Proof.
  intros H. unfold msleep, call.
  apply (inv_bind _ (only_trans _)); [ now apply only_emit | intros ? ].
  apply only_modify. reflexivity.
Qed.

Lemma only_extends P s s' : only P s s' -> extends s s'.
Proof. intros (evs & L & _). now exists evs. Qed.

Lemma step_inv_done {A} R (m : M A) s a s' : step_inv R m -> m s = (Done a, s') -> R s s'.
Proof. intros H E. exact (H _ _ _ E). Qed.

(** A log written out is an extension of its tail. *)
Ltac as_app_n :=
  first [ exists []; reflexivity | eexists [_]; reflexivity | eexists [_; _]; reflexivity
        | eexists [_; _; _]; reflexivity | eexists [_; _; _; _]; reflexivity
        | eexists [_; _; _; _; _]; reflexivity | eexists [_; _; _; _; _; _]; reflexivity ].

(** ** Disjoint masks *)

Lemma land_disjoint_lor (m a b : Z) :
  Z.land m (Z.lor a b) = 0 -> Z.land m a = 0 /\ Z.land m b = 0.
Proof. rewrite Z.land_lor_distr_r. apply Z.lor_eq_0_iff. Qed.

Lemma land_lnot_disjoint (x c m : Z) : Z.land m c = 0 -> Z.land (Z.land x (Z.lnot c)) m = Z.land x m.
Proof.
  intros H. apply Z.bits_inj'. intros n Hn.
  rewrite !Z.land_spec, Z.lnot_spec by assumption.
  assert (Hb : Z.testbit m n && Z.testbit c n = false).
  { rewrite <- Z.land_spec, H. apply Z.bits_0. }
  destruct (Z.testbit x n), (Z.testbit c n), (Z.testbit m n); simpl in *; congruence.
Qed.

Lemma land_sub_disjoint (l c m : Z) : Z.land l c = l -> Z.land m c = 0 -> Z.land l m = 0.
Proof.
  intros Hl Hm. rewrite <- Hl, <- Z.land_assoc, (Z.land_comm c m), Hm. apply Z.land_0_r.
Qed.


(** ** The monad laws, state by state *)

Lemma bind_assoc_eq {A B C} (m : M A) (f : A -> M B) (g : B -> M C) s :
  bind (bind m f) g s = bind m (fun x => bind (f x) g) s.
Proof. unfold bind. destruct (m s) as [[a|r] s1]; reflexivity. Qed.

Lemma bind_cong {A B} (m : M A) (k k' : A -> M B) s :
  (forall a s1, k a s1 = k' a s1) -> bind m k s = bind m k' s.
Proof. intros H. unfold bind. destruct (m s) as [[a|r] s1]; [ apply H | reflexivity ]. Qed.

(** An explicit list in front of a tail, as an append. *)
Ltac as_cons :=
  first [ exact (eq_refl ([] ++ _)) | exact (eq_refl ([_] ++ _))
        | exact (eq_refl ([_; _] ++ _)) | exact (eq_refl ([_; _; _] ++ _))
        | exact (eq_refl ([_; _; _; _] ++ _)) | exact (eq_refl ([_; _; _; _; _] ++ _))
        | exact (eq_refl ([_; _; _; _; _; _] ++ _))
        | exact (eq_refl ([_; _; _; _; _; _; _] ++ _)) ].

(** ** [ehci_port_change] *)

Lemma set_log_nil (s : ehci_hcd) : set_log ([] ++ log s) s = s.
Proof. destruct s; reflexivity. Qed.

Lemma set_log_app (a b : list event) (s : ehci_hcd) :
  set_log (a ++ log (set_log (b ++ log s) s)) (set_log (b ++ log s) s)
  = set_log ((a ++ b) ++ log s) s.
Proof. unfold set_log; simpl. now rewrite app_assoc. Qed.

Lemma port_change_scan_spec env (n : nat) :
  forall s,
  exists r evs,
    port_change_scan env n s = (Done r, set_log (evs ++ log s) s) /\
    (r = 0 \/ r = 1) /\
    Forall (fun e => exists p v, e = ev_readl (port_status p) v /\ 0 <= p < Z.of_nat n /\
                                 (r = 0 -> tst v PORT_CSC = false)) evs /\
    (r = 1 -> exists p v, 0 <= p < Z.of_nat n /\ In (ev_readl (port_status p) v) evs /\
                          tst v PORT_CSC = true) /\
    (r = 0 -> forall p, 0 <= p < Z.of_nat n -> exists v, In (ev_readl (port_status p) v) evs).
Proof.
  induction n as [|k IH]; intros s.
  - exists 0, []. rewrite set_log_nil. split; [ reflexivity |]. split; [ now left |].
    split; [ constructor |]. split; [ discriminate |]. intros _ p Hp. simpl in Hp. lia.
  - cbn [port_change_scan]. unfold bind at 1. unfold ehci_readl at 1. cbv zeta.
    set (v := u32 (hw_read env (log s) (port_status (Z.of_nat k)))).
    destruct (tst v PORT_CSC) eqn:Ev.
    + exists 1, [ev_readl (port_status (Z.of_nat k)) v].
      split; [ reflexivity |]. split; [ now right |]. split.
      { constructor; [| constructor ]. exists (Z.of_nat k), v.
        split; [ reflexivity |]. split; [ lia | discriminate ]. }
      split.
      * intros _. exists (Z.of_nat k), v. split; [ lia |]. split; [ now left | exact Ev ].
      * discriminate.
    + destruct (IH (set_log (ev_readl (port_status (Z.of_nat k)) v :: log s) s))
        as (r & evs & E & Hr & Hall & H1 & H0).
      exists r, (evs ++ [ev_readl (port_status (Z.of_nat k)) v]).
      split.
      { rewrite E. f_equal. unfold set_log; simpl. now rewrite <- app_assoc. }
      split; [ exact Hr |]. split.
      { apply Forall_app. split.
        - eapply Forall_impl; [| exact Hall ]. intros e (p & x & -> & Hp & Hx).
          exists p, x. split; [ reflexivity |]. split; [ lia | exact Hx ].
        - constructor; [| constructor ]. exists (Z.of_nat k), v.
          split; [ reflexivity |]. split; [ lia | intros _; exact Ev ]. }
      split.
      * intros Hr1. destruct (H1 Hr1) as (p & x & Hp & Hin & Hx).
        exists p, x. split; [ lia |]. split; [ apply in_or_app; now left | exact Hx ].
      * intros Hr0 p Hp. destruct (Z.eq_dec p (Z.of_nat k)) as [->|Hne].
        -- exists v. apply in_or_app. right. now left.
        -- destruct (H0 Hr0 p ltac:(lia)) as (x & Hin). exists x. apply in_or_app. now left.
Qed.

Lemma ehci_port_change_spec env cfg s :
  exists r evs,
    ehci_port_change env cfg s = (Done r, set_log (evs ++ log s) s) /\
    Forall is_read evs /\
    (r = 0 \/ r = 1) /\
    (r = 1 <-> shows_port_change (HCS_N_PORTS (hcs_params cfg)) evs) /\
    (r = 0 -> forall p, 0 <= p < HCS_N_PORTS (hcs_params cfg) ->
              exists v, In (ev_readl (port_status p) v) evs).
Proof.
  pose proof (HCS_N_PORTS_range (hcs_params cfg)) as Hn.
  unfold ehci_port_change. unfold bind at 1. unfold ehci_readl at 1. cbv zeta.
  set (v0 := u32 (hw_read env (log s) reg_status)).
  destruct (tst v0 STS_PCD) eqn:E0.
  - exists 1, [ev_readl reg_status v0]. split; [ reflexivity |].
    split; [ repeat constructor |]. split; [ now right |]. split; [| discriminate ].
    split; [| reflexivity ]. intros _. left. exists v0. split; [ now left | exact E0 ].
  - destruct (port_change_scan_spec env (Z.to_nat (HCS_N_PORTS (hcs_params cfg)))
                (set_log (ev_readl reg_status v0 :: log s) s))
      as (r & evs & E & Hr & Hall & H1 & H0).
    rewrite Z2Nat.id in Hall, H1, H0 by lia.
    exists r, (evs ++ [ev_readl reg_status v0]). split.
    { rewrite E. f_equal. unfold set_log; simpl. now rewrite <- app_assoc. }
    split.
    { apply Forall_app. split; [| repeat constructor ].
      eapply Forall_impl; [| exact Hall ]. intros e (p & x & -> & _). exact I. }
    split; [ exact Hr |]. split.
    + split.
      * intros Hr1. right. destruct (H1 Hr1) as (p & x & Hp & Hin & Hx).
        exists p, x. split; [ exact Hp |]. split; [ apply in_or_app; now left | exact Hx ].
      * intros Hc. destruct Hr as [Hr0|Hr1]; [ exfalso | exact Hr1 ].
        rewrite Forall_forall in Hall.
        destruct Hc as [(x & Hin & Hx) | (p & x & Hp & Hin & Hx)];
          apply in_app_or in Hin; destruct Hin as [Hin|[Hin|[]]].
        -- destruct (Hall _ Hin) as (p' & x' & Heq & _). discriminate.
        -- inversion Hin; subst. rewrite E0 in Hx. discriminate.
        -- destruct (Hall _ Hin) as (p' & x' & Heq & _ & Hx').
           specialize (Hx' Hr0). inversion Heq; subst p' x'.
           rewrite Hx' in Hx. discriminate.
        -- discriminate.
    + intros Hr0 p Hp. destruct (H0 Hr0 p Hp) as (x & Hin).
      exists x. apply in_or_app. now left.
Qed.

(** X15: [ehci_port_change] only reads registers and answers 0 or 1.  It
    answers 1 exactly when one of the values it read shows a change: the
    status register with the port-change-detect bit, or a port register with
    the connect-change latch.  When it answers 0 it has read the register of
    every port. *)
Theorem port_change_reads_until_change env cfg s :
  exists r evs,
    ehci_port_change env cfg s = (Done r, set_log (evs ++ log s) s) /\
    Forall is_read evs /\
    (r = 0 \/ r = 1) /\
    (r = 1 <-> shows_port_change (HCS_N_PORTS (hcs_params cfg)) evs) /\
    (r = 0 -> forall p, 0 <= p < HCS_N_PORTS (hcs_params cfg) ->
              exists v, In (ev_readl (port_status p) v) evs).
Proof. apply ehci_port_change_spec. Qed.

(** ** GetPortStatus acknowledges no change latch *)

Ltac own_port :=
  first [ apply only_readl; intros; reflexivity
        | apply only_handshake; intros; reflexivity
        | apply only_emit; first [ exact I | split; [ reflexivity | masked ] ] ].

Lemma gps_change_bits_spares env cfg q :
  step_inv (only (spares_latches q)) (gps_change_bits env cfg (port_status q)).
Proof. unfold gps_change_bits, ehci_writel. only_walk; own_port. Qed.

Lemma check_reset_complete_spares cfg q v :
  step_inv (only (spares_latches q)) (check_reset_complete cfg q (port_status q) v).
Proof. unfold check_reset_complete, ehci_writel, call. only_walk; own_port. Qed.

Lemma gps_resume_spares env q temp :
  step_inv (only (spares_latches q)) (gps_resume env q (port_status q) temp).
Proof. unfold gps_resume, ehci_writel, call. only_walk; own_port. Qed.

Lemma gps_reset_spares env cfg q temp status :
  step_inv (only (spares_latches q)) (gps_reset env cfg q (port_status q) temp status).
Proof.
  unfold gps_reset, ehci_writel. only_walk; try own_port.
  apply check_reset_complete_spares.
Qed.

Lemma gps_stale_spares q temp : step_inv (only (spares_latches q)) (gps_stale q temp).
Proof. unfold gps_stale. only_walk. Qed.

Lemma gps_companion_spares env cfg q temp :
  step_inv (only (spares_latches q)) (gps_companion env cfg q (port_status q) temp).
Proof. unfold gps_companion, ehci_writel. only_walk; own_port. Qed.

Lemma gps_compose_spares env cfg q hreg temp status :
  (forall r, hreg = Some r -> r = hostpc q) ->
  step_inv (only (spares_latches q)) (gps_compose env cfg q hreg temp status).
Proof.
  intros Hh. unfold gps_compose. only_walk; try own_port.
  all: rewrite (Hh _ eq_refl); apply only_readl; intros; exact I.
Qed.

Lemma get_port_status_spares env cfg q hreg :
  (forall r, hreg = Some r -> r = hostpc q) ->
  step_inv (only (spares_latches q)) (get_port_status env cfg q (port_status q) hreg).
Proof.
  intros Hh. unfold get_port_status, gps_resolve, gps_settle, gps_finish.
  apply (inv_bind _ (only_trans _)); [| intros ?; now apply gps_compose_spares ].
  apply (inv_bind _ (only_trans _)); [ apply gps_change_bits_spares | intros ? ].
  apply (inv_bind _ (only_trans _)); [ apply gps_resume_spares | intros ? ].
  apply (inv_bind _ (only_trans _)); [ apply gps_reset_spares | intros ? ].
  apply (inv_bind _ (only_trans _)); [ apply gps_stale_spares | intros ? ].
  apply (inv_bind _ (only_trans _)); [ apply gps_companion_spares | intros ? ].
  apply (inv_ret _ (only_refl _)).
Qed.

(** X10: GetPortStatus on an in-range port acknowledges nothing: of the port
    status registers it accesses its own port's only, every value it writes
    there has the three write-one-to-clear latches clear, and it writes no
    other register. *)
Theorem get_port_status_spares_latches env cfg port wValue s :
  1 <= port <= HCS_N_PORTS (hcs_params cfg) ->
  only (spares_latches (port - 1)) s
    (snd (ehci_hub_control env cfg GetPortStatus wValue port s)).
Proof.
  intros Hr. rewrite (hub_control_get_port_status env cfg port Hr).
  destruct (get_port_status env cfg (port - 1) (port_status (port - 1))
              (hostpc_reg_of cfg port) s) as [o s'] eqn:E.
  assert (H : only (spares_latches (port - 1)) s s').
  { eapply get_port_status_spares; [| exact E ].
    unfold hostpc_reg_of. destruct (port_facts cfg port Hr) as (_ & Hl & _).
    change 0xff with 255. rewrite Hl.
    destruct (has_hostpc cfg); intros r Hs; inversion Hs; reflexivity. }
  destruct o; exact H.
Qed.

(** X10 on port 1 in the middle of a reset, with the connect and
    over-current change latches pending. *)
Lemma get_port_status_spares_latches_witness :
  only (spares_latches 0) idle_state
    (snd (ehci_hub_control (scripted [0x1133; 0x1103; 0x1005] 0) plain_config
            GetPortStatus 0 1 idle_state)).
Proof.
  apply (get_port_status_spares_latches (scripted [0x1133; 0x1103; 0x1005] 0) plain_config 1 0
           idle_state).
  vm_compute. split; discriminate.
Defined.

(** ** The wake bits [ehci_bus_suspend] writes *)

Ltac no_port_write :=
  first [ apply only_readl; intros; exact I
        | apply only_handshake; intros; exact I
        | apply only_emit; exact I ].

Lemma suspend_port_arms env cfg k changed :
  step_inv (only (arms_wakeup (do_remote_wakeup cfg))) (suspend_port env cfg k changed).
Proof.
  unfold suspend_port, ehci_writel, call.
  only_walk; try no_port_write.
  all: apply only_emit; clear; split_ifs; unfold arms_wakeup; (split; [ masked | ]).
  all: try solve [ masked ].
  all: repeat split; tst_done.
Qed.

Lemma suspend_ports_arms env cfg (n : nat) :
  forall changed,
    step_inv (only (arms_wakeup (do_remote_wakeup cfg))) (suspend_ports env cfg n changed).
Proof.
  induction n as [|k IH]; intros changed; cbn [suspend_ports].
  - apply (inv_ret _ (only_refl _)).
  - apply (inv_bind _ (only_trans _)); [ apply suspend_port_arms | intros c; apply IH ].
Qed.

Lemma enter_phy_low_power_only P env (n : nat) :
  (forall e, (forall w p, e <> ev_writel w (port_status p)) -> P e) ->
  step_inv (only P) (enter_phy_low_power env n).
Proof.
  intros HP. induction n as [|k IH]; cbn [enter_phy_low_power].
  - apply (inv_ret _ (only_refl _)).
  - unfold ehci_writel. only_walk; try exact IH.
    all: first [ apply only_readl; intros | apply only_emit ]; apply HP; intros; discriminate.
Qed.

Lemma bus_suspend_locked_arms env cfg :
  step_inv (only (arms_wakeup (do_remote_wakeup cfg))) (bus_suspend_locked env cfg).
Proof.
  unfold bus_suspend_locked, ehci_writel, call.
  only_walk; try no_port_write.
  all: first [ apply suspend_ports_arms
             | apply only_msleep; exact I
             | apply enter_phy_low_power_only; intros [] H; try exact I;
               match goal with r : reg |- _ => destruct r; try exact I end;
               exfalso; eapply H; reflexivity ].
Qed.

(** X13: whatever [ehci_bus_suspend] writes to a port status register
    acknowledges no change latch.  With remote wakeup enabled for the root
    hub the value has the over-current wake bit set and, of the disconnect
    and connect wake bits, the one that fits the connect bit it carries; with
    remote wakeup disabled it has no wake bit set. *)
Theorem bus_suspend_arms_wakeup env cfg s :
  only (arms_wakeup (do_remote_wakeup cfg)) s (snd (ehci_bus_suspend env cfg s)).
Proof.
  unfold ehci_bus_suspend. cbv zeta.
  match goal with
  | |- only _ s (snd (match ?m s with _ => _ end)) =>
      assert (H : step_inv (only (arms_wakeup (do_remote_wakeup cfg))) m);
      [| destruct (m s) as [[r|r] s'] eqn:E; exact (H _ _ _ E) ]
  end.
  unfold call. only_walk; try no_port_write.
  all: first [ apply only_msleep; exact I | apply bus_suspend_locked_arms ].
Qed.

(** ** [set_owner] *)

Lemma reads_so_far_app (a b : list event) :
  reads_so_far (a ++ b) = (reads_so_far a + reads_so_far b)%nat.
Proof. unfold reads_so_far. now rewrite filter_app, length_app. Qed.

Lemma writes_in_app (a b : list event) : writes_in (a ++ b) = (writes_in a + writes_in b)%nat.
Proof. unfold writes_in. now rewrite filter_app, length_app. Qed.

Lemma sleeps_in_app (a b : list event) : sleeps_in (a ++ b) = (sleeps_in a + sleeps_in b)%nat.
Proof. unfold sleeps_in. now rewrite filter_app, length_app. Qed.

(** The owner bit of what [set_owner] writes. *)
Lemma set_owner_flips (v new_owner : Z) :
  new_owner = 0 \/ new_owner = PORT_OWNER ->
  (Z.land v PORT_OWNER =? u32 new_owner) = false ->
  Z.land (Z.land (Z.lxor v PORT_OWNER) (Z.lnot (Z.lor PORT_PE PORT_RWC_BITS))) PORT_OWNER
  = new_owner.
Proof.
  intros Hno Hne. apply Z.eqb_neq in Hne.
  change PORT_OWNER with (Z.shiftl 1 13) in *.
  rewrite land_pow2 in * by lia.
  rewrite Z.land_spec, Z.lxor_spec.
  change (Z.testbit (Z.shiftl 1 13) 13) with true.
  change (Z.testbit (Z.lnot (Z.lor PORT_PE PORT_RWC_BITS)) 13) with true.
  destruct (Z.testbit v 13); simpl;
    destruct Hno as [->| ->]; try reflexivity; now contradiction Hne.
Qed.

Lemma set_owner_tries_spec env q new_owner (try : nat) :
  new_owner = 0 \/ new_owner = PORT_OWNER ->
  forall s,
  exists evs s',
    set_owner_tries env try (port_status q) new_owner s = (Done tt, s') /\
    log s' = evs ++ log s /\ same_tracker s s' /\
    Forall (hands_over q new_owner) evs /\
    (reads_so_far evs <= try)%nat /\ (writes_in evs <= try)%nat /\
    (sleeps_in evs <= pred try)%nat /\
    (let v := u32 (hw_read env (log s) (port_status q)) in
     (try <> 0)%nat ->
     Z.land v PORT_OWNER = new_owner \/ Z.land v (Z.lor PORT_OWNER PORT_CONNECT) = 0 ->
     s' = set_log (ev_readl (port_status q) v :: log s) s).
Proof.
  intros Hno. assert (Hu : u32 new_owner = new_owner) by (destruct Hno as [->| ->]; reflexivity).
  induction try as [|k IH]; intros s.
  - exists [], s. split; [ reflexivity |]. split; [ reflexivity |].
    split; [ apply same_tracker_refl |]. split; [ constructor |].
    repeat split; try apply Nat.le_refl. intros v H. now contradiction H.
  - cbn [set_owner_tries]. unfold bind at 1. unfold ehci_readl at 1. cbv zeta.
    set (v := u32 (hw_read env (log s) (port_status q))).
    set (s1 := set_log (ev_readl (port_status q) v :: log s) s).
    destruct ((Z.land v PORT_OWNER =? u32 new_owner)
              || (Z.land v (Z.lor PORT_OWNER PORT_CONNECT) =? 0)) eqn:Ec.
    + exists [ev_readl (port_status q) v], s1.
      split; [ reflexivity |]. split; [ reflexivity |].
      split; [ apply same_tracker_log |].
      split; [ repeat constructor |].
      unfold reads_so_far, writes_in, sleeps_in.
      split; [ simpl; lia |]. split; [ simpl; lia |]. split; [ simpl; lia |].
      intros _ _. reflexivity.
    + apply orb_false_iff in Ec. destruct Ec as (Eo & Ez).
      set (w := Z.land (Z.lxor v PORT_OWNER) (Z.lnot (Z.lor PORT_PE PORT_RWC_BITS))).
      assert (Hw : hands_over q new_owner (ev_writel w (port_status q))).
      { split; [ reflexivity |]. split; [ now apply set_owner_flips |].
        subst w. apply masked_land_r. reflexivity. }
      unfold bind at 1. unfold ehci_writel, emit, modify at 1.
      fold s1.
      set (s2 := set_log (ev_writel w (port_status q) :: log s1) s1).
      unfold bind at 1.
      destruct (1 <? Z.of_nat (S k)) eqn:E1; unfold when.
      * unfold msleep, call, emit, bind at 1, modify.
        set (s3 := set_jiffies _ _).
        destruct (IH s3) as (evs & s' & E & L & T & F & R & W & S & _).
        exists (evs ++ [ev_call (x_msleep 5); ev_writel w (port_status q);
                        ev_readl (port_status q) v]), s'.
        split; [ exact E |].
        split; [ rewrite L; subst s3 s2 s1; simpl; now rewrite <- app_assoc |].
        split.
        { eapply same_tracker_trans; [| exact T ]. subst s3 s2 s1.
          unfold same_tracker. simpl. tauto. }
        split.
        { apply Forall_app. split; [ exact F |].
          constructor; [ reflexivity |]. constructor; [ exact Hw |].
          repeat constructor. }
        rewrite reads_so_far_app, writes_in_app, sleeps_in_app. simpl.
        assert (Hk : (k <> 0)%nat) by (apply Z.ltb_lt in E1; lia).
        unfold reads_so_far, writes_in, sleeps_in in *. simpl.
        split; [ lia |]. split; [ lia |]. split; [ lia |].
        intros _ [H|H]; [ rewrite <- Hu in H; apply Z.eqb_neq in Eo; now contradiction Eo
                        | apply Z.eqb_neq in Ez; now contradiction Ez ].
      * unfold ret at 1.
        destruct (IH s2) as (evs & s' & E & L & T & F & R & W & S & _).
        exists (evs ++ [ev_writel w (port_status q); ev_readl (port_status q) v]), s'.
        split; [ exact E |].
        split; [ rewrite L; subst s2 s1; simpl; now rewrite <- app_assoc |].
        split.
        { eapply same_tracker_trans; [| exact T ]. subst s2 s1.
          unfold same_tracker. simpl. tauto. }
        split.
        { apply Forall_app. split; [ exact F |].
          constructor; [ exact Hw |]. repeat constructor. }
        rewrite reads_so_far_app, writes_in_app, sleeps_in_app. simpl.
        unfold reads_so_far, writes_in, sleeps_in in *. simpl.
        split; [ lia |]. split; [ lia |]. split; [ lia |].
        intros _ [H|H]; [ rewrite <- Hu in H; apply Z.eqb_neq in Eo; now contradiction Eo
                        | apply Z.eqb_neq in Ez; now contradiction Ez ].
Qed.

(** X18: [set_owner], asked for one of the two values the owner bit can
    take, runs to its end with at most four reads and four writes of the
    port's register and three sleeps of 5 ms, and does nothing else.  Every
    write carries the owner bit as asked for, with the enable bit and the
    change latches clear, and the tracker is left alone.  When the first read
    shows the owner bit already as asked for, or neither owner nor
    connection, that read is all it does. *)
Theorem set_owner_is_bounded env portnum new_owner s :
  new_owner = 0 \/ new_owner = PORT_OWNER ->
  let v := u32 (hw_read env (log s) (port_status portnum)) in
  exists evs s',
    set_owner env portnum new_owner s = (Done tt, s') /\
    log s' = evs ++ log s /\ same_tracker s s' /\
    Forall (hands_over portnum new_owner) evs /\
    (reads_so_far evs <= 4)%nat /\ (writes_in evs <= 4)%nat /\ (sleeps_in evs <= 3)%nat /\
    (Z.land v PORT_OWNER = new_owner \/ Z.land v (Z.lor PORT_OWNER PORT_CONNECT) = 0 ->
     s' = set_log (ev_readl (port_status portnum) v :: log s) s).
Proof.
  intros Hno v. unfold set_owner.
  destruct (set_owner_tries_spec env portnum new_owner 4 Hno s)
    as (evs & s' & E & L & T & F & R & W & S & H1).
  exists evs, s'. repeat (split; [ assumption |]).
  intros H. apply H1; [ discriminate | exact H ].
Qed.

(** X18 for handing port index 0 to the companion while the register keeps
    reading connected, enabled and not owned. *)
Lemma set_owner_is_bounded_witness :
  exists evs s',
    set_owner (steady 0x1005 0) 0 PORT_OWNER idle_state = (Done tt, s') /\
    log s' = evs ++ log idle_state /\
    Forall (hands_over 0 PORT_OWNER) evs /\ (writes_in evs <= 4)%nat.
Proof.
  destruct (set_owner_is_bounded (steady 0x1005 0) 0 PORT_OWNER idle_state
              ltac:(right; reflexivity))
    as (evs & s' & E & L & _ & F & _ & W & _).
  exists evs, s'. repeat (split; [ assumption |]). exact W.
Defined.


(** ** [ehci_adjust_port_wakeup_flags] *)

Lemma set_log_cons_app (e : event) (evs : list event) (s : ehci_hcd) :
  set_log (evs ++ log (set_log (e :: log s) s)) (set_log (e :: log s) s)
  = set_log ((evs ++ [e]) ++ log s) s.
Proof. unfold set_log; simpl. now rewrite <- app_assoc. Qed.

Lemma leave_phy_low_power_spec env (n : nat) :
  forall s,
  exists evs,
    leave_phy_low_power env n s = (Done tt, set_log (evs ++ log s) s) /\
    forall b, Forall (arms_wakeup b) evs.
Proof.
  induction n as [|k IH]; intros s.
  - exists []. rewrite set_log_nil. split; [ reflexivity | constructor ].
  - cbn [leave_phy_low_power]. unfold bind at 1. unfold ehci_readl at 1. cbv zeta.
    unfold bind at 1. unfold ehci_writel, emit, modify at 1.
    match goal with
    | |- context [leave_phy_low_power env k ?st] => destruct (IH st) as (evs & E & F)
    end.
    rewrite E. eexists (evs ++ [_; _]). split.
    + f_equal. unfold set_log; simpl. now rewrite <- app_assoc.
    + intros b. apply Forall_app. split; [ apply F | repeat constructor ].
Qed.

Lemma reenter_phy_low_power_spec env (n : nat) :
  forall s,
  exists evs,
    reenter_phy_low_power env n s = (Done tt, set_log (evs ++ log s) s) /\
    forall b, Forall (arms_wakeup b) evs.
Proof.
  induction n as [|k IH]; intros s.
  - exists []. rewrite set_log_nil. split; [ reflexivity | constructor ].
  - cbn [reenter_phy_low_power]. unfold bind at 1. unfold ehci_readl at 1. cbv zeta.
    unfold bind at 1. unfold ehci_writel, emit, modify at 1.
    match goal with
    | |- context [reenter_phy_low_power env k ?st] => destruct (IH st) as (evs & E & F)
    end.
    rewrite E. eexists (evs ++ [_; _]). split.
    + f_equal. unfold set_log; simpl. now rewrite <- app_assoc.
    + intros b. apply Forall_app. split; [ apply F | repeat constructor ].
Qed.

(** What the loop writes for a register value [v]. *)
Lemma adjusted_flags_arm (suspending : bool) (v : Z) :
  let t1 := Z.land v (Z.lnot PORT_RWC_BITS) in
  let t2 := Z.land t1 (Z.lnot PORT_WAKE_BITS) in
  forall p,
  arms_wakeup (negb suspending)
    (ev_writel (if negb suspending then
                  if tst t1 PORT_CONNECT
                  then Z.lor t2 (Z.lor PORT_WKOC_E PORT_WKDISC_E)
                  else Z.lor t2 (Z.lor PORT_WKOC_E PORT_WKCONN_E)
                else t2) (port_status p)).
Proof.
  intros t1 t2 p. subst t1 t2. destruct suspending; cbn [negb]; split_ifs;
    unfold arms_wakeup; (split; [ masked |]); try solve [ masked ];
    repeat split; tst_done.
Qed.

Lemma adjust_wakeup_flags_spec env suspending (n : nat) :
  forall s,
  exists evs,
    adjust_wakeup_flags env suspending n s = (Done tt, set_log (evs ++ log s) s) /\
    Forall (arms_wakeup (negb suspending)) evs /\
    (forall p, 0 <= p < Z.of_nat n -> exists w, In (ev_writel w (port_status p)) evs).
Proof.
  induction n as [|k IH]; intros s.
  - exists []. rewrite set_log_nil. split; [ reflexivity |]. split; [ constructor |].
    intros p Hp. simpl in Hp. lia.
  - cbn [adjust_wakeup_flags]. unfold bind at 1. unfold ehci_readl at 1. cbv zeta.
    unfold bind at 1. unfold ehci_writel, emit, modify at 1.
    match goal with
    | |- context [adjust_wakeup_flags env suspending k ?st] =>
        destruct (IH st) as (evs & E & F & W)
    end.
    rewrite E. eexists (evs ++ [_; _]). split; [| split ].
    + f_equal. unfold set_log; simpl. now rewrite <- app_assoc.
    + apply Forall_app. split; [ exact F |].
      constructor; [ apply adjusted_flags_arm | repeat constructor ].
    + intros p Hp. destruct (Z.eq_dec p (Z.of_nat k)) as [->|Hne].
      * eexists. apply in_or_app. right. left. reflexivity.
      * destruct (W p ltac:(lia)) as (w & Hin). exists w. apply in_or_app. now left.
Qed.

Lemma shows_port_change_app (n : Z) (a b c : list event) :
  shows_port_change n b -> shows_port_change n (a ++ b ++ c).
Proof.
  intros [(v & Hin & Hv) | (p & v & Hp & Hin & Hv)]; [ left | right ].
  - exists v. split; [| exact Hv ]. apply in_or_app. right. apply in_or_app. now left.
  - exists p, v. split; [ exact Hp |]. split; [| exact Hv ].
    apply in_or_app. right. apply in_or_app. now left.
Qed.

Lemma is_read_arms (b : bool) (evs : list event) :
  Forall is_read evs -> Forall (arms_wakeup b) evs.
Proof.
  apply Forall_impl. intros [r v|w r| |]; simpl; try contradiction. intros _. exact I.
Qed.

(** X16: [ehci_adjust_port_wakeup_flags] runs to its end and leaves the
    tracker alone.  When remote wakeup is disabled for the root hub, or
    wakeup is enabled for the controller, it does nothing at all.  Otherwise
    every port register is written; no value written acknowledges a change
    latch; when suspending it has all wake bits clear, when resuming it has
    the over-current wake bit and the disconnect or connect wake bit that
    fits its connect bit.  A resume of the root hub is asked for only when
    resuming and only after a read that shows a port change. *)
Theorem adjust_port_wakeup_flags_rearms env cfg suspending do_wakeup s :
  exists resume evs s',
    ehci_adjust_port_wakeup_flags env cfg suspending do_wakeup s = (Done resume, s') /\
    log s' = evs ++ log s /\ same_tracker s s' /\
    Forall (arms_wakeup (negb suspending)) evs /\
    (do_remote_wakeup cfg = false \/ do_wakeup = true -> s' = s /\ resume = false) /\
    (do_remote_wakeup cfg = true -> do_wakeup = false ->
     forall p, 0 <= p < HCS_N_PORTS (hcs_params cfg) ->
       exists w, In (ev_writel w (port_status p)) evs) /\
    (resume = true ->
     suspending = false /\ shows_port_change (HCS_N_PORTS (hcs_params cfg)) evs).
Proof.
  pose proof (HCS_N_PORTS_range (hcs_params cfg)) as Hn.
  unfold ehci_adjust_port_wakeup_flags.
  destruct (negb (do_remote_wakeup cfg) || do_wakeup) eqn:Hskip.
  { exists false, [], s. split; [ reflexivity |]. split; [ reflexivity |].
    split; [ apply same_tracker_refl |]. split; [ constructor |].
    split; [ intros _; now split |]. split; [| discriminate ].
    intros Hw Hd. rewrite Hw, Hd in Hskip. discriminate. }
  cbv zeta. set (n := Z.to_nat (HCS_N_PORTS (hcs_params cfg))).
  (* leaving the low-power mode *)
  assert (H1 : exists e1 s1,
             when (has_hostpc cfg) (leave_phy_low_power env n ;; msleep env 5) s = (Done tt, s1)
             /\ log s1 = e1 ++ log s /\ same_tracker s s1 /\
             forall b, Forall (arms_wakeup b) e1).
  { destruct (has_hostpc cfg); unfold when.
    - destruct (leave_phy_low_power_spec env n s) as (e & E & F).
      unfold bind at 1. rewrite E.
      eexists (_ :: e), _. split; [ reflexivity |]. split; [ reflexivity |].
      split; [ unfold same_tracker; simpl; tauto |].
      intros b. constructor; [ exact I | apply F ].
    - exists [], s. split; [ reflexivity |]. split; [ reflexivity |].
      split; [ apply same_tracker_refl | constructor ]. }
  destruct H1 as (e1 & s1 & E1 & L1 & T1 & F1).
  unfold bind at 1. rewrite E1.
  destruct (adjust_wakeup_flags_spec env suspending n s1) as (e2 & E2 & F2 & W2).
  unfold bind at 1. rewrite E2. set (s2 := set_log (e2 ++ log s1) s1).
  assert (H3 : exists e3,
             when (has_hostpc cfg) (reenter_phy_low_power env n) s2
             = (Done tt, set_log (e3 ++ log s2) s2) /\
             forall b, Forall (arms_wakeup b) e3).
  { destruct (has_hostpc cfg); unfold when.
    - apply reenter_phy_low_power_spec.
    - exists []. rewrite set_log_nil. split; [ reflexivity | constructor ]. }
  destruct H3 as (e3 & E3 & F3).
  unfold bind at 1. rewrite E3. set (s3 := set_log (e3 ++ log s2) s2).
  assert (T3 : same_tracker s s3).
  { eapply same_tracker_trans; [ exact T1 |]. subst s3 s2. unfold same_tracker. simpl. tauto. }
  assert (L3 : log s3 = (e3 ++ e2 ++ e1) ++ log s).
  { subst s3 s2. simpl. rewrite L1. now rewrite <- !app_assoc. }
  assert (W3 : do_remote_wakeup cfg = true -> do_wakeup = false ->
               forall post p, 0 <= p < HCS_N_PORTS (hcs_params cfg) ->
                 exists w, In (ev_writel w (port_status p)) (post ++ e3 ++ e2 ++ e1)).
  { intros _ _ post p Hp. destruct (W2 p) as (w & Hin); [ subst n; lia |].
    exists w. apply in_or_app. right. apply in_or_app. right. apply in_or_app. now left. }
  clearbody s3.
  destruct suspending; cbn [negb].
  - exists false, (e3 ++ e2 ++ e1), s3. split; [ reflexivity |]. split; [ exact L3 |].
    split; [ exact T3 |].
    split; [ apply Forall_app; split; [ apply F3 | apply Forall_app; split; [ exact F2 | apply F1 ] ] |].
    split.
    { intros [Hw|Hd]; [ rewrite Hw in Hskip | rewrite Hd, orb_true_r in Hskip ]; discriminate. }
    split; [ intros Hw Hd; exact (W3 Hw Hd []) | discriminate ].
  - destruct (ehci_port_change_spec env cfg s3) as (r & e4 & E4 & F4 & Hr & Hc & _).
    unfold bind at 1. rewrite E4. unfold ret.
    exists (negb (r =? 0)), (e4 ++ e3 ++ e2 ++ e1), (set_log (e4 ++ log s3) s3).
    split; [ reflexivity |].
    split; [ simpl; rewrite L3; now rewrite <- !app_assoc |].
    split; [ eapply same_tracker_trans; [ exact T3 | unfold same_tracker; simpl; tauto ] |].
    split.
    { apply Forall_app. split; [ now apply is_read_arms |].
      apply Forall_app; split; [ apply F3 | apply Forall_app; split; [ exact F2 | apply F1 ] ]. }
    split.
    { intros [Hw|Hd]; [ rewrite Hw in Hskip | rewrite Hd, orb_true_r in Hskip ]; discriminate. }
    split; [ intros Hw Hd; exact (W3 Hw Hd e4) |].
    intros Hres. split; [ reflexivity |].
    assert (Hr1 : r = 1).
    { destruct Hr as [->| ->]; [ discriminate | reflexivity ]. }
    apply (shows_port_change_app _ [] e4 (e3 ++ e2 ++ e1)). now apply Hc.
Qed.

(** ** The ports in [ehci_bus_resume] *)

Lemma resume_leave_phy_low_power_spec env (n : nat) :
  forall s,
  exists evs,
    resume_leave_phy_low_power env n s = (Done tt, set_log (evs ++ log s) s) /\
    Forall acks_no_latch evs /\ ~ In (ev_call (x_msleep 20)) evs.
Proof.
  induction n as [|k IH]; intros s.
  - exists []. rewrite set_log_nil. split; [ reflexivity |]. split; [ constructor | intros [] ].
  - cbn [resume_leave_phy_low_power]. unfold bind at 1. unfold gets at 1.
    destruct (test_bit (Z.of_nat k) (bus_suspended s)).
    + unfold bind at 1. unfold bind at 1. unfold ehci_readl at 1. cbv zeta.
      unfold ehci_writel, emit, modify at 1.
      match goal with
      | |- context [resume_leave_phy_low_power env k ?st] => destruct (IH st) as (evs & E & F & N)
      end.
      rewrite E. eexists (evs ++ [_; _]). split; [| split ].
      * f_equal. unfold set_log; simpl. now rewrite <- app_assoc.
      * apply Forall_app. split; [ exact F | repeat constructor ].
      * intros Hin. apply in_app_or in Hin. destruct Hin as [Hin|[Hin|[Hin|[]]]];
          [ now apply N | discriminate | discriminate ].
    + unfold bind at 1. unfold ret at 1. apply IH.
Qed.

Lemma resume_suspended_ports_spec env (n : nat) :
  forall rn s,
  exists rn' evs,
    resume_suspended_ports env n rn s = (Done rn', set_log (evs ++ log s) s) /\
    Forall acks_no_latch evs /\ ~ In (ev_call (x_msleep 20)) evs /\
    (forall p, 0 <= p < Z.of_nat n ->
       exists v w,
         In (ev_readl (port_status p) v) evs /\ In (ev_writel w (port_status p)) evs /\
         Z.land w PORT_WAKE_BITS = 0 /\
         tst w PORT_RESUME
         = tst v PORT_RESUME || (test_bit p (bus_suspended s) && tst v PORT_SUSPEND) /\
         test_bit p rn'
         = test_bit p rn || (test_bit p (bus_suspended s) && tst v PORT_SUSPEND)) /\
    (forall p, ~ 0 <= p < Z.of_nat n -> test_bit p rn' = test_bit p rn).
Proof.
  induction n as [|k IH]; intros rn s.
  - exists rn, []. rewrite set_log_nil. split; [ reflexivity |]. split; [ constructor |].
    split; [ intros [] |]. split; [ intros p Hp; simpl in Hp; lia | reflexivity ].
  - cbn [resume_suspended_ports]. unfold bind at 1. unfold ehci_readl at 1. cbv zeta.
    set (p0 := Z.of_nat k).
    set (v := u32 (hw_read env (log s) (port_status p0))).
    set (temp := Z.land v (Z.lnot (Z.lor PORT_RWC_BITS PORT_WAKE_BITS))).
    set (s1 := set_log (ev_readl (port_status p0) v :: log s) s).
    unfold bind at 1. unfold gets at 1.
    change (bus_suspended s1) with (bus_suspended s).
    assert (Ht : tst temp PORT_SUSPEND = tst v PORT_SUSPEND) by (subst temp; tst_done).
    assert (Hr : tst temp PORT_RESUME = tst v PORT_RESUME) by (subst temp; tst_done).
    rewrite Ht.
    set (need := test_bit p0 (bus_suspended s) && tst v PORT_SUSPEND).
    set (w := if need then Z.lor temp PORT_RESUME else temp).
    assert (Hw1 : Z.land w PORT_RWC_BITS = 0)
      by (subst w temp; destruct need; masked).
    assert (Hw2 : Z.land w PORT_WAKE_BITS = 0)
      by (subst w temp; destruct need; masked).
    assert (Hw3 : tst w PORT_RESUME = tst v PORT_RESUME || need).
    { subst w. destruct need; [| now rewrite orb_false_r ].
      rewrite tst_lor_l. change (tst PORT_RESUME PORT_RESUME) with true.
      now rewrite !orb_true_r. }
    assert (E : exists rn1,
               (if need
                then ehci_writel (Z.lor temp PORT_RESUME) (port_status p0) ;;
                     resume_suspended_ports env k (set_bit p0 rn)
                else ehci_writel temp (port_status p0) ;;
                     resume_suspended_ports env k rn) s1
               = resume_suspended_ports env k rn1
                   (set_log (ev_writel w (port_status p0) :: log s1) s1) /\
               forall p, test_bit p rn1 = test_bit p rn || ((p =? p0) && need)).
    { subst w. destruct need.
      - exists (set_bit p0 rn). split; [ reflexivity |]. intros p.
        rewrite test_bit_set_bit by (subst p0; lia). rewrite andb_true_r. apply orb_comm.
      - exists rn. split; [ reflexivity |]. intros p. now rewrite andb_false_r, orb_false_r. }
    destruct E as (rn1 & -> & Hrn1).
    set (s2 := set_log (ev_writel w (port_status p0) :: log s1) s1).
    destruct (IH rn1 s2) as (rn' & evs & E & F & N & P & O).
    exists rn', (evs ++ [ev_writel w (port_status p0); ev_readl (port_status p0) v]).
    split; [ rewrite E; f_equal; unfold set_log; simpl; now rewrite <- app_assoc |].
    split; [ apply Forall_app; split; [ exact F | repeat constructor; exact Hw1 ] |].
    split.
    { intros Hin. apply in_app_or in Hin. destruct Hin as [Hin|[Hin|[Hin|[]]]];
        [ now apply N | discriminate | discriminate ]. }
    split.
    + intros p Hp. destruct (Z.eq_dec p p0) as [->|Hne].
      * exists v, w. split; [ apply in_or_app; right; right; now left |].
        split; [ apply in_or_app; right; now left |].
        split; [ exact Hw2 |]. split; [ exact Hw3 |].
        rewrite O by (subst p0; lia). rewrite Hrn1, Z.eqb_refl. reflexivity.
      * destruct (P p ltac:(subst p0; lia)) as (x & y & I1 & I2 & Hy & Hx & Hb).
        exists x, y. split; [ apply in_or_app; now left |].
        split; [ apply in_or_app; now left |].
        split; [ exact Hy |]. split; [ exact Hx |].
        rewrite Hb, Hrn1. apply Z.eqb_neq in Hne. rewrite Hne. simpl.
        now rewrite orb_false_r.
    + intros p Hp. rewrite O by (subst p0; lia). rewrite Hrn1.
      assert (Hne : (p =? p0) = false) by (apply Z.eqb_neq; subst p0; lia).
      rewrite Hne. simpl. apply orb_false_r.
Qed.

Lemma stop_resume_signaling_spec env (n : nat) (rn : Z) :
  forall s,
  exists evs,
    stop_resume_signaling env n rn s = (Done tt, set_log (evs ++ log s) s) /\
    Forall acks_no_latch evs /\ ~ In (ev_call (x_msleep 20)) evs /\
    (forall p w, In (ev_writel w (port_status p)) evs ->
                 test_bit p rn = true /\ tst w PORT_RESUME = false) /\
    (forall p, 0 <= p < Z.of_nat n -> test_bit p rn = true ->
               exists w, In (ev_writel w (port_status p)) evs).
Proof.
  induction n as [|k IH]; intros s.
  - exists []. rewrite set_log_nil. split; [ reflexivity |]. split; [ constructor |].
    split; [ intros [] |]. split; [ intros p w [] | intros p Hp; simpl in Hp; lia ].
  - cbn [stop_resume_signaling]. unfold bind at 1. unfold ehci_readl at 1. cbv zeta.
    set (p0 := Z.of_nat k).
    set (v := u32 (hw_read env (log s) (port_status p0))).
    set (s1 := set_log (ev_readl (port_status p0) v :: log s) s).
    set (w := Z.land v (Z.lnot (Z.lor PORT_RWC_BITS PORT_RESUME))).
    assert (Hw1 : Z.land w PORT_RWC_BITS = 0) by (subst w; masked).
    assert (Hw2 : tst w PORT_RESUME = false) by (subst w; tst_done).
    unfold bind at 1. destruct (test_bit p0 rn) eqn:Eb; unfold when.
    + unfold ehci_writel, emit, modify at 1.
      destruct (IH (set_log (ev_writel w (port_status p0) :: log s1) s1))
        as (evs & E & F & N & A & X).
      exists (evs ++ [ev_writel w (port_status p0); ev_readl (port_status p0) v]).
      split; [ rewrite E; f_equal; unfold set_log; simpl; now rewrite <- app_assoc |].
      split; [ apply Forall_app; split; [ exact F | repeat constructor; exact Hw1 ] |].
      split.
      { intros Hin. apply in_app_or in Hin. destruct Hin as [Hin|[Hin|[Hin|[]]]];
          [ now apply N | discriminate | discriminate ]. }
      split.
      * intros p x Hin. apply in_app_or in Hin.
        destruct Hin as [Hin|[Hin|[Hin|[]]]]; [ now apply A | | discriminate ].
        inversion Hin; subst. split; assumption.
      * intros p Hp Hb. destruct (Z.eq_dec p p0) as [->|Hne].
        -- exists w. apply in_or_app. right. now left.
        -- destruct (X p ltac:(subst p0; lia) Hb) as (x & Hin).
           exists x. apply in_or_app. now left.
    + unfold ret at 1.
      destruct (IH s1) as (evs & E & F & N & A & X).
      exists (evs ++ [ev_readl (port_status p0) v]).
      split; [ rewrite E; f_equal; unfold set_log; simpl; now rewrite <- app_assoc |].
      split; [ apply Forall_app; split; [ exact F | repeat constructor ] |].
      split.
      { intros Hin. apply in_app_or in Hin. destruct Hin as [Hin|[Hin|[]]];
          [ now apply N | discriminate ]. }
      split.
      * intros p x Hin. apply in_app_or in Hin.
        destruct Hin as [Hin|[Hin|[]]]; [ now apply A | discriminate ].
      * intros p Hp Hb. destruct (Z.eq_dec p p0) as [->|Hne].
        -- rewrite Eb in Hb. discriminate.
        -- destruct (X p ltac:(subst p0; lia) Hb) as (x & Hin).
           exists x. apply in_or_app. now left.
Qed.

Lemma test_bit_0 (p : Z) : test_bit p 0 = false.
Proof. unfold test_bit. apply Z.bits_0. Qed.

(** X17: the port part of [ehci_bus_resume] runs to its end, leaves the
    tracker alone and acknowledges no change latch.  Every port register is
    read, and the ports it resumes are exactly those recorded in
    [bus_suspended] whose register shows the suspend bit.  With none to
    resume it does not sleep 20 ms.  With some, on a controller without the
    resume quirk, each of them is written with the resume bit set before the
    20 ms sleep and with the resume bit clear after it. *)
Theorem bus_resume_ports_resumes_recorded env cfg resume_sof_bug s :
  exists rn evs s',
    bus_resume_ports env cfg resume_sof_bug s = (Done rn, s') /\
    log s' = evs ++ log s /\ same_tracker s s' /\
    Forall acks_no_latch evs /\
    (forall p, 0 <= p < HCS_N_PORTS (hcs_params cfg) ->
       exists v, In (ev_readl (port_status p) v) evs /\
                 test_bit p rn = test_bit p (bus_suspended s) && tst v PORT_SUSPEND) /\
    (forall p, ~ 0 <= p < HCS_N_PORTS (hcs_params cfg) -> test_bit p rn = false) /\
    (rn = 0 -> ~ In (ev_call (x_msleep 20)) evs) /\
    (rn <> 0 -> resume_sof_bug = false ->
     exists pre post,
       evs = post ++ ev_call (x_msleep 20) :: pre /\
       forall p, test_bit p rn = true ->
         (exists w, In (ev_writel w (port_status p)) pre /\ tst w PORT_RESUME = true) /\
         (exists w, In (ev_writel w (port_status p)) post /\ tst w PORT_RESUME = false)).
Proof.
  set (n := HCS_N_PORTS (hcs_params cfg)).
  pose proof (HCS_N_PORTS_range (hcs_params cfg)) as Hn. fold n in Hn.
  unfold bus_resume_ports. cbv zeta. fold n.
  unfold bind at 1. unfold gets at 1.
  (* leaving the low-power mode *)
  assert (H1 : exists e1 s1,
             when (negb (bus_suspended s =? 0) && has_hostpc cfg)
               (resume_leave_phy_low_power env (Z.to_nat n) ;; msleep env 5) s = (Done tt, s1)
             /\ log s1 = e1 ++ log s /\ same_tracker s s1 /\
             Forall acks_no_latch e1 /\ ~ In (ev_call (x_msleep 20)) e1).
  { destruct (negb (bus_suspended s =? 0) && has_hostpc cfg); unfold when.
    - destruct (resume_leave_phy_low_power_spec env (Z.to_nat n) s) as (e & E & F & N).
      unfold bind at 1. rewrite E.
      eexists (_ :: e), _. split; [ reflexivity |]. split; [ reflexivity |].
      split; [ unfold same_tracker; simpl; tauto |].
      split; [ constructor; [ exact I | exact F ] |].
      intros [Hin|Hin]; [ discriminate | now apply N ].
    - exists [], s. split; [ reflexivity |]. split; [ reflexivity |].
      split; [ apply same_tracker_refl |]. split; [ constructor | intros [] ]. }
  destruct H1 as (e1 & s1 & E1 & L1 & T1 & F1 & N1).
  unfold bind at 1. rewrite E1.
  destruct (resume_suspended_ports_spec env (Z.to_nat n) 0 s1)
    as (rn & e2 & E2 & F2 & N2 & P2 & O2).
  rewrite Z2Nat.id in P2, O2 by lia.
  unfold bind at 1. rewrite E2. set (s2 := set_log (e2 ++ log s1) s1).
  assert (Hbs : bus_suspended s1 = bus_suspended s) by (destruct T1 as (H & _); exact H).
  assert (T2 : same_tracker s s2).
  { eapply same_tracker_trans; [ exact T1 |]. subst s2. unfold same_tracker. simpl. tauto. }
  assert (L2 : log s2 = (e2 ++ e1) ++ log s).
  { subst s2. simpl. rewrite L1. now rewrite <- app_assoc. }
  assert (R2 : forall post p, 0 <= p < n ->
             exists v, In (ev_readl (port_status p) v) (post ++ e2 ++ e1) /\
                       test_bit p rn = test_bit p (bus_suspended s) && tst v PORT_SUSPEND).
  { intros post p Hp. destruct (P2 p Hp) as (v & w & I1 & _ & _ & _ & Hb).
    exists v. split; [ apply in_or_app; right; apply in_or_app; now left |].
    rewrite Hb, test_bit_0, Hbs. reflexivity. }
  assert (O : forall p, ~ 0 <= p < n -> test_bit p rn = false).
  { intros p Hp. rewrite O2 by exact Hp. apply test_bit_0. }
  clearbody s2.
  destruct (Z.eqb_spec rn 0) as [H0|Hne]; cbn [negb].
  - (* nothing to resume *)
    rewrite andb_false_r. unfold when.
    destruct (stop_resume_signaling_spec env (Z.to_nat n) rn s2) as (e3 & E3 & F3 & N3 & A3 & _).
    unfold bind at 1. unfold bind at 1. unfold ret at 1. rewrite E3.
    unfold bind, ehci_readl, ret.
    eexists rn, (_ :: e3 ++ e2 ++ e1), _. split; [ reflexivity |].
    split; [ simpl; rewrite L2; now rewrite <- !app_assoc |].
    split; [ eapply same_tracker_trans; [ exact T2 | unfold same_tracker; simpl; tauto ] |].
    split.
    { constructor; [ exact I |]. apply Forall_app. split; [ exact F3 |].
      apply Forall_app. split; assumption. }
    split; [ intros p Hp; apply (R2 (_ :: e3) p Hp) |].
    split; [ exact O |]. split; [| intros H; now contradiction H ].
    intros _ [Hin|Hin]; [ discriminate |].
    apply in_app_or in Hin. destruct Hin as [Hin|Hin]; [ now apply N3 |].
    apply in_app_or in Hin. destruct Hin as [Hin|Hin]; [ now apply N2 | now apply N1 ].
  - rewrite andb_true_r. destruct resume_sof_bug.
    + (* the port resumes by itself *)
      unfold bind, handshake, ehci_readl, ehci_writel, emit, modify, ret.
      eexists rn, (_ :: _ :: _ :: _ :: e2 ++ e1), _. split; [ reflexivity |].
      split; [ simpl; rewrite L2; reflexivity |].
      split; [ eapply same_tracker_trans; [ exact T2 | unfold same_tracker; simpl; tauto ] |].
      split.
      { repeat (constructor; [ exact I |]). apply Forall_app. split; assumption. }
      split; [ intros p Hp; apply (R2 [_; _; _; _] p Hp) |].
      split; [ exact O |]. split; [ intros H; now contradiction Hne | discriminate ].
    + unfold when. unfold bind at 1. unfold bind at 1.
      unfold msleep at 1, call, emit, bind at 1, modify.
      set (s3 := set_jiffies _ _).
      destruct (stop_resume_signaling_spec env (Z.to_nat n) rn s3) as (e3 & E3 & F3 & N3 & A3 & X3).
      rewrite Z2Nat.id in X3 by lia.
      rewrite E3. unfold bind, ehci_readl, ret.
      eexists rn, ((_ :: e3) ++ ev_call (x_msleep 20) :: e2 ++ e1), _.
      split; [ reflexivity |].
      split; [ subst s3; simpl; rewrite L2;
               repeat (rewrite <- app_assoc; simpl); reflexivity |].
      split.
      { eapply same_tracker_trans; [ exact T2 |]. subst s3. unfold same_tracker. simpl. tauto. }
      split.
      { apply Forall_app. split; [ constructor; [ exact I | exact F3 ] |].
        constructor; [ exact I |]. apply Forall_app. split; assumption. }
      split.
      { intros p Hp. destruct (R2 [] p Hp) as (v & Hin & Hb). exists v. split; [| exact Hb ].
        apply in_or_app. right. right. exact Hin. }
      split; [ exact O |]. split; [ intros H; now contradiction Hne |].
      intros _ _. eexists (e2 ++ e1), (_ :: e3).
      split; [ reflexivity |].
      intros p Hb.
      assert (Hp : 0 <= p < n).
      { destruct (Z_le_dec 0 p) as [H0|H0]; [ destruct (Z_lt_dec p n) as [H1|H1] |];
          [ lia | | ]; rewrite O in Hb by lia; discriminate. }
      split.
      * destruct (P2 p Hp) as (v & w & _ & I2 & _ & Hw & Hrn).
        exists w. split; [ apply in_or_app; now left |].
        rewrite Hw. rewrite test_bit_0 in Hrn. simpl in Hrn. rewrite <- Hrn, Hb.
        apply orb_true_r.
      * destruct (X3 p Hp Hb) as (w & Hin). exists w. split; [ now right |].
        now apply (A3 p w Hin).
Qed.

(** ** The hub descriptor *)

(** X1: the hub descriptor reports the port count of the controller, which
    is at most 15; its length is 7 plus the size of the two bitmaps that
    follow; the bitmaps are one byte each below 8 ports and two bytes each
    from 8 ports on, the first all zeros (every device removable) and the
    second all ones; the characteristics announce over-current reporting per
    port and, by the capability word, power switching per port or none. *)
Theorem hub_descriptor_layout cfg :
  let d := ehci_hub_descriptor cfg in
  let n := if bNbrPorts d <? 8 then 1%nat else 2%nat in
  bNbrPorts d = HCS_N_PORTS (hcs_params cfg) /\
  0 <= bNbrPorts d <= 15 /\
  bDescLength d = 7 + Z.of_nat (length (DeviceRemovable d)) /\
  DeviceRemovable d = repeat 0 n ++ repeat 0xff n /\
  Z.land (wHubCharacteristics d) 0x0008 = 0x0008 /\
  Z.land (wHubCharacteristics d) 0x0003
  = (if HCS_PPC (hcs_params cfg) then 0x0001 else 0x0002).
Proof.
  pose proof (HCS_N_PORTS_range (hcs_params cfg)) as Hn.
  unfold ehci_hub_descriptor. cbv zeta. cbn [bNbrPorts bDescLength DeviceRemovable wHubCharacteristics].
  set (p := HCS_N_PORTS (hcs_params cfg)) in *.
  split; [ reflexivity |]. split; [ exact Hn |].
  assert (Hd : p / 8 = if p <? 8 then 0 else 1).
  { destruct (Z.ltb_spec p 8); [ apply Z.div_small; lia |].
    symmetry. apply Z.div_unique with (r := p - 8); lia. }
  rewrite Hd.
  destruct (p <? 8); cbn [Z.to_nat Z.add Pos.to_nat Pos.iter_op Nat.add Pos.add].
  - split; [ reflexivity |].
    split; [ reflexivity |]. destruct (HCS_PPC (hcs_params cfg)); split; reflexivity.
  - split; [ reflexivity |].
    split; [ reflexivity |]. destruct (HCS_PPC (hcs_params cfg)); split; reflexivity.
Qed.

(** ** Requests that are not about a port *)

(** X2: a request that is not about a port (any request code other than
    ClearPortFeature, GetPortStatus and SetPortFeature) accesses no register
    and leaves the state as it was.  GetHubStatus answers a zero status and
    GetHubDescriptor the descriptor; ClearHubFeature and SetHubFeature
    succeed for the local-power and over-current selectors and stall for any
    other; an unknown request code stalls. *)
Theorem hub_requests_touch_nothing env cfg typeReq wValue wIndex s :
  0 <= typeReq < 2 ^ 16 ->
  typeReq <> ClearPortFeature -> typeReq <> GetPortStatus -> typeReq <> SetPortFeature ->
  let r := ehci_hub_control env cfg typeReq wValue wIndex s in
  snd r = s /\
  (typeReq = GetHubStatus -> fst r = (0, reply_hub_status 0)) /\
  (typeReq = GetHubDescriptor ->
   fst r = (0, reply_hub_descriptor (ehci_hub_descriptor cfg))) /\
  (typeReq = ClearHubFeature \/ typeReq = SetHubFeature ->
   fst r = (if (u16 wValue =? C_HUB_LOCAL_POWER) || (u16 wValue =? C_HUB_OVER_CURRENT)
            then 0 else - EPIPE, no_reply)) /\
  (typeReq <> GetHubStatus -> typeReq <> GetHubDescriptor ->
   typeReq <> ClearHubFeature -> typeReq <> SetHubFeature ->
   fst r = (- EPIPE, no_reply)).
Proof.
  intros Ht N1 N2 N3 r. subst r.
  unfold ehci_hub_control, hub_control_locked. rewrite (u16_small typeReq Ht).
  apply Z.eqb_neq in N1, N2, N3. rewrite N1, N2, N3.
  destruct (Z.eqb_spec typeReq ClearHubFeature) as [->|M1].
  { destruct ((u16 wValue =? C_HUB_LOCAL_POWER) || (u16 wValue =? C_HUB_OVER_CURRENT));
      (split; [ reflexivity |]); repeat split; try discriminate; try reflexivity;
      intros; exfalso; auto. }
  destruct (Z.eqb_spec typeReq GetHubDescriptor) as [->|M2].
  { split; [ reflexivity |]. repeat split; try discriminate; try reflexivity.
    - intros [H|H]; discriminate.
    - intros _ H. now contradiction H. }
  destruct (Z.eqb_spec typeReq GetHubStatus) as [->|M3].
  { split; [ reflexivity |]. repeat split; try discriminate; try reflexivity.
    - intros [H|H]; discriminate.
    - intros H. now contradiction H. }
  destruct (Z.eqb_spec typeReq SetHubFeature) as [->|M4].
  { destruct ((u16 wValue =? C_HUB_LOCAL_POWER) || (u16 wValue =? C_HUB_OVER_CURRENT));
      (split; [ reflexivity |]); repeat split; try discriminate; try reflexivity;
      intros; exfalso; auto. }
  split; [ reflexivity |].
  split; [ intros H; now contradiction M3 |].
  split; [ intros H; now contradiction M2 |].
  split; [ intros [H|H]; [ now contradiction M1 | now contradiction M4 ] |].
  reflexivity.
Qed.

(** X2 on a plain controller: GetHubStatus, and the unknown request 0x2300. *)
Lemma hub_requests_touch_nothing_witness :
  snd (ehci_hub_control (steady 0x1005 0) plain_config GetHubStatus 0 0 idle_state)
  = idle_state /\
  fst (ehci_hub_control (steady 0x1005 0) plain_config 0x2300 0 1 idle_state)
  = (- EPIPE, no_reply).
Proof.
  split.
  - apply (proj1 (hub_requests_touch_nothing (steady 0x1005 0) plain_config GetHubStatus 0 0
                    idle_state ltac:(vm_compute; split; [ discriminate | reflexivity ])
                    ltac:(discriminate) ltac:(discriminate) ltac:(discriminate))).
  - apply (proj2 (proj2 (proj2 (proj2
             (hub_requests_touch_nothing (steady 0x1005 0) plain_config 0x2300 0 1
                idle_state ltac:(vm_compute; split; [ discriminate | reflexivity ])
                ltac:(discriminate) ltac:(discriminate) ltac:(discriminate))))));
      discriminate.
Defined.

(** ** ClearPortFeature(SUSPEND) on a suspended port *)

(** X6: ClearPortFeature(SUSPEND) on an in-range port that the register shows
    suspended and not in reset, with selective suspend in use and no HNP for
    the port.  A port that is not enabled stalls after the one read.  An
    enabled port is written with the resume bit set and the change latches
    and wake bits clear, its deadline is set 20 ms ahead of the clock as the
    call leaves it, no other deadline and no flag changes; with the
    host-control registers the port first leaves the PHY low-power mode and
    the call sleeps 5 ms, without them the write is the only thing between
    the two reads and the clock does not move. *)
Theorem clear_suspend_starts_resume env cfg port s :
  1 <= port <= HCS_N_PORTS (hcs_params cfg) ->
  let idx := port - 1 in
  let status_reg := port_status idx in
  let temp := u32 (hw_read env (log s) status_reg) in
  let r := ehci_hub_control env cfg ClearPortFeature USB_PORT_FEAT_SUSPEND port s in
  tst temp PORT_RESET = false -> tst temp PORT_SUSPEND = true ->
  no_selective_suspend cfg = false ->
  CONFIG_USB_OTG cfg && (otg_port cfg =? port) && b_hnp_enable cfg = false ->
  (tst temp PORT_PE = false ->
   r = (- EPIPE, no_reply, set_log (ev_readl status_reg temp :: log s) s)) /\
  (tst temp PORT_PE = true ->
   let w := Z.lor (Z.land temp (Z.lnot (Z.lor PORT_RWC_BITS PORT_WAKE_BITS))) PORT_RESUME in
   exists s' c pre,
     r = (0, no_reply, s') /\
     same_flags s s' /\
     reset_done s' idx = deadline env s' 20 /\
     (forall q, q <> idx -> reset_done s' q = reset_done s q) /\
     tst w PORT_RESUME = true /\ Z.land w (Z.lor PORT_RWC_BITS PORT_WAKE_BITS) = 0 /\
     log s' = ev_readl reg_command c :: ev_writel w status_reg :: pre
                ++ ev_readl status_reg temp :: log s /\
     (has_hostpc cfg = false -> pre = [] /\ jiffies s' = jiffies s) /\
     (has_hostpc cfg = true ->
      jiffies s' = ulong (jiffies s + msecs_to_jiffies env 5) /\
      exists t1, pre = [ev_call (x_msleep 5);
                        ev_writel (Z.land t1 (Z.lnot HOSTPC_PHCD)) (hostpc idx);
                        ev_readl (hostpc idx) t1])).
Proof.
  intros Hr idx status_reg temp r Hrst Hsus Hnss Hhnp. subst r.
  rewrite (hub_control_clear_port_feature env cfg port Hr).
  rewrite clear_suspend_body. fold idx. fold status_reg. fold temp. cbv zeta.
  rewrite Hrst, Hnss. replace (idx + 1) with port by (subst idx; lia).
  rewrite Hhnp, Hsus. cbn [negb].
  assert (Hq : forall q v (f : Z -> Z), q <> idx -> (if q =? idx then v else f q) = f q)
    by (intros q v f Hne; apply Z.eqb_neq in Hne; now rewrite Hne).
  split.
  - intros Hpe. apply tst_false_iff in Hpe. rewrite Hpe. reflexivity.
  - intros Hpe.
    set (w := Z.lor (Z.land temp (Z.lnot (Z.lor PORT_RWC_BITS PORT_WAKE_BITS))) PORT_RESUME).
    assert (Hz : (Z.land temp PORT_PE =? 0) = false).
    { apply Z.eqb_neq. intros H. apply tst_false_iff in H. rewrite H in Hpe. discriminate. }
    rewrite Hz.
    assert (Hw1 : tst w PORT_RESUME = true).
    { subst w. rewrite tst_lor_l. change (tst PORT_RESUME PORT_RESUME) with true.
      apply orb_true_r. }
    assert (Hw2 : Z.land w (Z.lor PORT_RWC_BITS PORT_WAKE_BITS) = 0) by (subst w; masked).
    unfold hostpc_reg_of. destruct (port_facts cfg port Hr) as (_ & Hl & _).
    change 0xff with 255. rewrite Hl. fold idx.
    destruct (has_hostpc cfg).
    + unfold bind, ehci_readl, ehci_writel, msleep, call, emit, modify, ret.
      cbv beta iota zeta.
      eexists _, _, [_; _; _]. split; [ reflexivity |].
      split; [ unfold same_flags; simpl; tauto |].
      split; [ simpl; rewrite Z.eqb_refl; reflexivity |].
      split; [ intros q Hne; simpl; apply Hq; exact Hne |].
      split; [ exact Hw1 |]. split; [ exact Hw2 |].
      split; [ simpl; reflexivity |].
      split; [ discriminate |]. intros _. split; [ reflexivity |].
      eexists. reflexivity.
    + unfold bind, ehci_readl, ehci_writel, msleep, call, emit, modify, ret.
      cbv beta iota zeta.
      eexists _, _, []. split; [ reflexivity |].
      split; [ unfold same_flags; simpl; tauto |].
      split; [ simpl; rewrite Z.eqb_refl; reflexivity |].
      split; [ intros q Hne; simpl; apply Hq; exact Hne |].
      split; [ exact Hw1 |]. split; [ exact Hw2 |].
      split; [ simpl; reflexivity |].
      split; [ intros _; split; reflexivity | discriminate ].
Qed.

(** X6 on port 1, suspended and enabled, at time 1000: the register is
    written with the resume bit and the deadline is 1002. *)
Lemma clear_suspend_starts_resume_witness :
  exists s' c,
    ehci_hub_control (scripted [0x1085; 0x10001] 0) plain_config ClearPortFeature
      USB_PORT_FEAT_SUSPEND 1 idle_state = (0, no_reply, s') /\
    reset_done s' 0 = 1002 /\
    log s' = [ev_readl reg_command c; ev_writel 0x10c5 (port_status 0);
              ev_readl (port_status 0) 0x1085].
Proof.
  destruct (clear_suspend_starts_resume (scripted [0x1085; 0x10001] 0) plain_config 1 idle_state
              ltac:(vm_compute; split; discriminate)
              eq_refl eq_refl eq_refl eq_refl) as (_ & H).
  destruct (H eq_refl) as (s' & c & pre & E & _ & Hd & _ & _ & _ & L & Hpre & _).
  destruct (Hpre eq_refl) as (-> & Hj).
  exists s', c. split; [ exact E |]. split; [| exact L ].
  transitivity (deadline (scripted [0x1085; 0x10001] 0) s' 20); [ exact Hd |].
  unfold deadline. rewrite Hj. reflexivity.
Defined.

(** ** Acknowledging a change latch *)

(** X5: on an in-range port, ClearPortFeature for C_CONNECTION, C_ENABLE or
    C_OVER_CURRENT succeeds with exactly three register accesses: the port
    register is read, written back and the command register is read.  Of the
    three write-one-to-clear latches the value written has the one asked for
    and no other, and outside the latches and the LPM and device-address
    fields it is the value read. *)
Theorem clear_change_latch_is_selective env cfg port feature latch s :
  1 <= port <= HCS_N_PORTS (hcs_params cfg) ->
  (feature = USB_PORT_FEAT_C_CONNECTION /\ latch = PORT_CSC) \/
  (feature = USB_PORT_FEAT_C_ENABLE /\ latch = PORT_PEC) \/
  (feature = USB_PORT_FEAT_C_OVER_CURRENT /\ latch = PORT_OCC) ->
  let status_reg := port_status (port - 1) in
  let temp := u32 (hw_read env (log s) status_reg) in
  exists w c,
    ehci_hub_control env cfg ClearPortFeature feature port s
    = (0, no_reply,
       set_log (ev_readl reg_command c :: ev_writel w status_reg
                  :: ev_readl status_reg temp :: log s) s) /\
    Z.land w PORT_RWC_BITS = latch /\
    (forall m, Z.land m (Z.lor PORT_RWC_BITS (Z.lor PORT_LPM PORT_DEV_ADDR)) = 0 ->
               Z.land w m = Z.land temp m).
Proof.
  intros Hr Hf status_reg temp.
  rewrite (hub_control_clear_port_feature env cfg port Hr).
  assert (Hsel : forall t l, Z.land l PORT_RWC_BITS = l ->
            Z.land (Z.lor (Z.land t (Z.lnot PORT_RWC_BITS)) l) PORT_RWC_BITS = l).
  { intros t l Hl. rewrite Z.land_lor_distr_l, Hl.
    rewrite masked_land_r by reflexivity. reflexivity. }
  assert (Hkeep : forall l m, Z.land l PORT_RWC_BITS = l ->
            Z.land m (Z.lor PORT_RWC_BITS (Z.lor PORT_LPM PORT_DEV_ADDR)) = 0 ->
            Z.land (Z.lor (Z.land temp (Z.lnot PORT_RWC_BITS)) l) m = Z.land temp m).
  { intros l m Hl Hm. apply land_disjoint_lor in Hm. destruct Hm as (Hm & _).
    rewrite Z.land_lor_distr_l, land_lnot_disjoint by exact Hm.
    rewrite (land_sub_disjoint l PORT_RWC_BITS m Hl Hm). apply Z.lor_0_r. }
  destruct (has_lpm cfg) eqn:Hlpm.
  - destruct Hf as [(-> & ->) | Hf].
    + rewrite clear_connection_lpm_body by assumption. cbv zeta. fold status_reg. fold temp.
      eexists _, _. split; [ reflexivity |]. split; [ now apply Hsel |].
      intros m Hm. pose proof Hm as Hm'.
      apply land_disjoint_lor in Hm'. destruct Hm' as (Hm1 & Hm2).
      apply land_disjoint_lor in Hm2. destruct Hm2 as (Hm2 & Hm3).
      rewrite Z.land_lor_distr_l, land_lnot_disjoint by exact Hm1.
      rewrite !land_lnot_disjoint by assumption.
      rewrite (land_sub_disjoint PORT_CSC PORT_RWC_BITS m eq_refl Hm1). apply Z.lor_0_r.
    + assert (Hl : Z.land latch PORT_RWC_BITS = latch)
        by (destruct Hf as [(_ & ->)|(_ & ->)]; reflexivity).
      rewrite (clear_change_bit_body env cfg feature latch) by tauto.
      cbv zeta. fold status_reg. fold temp.
      eexists _, _. split; [ reflexivity |]. split; [ now apply Hsel |].
      intros m Hm. now apply Hkeep.
  - assert (Hl : Z.land latch PORT_RWC_BITS = latch)
      by (destruct Hf as [(_ & ->)|[(_ & ->)|(_ & ->)]]; reflexivity).
    rewrite (clear_change_bit_body env cfg feature latch) by tauto.
    cbv zeta. fold status_reg. fold temp.
    eexists _, _. split; [ reflexivity |]. split; [ now apply Hsel |].
    intros m Hm. now apply Hkeep.
Qed.

(** X5 on port 1 with all three latches pending: C_CONNECTION acknowledges
    the connect latch only. *)
Lemma clear_change_latch_is_selective_witness :
  exists w c,
    ehci_hub_control (scripted [0x100f; 0x10001] 0) plain_config ClearPortFeature
      USB_PORT_FEAT_C_CONNECTION 1 idle_state
    = (0, no_reply,
       set_log [ev_readl reg_command c; ev_writel w (port_status 0);
                ev_readl (port_status 0) 0x100f] idle_state) /\
    Z.land w PORT_RWC_BITS = PORT_CSC.
Proof.
  destruct (clear_change_latch_is_selective (scripted [0x100f; 0x10001] 0) plain_config 1
              USB_PORT_FEAT_C_CONNECTION PORT_CSC idle_state
              ltac:(vm_compute; split; discriminate)
              ltac:(left; split; reflexivity)) as (w & c & E & Hw & _).
  exists w, c. split; [ exact E | exact Hw ].
Defined.

(** ** Port power *)

Lemma set_port_feature_not_owned env cfg wValue ports selector idx status_reg hreg s :
  let v := u32 (hw_read env (log s) status_reg) in
  tst v PORT_OWNER = false ->
  set_port_feature env cfg wValue ports selector idx status_reg hreg s
  = bind (let temp := Z.land v (Z.lnot PORT_RWC_BITS) in
          if wValue =? USB_PORT_FEAT_SUSPEND then
            spf_suspend env cfg idx status_reg hreg temp
          else if wValue =? USB_PORT_FEAT_POWER then
            when (HCS_PPC (hcs_params cfg)) (ehci_writel (Z.lor temp PORT_POWER) status_reg) ;;
            ret 0
          else if wValue =? USB_PORT_FEAT_RESET then
            spf_reset env cfg idx status_reg temp
          else if wValue =? USB_PORT_FEAT_TEST then
            spf_test env cfg ports selector idx status_reg
          else goto_error)
      (fun retval => _ <- ehci_readl env reg_command ;; ret retval)
      (set_log (ev_readl status_reg v :: log s) s).
Proof.
  intros v H. unfold set_port_feature. unfold bind at 1. unfold ehci_readl at 1. cbv zeta.
  fold v. rewrite H. reflexivity.
Qed.

(** X7: on an in-range port ClearPortFeature(POWER) succeeds, whatever the
    debug port and the owner bit; SetPortFeature(POWER) succeeds on a port
    not owned by the companion, once past the debug-port gate.  Either writes
    the port register once when the controller switches power per port and
    not at all when it does not.  The value written has the power bit clear,
    respectively set, and acknowledges no change latch. *)
Theorem port_power_switching env cfg port s :
  1 <= port <= HCS_N_PORTS (hcs_params cfg) ->
  let status_reg := port_status (port - 1) in
  let vc := u32 (hw_read env (log s) status_reg) in
  let wc := Z.land vc (Z.lnot (Z.lor PORT_RWC_BITS PORT_POWER)) in
  let ppc := HCS_PPC (hcs_params cfg) in
  (exists c,
     ehci_hub_control env cfg ClearPortFeature USB_PORT_FEAT_POWER port s
     = (0, no_reply,
        set_log (ev_readl reg_command c
                   :: (if ppc then [ev_writel wc status_reg] else [])
                   ++ ev_readl status_reg vc :: log s) s)) /\
  tst wc PORT_POWER = false /\ Z.land wc PORT_RWC_BITS = 0 /\
  (forall s1,
     spf_debug_gate env cfg port s = (Done tt, s1) ->
     let vs := u32 (hw_read env (log s1) status_reg) in
     let ws := Z.lor (Z.land vs (Z.lnot PORT_RWC_BITS)) PORT_POWER in
     tst vs PORT_OWNER = false ->
     (exists c,
        ehci_hub_control env cfg SetPortFeature USB_PORT_FEAT_POWER port s
        = (0, no_reply,
           set_log (ev_readl reg_command c
                      :: (if ppc then [ev_writel ws status_reg] else [])
                      ++ ev_readl status_reg vs :: log s1) s1)) /\
     tst ws PORT_POWER = true /\ Z.land ws PORT_RWC_BITS = 0).
Proof.
  intros Hr status_reg vc wc ppc.
  split; [| split; [| split ] ].
  - rewrite (hub_control_clear_port_feature env cfg port Hr).
    unfold clear_port_feature. fold status_reg. fold ppc.
    change (u16 USB_PORT_FEAT_POWER =? USB_PORT_FEAT_ENABLE) with false.
    change (u16 USB_PORT_FEAT_POWER =? USB_PORT_FEAT_C_ENABLE) with false.
    change (u16 USB_PORT_FEAT_POWER =? USB_PORT_FEAT_SUSPEND) with false.
    change (u16 USB_PORT_FEAT_POWER =? USB_PORT_FEAT_C_SUSPEND) with false.
    change (u16 USB_PORT_FEAT_POWER =? USB_PORT_FEAT_POWER) with true.
    cbv iota. destruct ppc; eexists; reflexivity.
  - subst wc. tst_done.
  - subst wc. masked.
  - intros s1 Hg vs ws Hown. split; [| split ].
    + rewrite (hub_control_set_port_feature_0 env cfg port _ s Hr), Hg.
      fold status_reg. rewrite set_port_feature_not_owned by exact Hown.
      fold vs. fold ppc. cbv zeta.
      change (u16 USB_PORT_FEAT_POWER =? USB_PORT_FEAT_SUSPEND) with false.
      change (u16 USB_PORT_FEAT_POWER =? USB_PORT_FEAT_POWER) with true.
      cbv iota. destruct ppc; eexists; reflexivity.
    + subst ws. rewrite tst_lor_l. change (tst PORT_POWER PORT_POWER) with true.
      apply orb_true_r.
    + subst ws. masked.
Qed.

(** X7 on port 1 of a controller with per-port power switching: the port is
    powered; and on the enabled debug port of such a controller, where
    SetPortFeature is denied: the power is switched off all the same. *)
Lemma port_power_switching_witness :
  (exists c,
     ehci_hub_control (scripted [0x0005; 0x10001] 0) plain_config SetPortFeature
       USB_PORT_FEAT_POWER 1 idle_state
     = (0, no_reply,
        set_log [ev_readl reg_command c; ev_writel 0x1005 (port_status 0);
                 ev_readl (port_status 0) 0x0005] idle_state)) /\
  (exists c,
     ehci_hub_control (steady 0x10001005 0) (quirkless 0x100012 0 true true false false)
       ClearPortFeature USB_PORT_FEAT_POWER 1 idle_state
     = (0, no_reply,
        set_log [ev_readl reg_command c; ev_writel 0x10000005 (port_status 0);
                 ev_readl (port_status 0) 0x10001005] idle_state)).
Proof.
  split.
  - destruct (port_power_switching (scripted [0x0005; 0x10001] 0) plain_config 1 idle_state
                ltac:(vm_compute; split; discriminate)) as (_ & _ & _ & H).
    exact (proj1 (H idle_state eq_refl eq_refl)).
  - exact (proj1 (port_power_switching (steady 0x10001005 0)
                    (quirkless 0x100012 0 true true false false) 1 idle_state
                    ltac:(vm_compute; split; discriminate))).
Defined.

(** ** SetPortFeature(SUSPEND) *)

Ltac port_write :=
  first [ apply only_readl; intros; exact I
        | apply only_handshake; intros; exact I
        | apply only_msleep; exact I
        | apply only_emit; first [ exact I | red; masked ] ].

Lemma spf_suspend_acks_no_latch env cfg idx status_reg wIndex v :
  step_inv (only acks_no_latch)
    (spf_suspend env cfg idx status_reg (hostpc_reg_of cfg wIndex)
       (Z.land v (Z.lnot PORT_RWC_BITS))).
Proof.
  unfold spf_suspend, hostpc_reg_of, ehci_writel, call.
  destruct status_reg, (has_hostpc cfg); only_walk; port_write.
Qed.

Lemma spf_suspend_tracks env cfg idx status_reg hreg temp s r s' :
  spf_suspend env cfg idx status_reg hreg temp s = (Done r, s') ->
  no_selective_suspend cfg = false ->
  r = 0 /\ same_tracker (set_suspended_ports (set_bit idx (suspended_ports s)) s) s'.
Proof.
  intros E Hnss. unfold spf_suspend in E. rewrite Hnss in E.
  destruct ((Z.land temp PORT_PE =? 0) || negb (Z.land temp PORT_RESET =? 0));
    [ discriminate |].
  unfold ehci_writel, call, emit, msleep, when in E.
  destruct (susp_sof_bug cfg), (CONFIG_USB_OTG cfg && (otg_port cfg =? idx + 1) && b_hnp_enable cfg),
    hreg; cbn [negb] in E;
    unfold bind, modify, ret, ehci_readl, call, emit in E; inversion E; subst;
    (split; [ reflexivity | unfold same_tracker; simpl; tauto ]).
Qed.

(** X8: SetPortFeature(SUSPEND) on an in-range port not owned by the
    companion, past the debug-port gate.  With selective suspend disabled it
    succeeds having written nothing.  Otherwise a port that is not enabled or
    in reset stalls after the one read; an enabled port is recorded in
    [suspended_ports] and nothing else of the tracker changes, no write
    acknowledges a change latch, the register is written with the suspend bit
    unless the controller has the suspend quirk, and, when no HNP is started,
    with the disconnect and over-current wake bits set and the connect wake
    bit clear. *)
Theorem set_port_suspend env cfg port s s1 :
  1 <= port <= HCS_N_PORTS (hcs_params cfg) ->
  spf_debug_gate env cfg port s = (Done tt, s1) ->
  let idx := port - 1 in
  let status_reg := port_status idx in
  let v := u32 (hw_read env (log s1) status_reg) in
  let temp := Z.land v (Z.lnot PORT_RWC_BITS) in
  let armed := Z.lor (Z.land temp (Z.lnot PORT_WKCONN_E)) (Z.lor PORT_WKDISC_E PORT_WKOC_E) in
  let r := ehci_hub_control env cfg SetPortFeature USB_PORT_FEAT_SUSPEND port s in
  tst v PORT_OWNER = false ->
  (no_selective_suspend cfg = true ->
   exists c, r = (0, no_reply,
                  set_log (ev_readl reg_command c :: ev_readl status_reg v :: log s1) s1)) /\
  (no_selective_suspend cfg = false -> tst v PORT_PE = false \/ tst v PORT_RESET = true ->
   r = (- EPIPE, no_reply, set_log (ev_readl status_reg v :: log s1) s1)) /\
  (no_selective_suspend cfg = false -> tst v PORT_PE = true -> tst v PORT_RESET = false ->
   exists s',
     r = (0, no_reply, s') /\
     same_tracker (set_suspended_ports (set_bit idx (suspended_ports s1)) s1) s' /\
     only acks_no_latch s1 s' /\
     (susp_sof_bug cfg = false ->
      In (ev_writel (Z.lor temp PORT_SUSPEND) status_reg) (log s')) /\
     (CONFIG_USB_OTG cfg && (otg_port cfg =? port) && b_hnp_enable cfg = false ->
      In (ev_writel (if susp_sof_bug cfg then armed else Z.lor armed PORT_SUSPEND) status_reg)
        (log s'))).
Proof.
  intros Hr Hg idx status_reg v temp armed r Hown. subst r.
  rewrite (hub_control_set_port_feature_0 env cfg port _ s Hr), Hg.
  fold idx. fold status_reg. rewrite set_port_feature_not_owned by exact Hown.
  fold v. cbv zeta. fold temp.
  change (u16 USB_PORT_FEAT_SUSPEND =? USB_PORT_FEAT_SUSPEND) with true. cbv iota.
  set (s2 := set_log (ev_readl status_reg v :: log s1) s1).
  assert (Hpe : tst temp PORT_PE = tst v PORT_PE) by (subst temp; tst_done).
  assert (Hrs : tst temp PORT_RESET = tst v PORT_RESET) by (subst temp; tst_done).
  split; [| split ].
  - intros Hnss. unfold spf_suspend. rewrite Hnss. eexists. reflexivity.
  - intros Hnss Hbad. unfold spf_suspend. rewrite Hnss.
    assert (Hc : (Z.land temp PORT_PE =? 0) || negb (Z.land temp PORT_RESET =? 0) = true).
    { fold (tst temp PORT_RESET). rewrite Hrs. destruct Hbad as [H|H].
      - rewrite <- Hpe in H. apply tst_false_iff in H. rewrite H. reflexivity.
      - rewrite H. apply orb_true_r. }
    rewrite Hc. reflexivity.
  - intros Hnss Hen Hnr.
    assert (Hc : (Z.land temp PORT_PE =? 0) || negb (Z.land temp PORT_RESET =? 0) = false).
    { fold (tst temp PORT_RESET). rewrite Hrs, Hnr. rewrite orb_false_r.
      apply Z.eqb_neq. intros H. apply tst_false_iff in H. rewrite Hpe, Hen in H.
      discriminate. }
    destruct (spf_suspend env cfg idx status_reg (hostpc_reg_of cfg port) temp s2)
      as [[r0|r0] s3] eqn:E.
    2: { exfalso. unfold spf_suspend in E. rewrite Hnss, Hc in E.
         unfold ehci_writel, call, emit, msleep, when in E.
         destruct (susp_sof_bug cfg),
           (CONFIG_USB_OTG cfg && (otg_port cfg =? idx + 1) && b_hnp_enable cfg),
           (hostpc_reg_of cfg port); cbn [negb] in E;
           unfold bind, modify, ret, ehci_readl, call, emit in E; discriminate. }
    destruct (spf_suspend_tracks _ _ _ _ _ _ _ _ _ E Hnss) as (-> & Ht).
    pose proof (spf_suspend_acks_no_latch env cfg idx status_reg port v s2 _ _ E) as Ho.
    unfold bind at 1. rewrite E. unfold bind, ehci_readl, ret.
    eexists. split; [ reflexivity |].
    split; [ eapply same_tracker_trans; [ exact Ht | apply same_tracker_log ] |].
    split.
    { eapply only_trans; [| eapply only_trans; [ exact Ho |] ].
      - eexists [_]. split; [ reflexivity | repeat constructor ].
      - eexists [_]. split; [ reflexivity | repeat constructor ]. }
    unfold spf_suspend in E. rewrite Hnss, Hc in E.
    replace (idx + 1) with port in E by (subst idx; lia).
    split.
    + intros Hb. rewrite Hb in E. cbn [negb when] in E.
      apply bind_done_inv in E. destruct E as ([] & sA & EA & E).
      assert (HA : In (ev_writel (Z.lor temp PORT_SUSPEND) status_reg) (log sA))
        by (inversion EA; left; reflexivity).
      assert (Hext : extends sA s3).
      { unfold ehci_writel, call, emit, msleep in E.
        destruct (CONFIG_USB_OTG cfg && (otg_port cfg =? port) && b_hnp_enable cfg),
          (hostpc_reg_of cfg port);
          unfold bind, modify, ret, ehci_readl, call, emit in E; inversion E;
          simpl; as_app_n. }
      simpl. right. destruct Hext as (evs & ->). apply in_or_app. now right.
    + intros Hh. rewrite Hh in E.
      apply bind_done_inv in E. destruct E as ([] & sA & _ & E).
      fold armed in E.
      apply bind_done_inv in E. destruct E as ([] & sB & EB & E).
      assert (HB : In (ev_writel (if susp_sof_bug cfg then armed else Z.lor armed PORT_SUSPEND)
                         status_reg) (log sB)).
      { destruct (susp_sof_bug cfg); inversion EB; left; reflexivity. }
      assert (Hext : extends sB s3).
      { unfold ehci_writel, call, emit, msleep in E.
        destruct (hostpc_reg_of cfg port);
          unfold bind, modify, ret, ehci_readl, call, emit in E; inversion E;
          simpl; as_app_n. }
      simpl. right. destruct Hext as (evs & ->). apply in_or_app. now right.
Qed.

(** X8 on port 1, connected, enabled and powered: the port is recorded as
    suspended and written with the suspend bit and the two wake bits. *)
Lemma set_port_suspend_witness :
  exists s',
    ehci_hub_control (scripted [0x1005; 0x10001] 0) plain_config SetPortFeature
      USB_PORT_FEAT_SUSPEND 1 idle_state = (0, no_reply, s') /\
    same_tracker (set_suspended_ports 1 idle_state) s' /\
    In (ev_writel 0x601085 (port_status 0)) (log s').
Proof.
  destruct (set_port_suspend (scripted [0x1005; 0x10001] 0) plain_config 1 idle_state idle_state
              ltac:(vm_compute; split; discriminate) eq_refl eq_refl) as (_ & _ & H).
  destruct (H eq_refl eq_refl eq_refl) as (s' & E & T & _ & _ & W).
  exists s'. split; [ exact E |]. split; [ exact T | exact (W eq_refl) ].
Defined.

(** ** SetPortFeature(TEST) *)

Lemma test_suspend_enabled_spec env (n : nat) :
  forall s,
  exists evs,
    test_suspend_enabled env n s = (Done tt, set_log (evs ++ log s) s) /\
    Forall acks_no_latch evs /\
    (forall p, 0 <= p < Z.of_nat n ->
       exists x, In (ev_readl (port_status p) x) evs /\
                 (tst x PORT_PE = true ->
                  In (ev_writel (Z.lor (Z.land x (Z.lnot PORT_RWC_BITS)) PORT_SUSPEND)
                        (port_status p)) evs)) /\
    (forall p w, In (ev_writel w (port_status p)) evs ->
                 tst w PORT_PE = true /\ tst w PORT_SUSPEND = true).
Proof.
  induction n as [|k IH]; intros s.
  - exists []. rewrite set_log_nil. split; [ reflexivity |]. split; [ constructor |].
    split; [ intros p Hp; simpl in Hp; lia | intros p w [] ].
  - cbn [test_suspend_enabled]. unfold bind at 1. unfold ehci_readl at 1. cbv zeta.
    set (p0 := Z.of_nat k).
    set (x := u32 (hw_read env (log s) (port_status p0))).
    set (s1 := set_log (ev_readl (port_status p0) x :: log s) s).
    set (temp := Z.land x (Z.lnot PORT_RWC_BITS)).
    assert (Hpe : tst temp PORT_PE = tst x PORT_PE) by (subst temp; tst_done).
    unfold bind at 1. destruct (tst temp PORT_PE) eqn:Et; unfold when.
    + unfold ehci_writel, emit, modify at 1.
      destruct (IH (set_log (ev_writel (Z.lor temp PORT_SUSPEND) (port_status p0) :: log s1) s1))
        as (evs & E & F & P & W).
      exists (evs ++ [ev_writel (Z.lor temp PORT_SUSPEND) (port_status p0);
                      ev_readl (port_status p0) x]).
      split; [ rewrite E; f_equal; unfold set_log; simpl; now rewrite <- app_assoc |].
      split.
      { apply Forall_app. split; [ exact F |].
        constructor; [ red; subst temp; masked | repeat constructor ]. }
      split.
      * intros p Hp. destruct (Z.eq_dec p p0) as [->|Hne].
        -- exists x. split; [ apply in_or_app; right; right; now left |].
           intros _. apply in_or_app. right. now left.
        -- destruct (P p ltac:(subst p0; lia)) as (y & I1 & I2).
           exists y. split; [ apply in_or_app; now left |].
           intros Hy. apply in_or_app. left. now apply I2.
      * intros p w Hin. apply in_app_or in Hin.
        destruct Hin as [Hin|[Hin|[Hin|[]]]]; [ now apply (W p) | | discriminate ].
        inversion Hin; subst w. split.
        -- rewrite tst_lor_l, Et. reflexivity.
        -- rewrite tst_lor_l. change (tst PORT_SUSPEND PORT_SUSPEND) with true.
           apply orb_true_r.
    + unfold ret at 1. destruct (IH s1) as (evs & E & F & P & W).
      exists (evs ++ [ev_readl (port_status p0) x]).
      split; [ rewrite E; f_equal; unfold set_log; simpl; now rewrite <- app_assoc |].
      split; [ apply Forall_app; split; [ exact F | repeat constructor ] |].
      split.
      * intros p Hp. destruct (Z.eq_dec p p0) as [->|Hne].
        -- exists x. split; [ apply in_or_app; right; now left |].
           intros Hx. rewrite <- Hpe in Hx. discriminate.
        -- destruct (P p ltac:(subst p0; lia)) as (y & I1 & I2).
           exists y. split; [ apply in_or_app; now left |].
           intros Hy. apply in_or_app. left. now apply I2.
      * intros p w Hin. apply in_app_or in Hin.
        destruct Hin as [Hin|[Hin|[]]]; [ now apply (W p) | discriminate ].
Qed.

(** X9: SetPortFeature(TEST) with a selector from 1 to 5 on an in-range port
    not owned by the companion, past the debug-port gate, succeeds.  Between
    quiescing and halting the controller it reads every port register and
    writes the enabled ones, and only those, back with the suspend bit and no
    change latch; then it writes the selector into bits 16 to 19 of the
    port's register as just read. *)
Theorem set_port_test_mode env cfg port selector s s1 :
  1 <= port <= HCS_N_PORTS (hcs_params cfg) ->
  1 <= selector <= 5 ->
  spf_debug_gate env cfg port s = (Done tt, s1) ->
  let status_reg := port_status (port - 1) in
  let v := u32 (hw_read env (log s1) status_reg) in
  tst v PORT_OWNER = false ->
  exists evs temp c,
    ehci_hub_control env cfg SetPortFeature USB_PORT_FEAT_TEST (port + 256 * selector) s
    = (0, no_reply,
       set_log (ev_readl reg_command c
                  :: ev_writel (Z.lor temp (Z.shiftl selector 16)) status_reg
                  :: ev_readl status_reg temp
                  :: ev_call x_ehci_halt
                  :: evs ++ ev_call x_ehci_quiesce :: ev_readl status_reg v :: log s1) s1) /\
    Forall acks_no_latch evs /\
    (forall p, 0 <= p < HCS_N_PORTS (hcs_params cfg) ->
       exists x, In (ev_readl (port_status p) x) evs /\
                 (tst x PORT_PE = true ->
                  In (ev_writel (Z.lor (Z.land x (Z.lnot PORT_RWC_BITS)) PORT_SUSPEND)
                        (port_status p)) evs)) /\
    (forall p w, In (ev_writel w (port_status p)) evs ->
                 tst w PORT_PE = true /\ tst w PORT_SUSPEND = true).
Proof.
  intros Hr Hsel Hg status_reg v Hown.
  pose proof (HCS_N_PORTS_range (hcs_params cfg)) as Hn.
  rewrite (hub_control_set_port_feature env cfg port Hr _ selector s) by lia.
  rewrite Hg. fold status_reg. rewrite set_port_feature_not_owned by exact Hown.
  fold v. cbv zeta.
  change (u16 USB_PORT_FEAT_TEST =? USB_PORT_FEAT_SUSPEND) with false.
  change (u16 USB_PORT_FEAT_TEST =? USB_PORT_FEAT_POWER) with false.
  change (u16 USB_PORT_FEAT_TEST =? USB_PORT_FEAT_RESET) with false.
  change (u16 USB_PORT_FEAT_TEST =? USB_PORT_FEAT_TEST) with true.
  cbv iota. unfold spf_test.
  assert (Hs : negb (selector =? 0) && (selector <=? 5) = true).
  { apply andb_true_iff. split; [ apply negb_true_iff, Z.eqb_neq | apply Z.leb_le ]; lia. }
  rewrite Hs.
  assert (Hu : u32 (Z.shiftl selector 16) = Z.shiftl selector 16).
  { assert (selector = 1 \/ selector = 2 \/ selector = 3 \/ selector = 4 \/ selector = 5)
      as [->|[->|[->|[->| ->]]]] by lia; reflexivity. }
  rewrite Hu.
  set (s2 := set_log (ev_readl status_reg v :: log s1) s1).
  unfold bind at 1. unfold bind at 1. unfold call, emit, modify at 1.
  set (s3 := set_log (ev_call x_ehci_quiesce :: log s2) s2).
  destruct (test_suspend_enabled_spec env (Z.to_nat (HCS_N_PORTS (hcs_params cfg))) s3)
    as (evs & E & F & P & W).
  rewrite Z2Nat.id in P by lia.
  unfold bind at 1. rewrite E.
  unfold bind, ehci_readl, ehci_writel, emit, modify, ret. cbv beta iota zeta.
  exists evs. eexists _, _. split; [| split; [ exact F | split; [ exact P | exact W ] ] ].
  subst s3 s2. reflexivity.
Qed.

(** X9 for test mode 4 (TEST_PACKET) on port 1. *)
Lemma set_port_test_mode_witness :
  exists evs temp c,
    ehci_hub_control (steady 0x1005 0) plain_config SetPortFeature USB_PORT_FEAT_TEST
      (1 + 256 * 4) idle_state
    = (0, no_reply,
       set_log (ev_readl reg_command c
                  :: ev_writel (Z.lor temp (Z.shiftl 4 16)) (port_status 0)
                  :: ev_readl (port_status 0) temp
                  :: ev_call x_ehci_halt
                  :: evs ++ ev_call x_ehci_quiesce :: ev_readl (port_status 0) 0x1005
                  :: log idle_state) idle_state) /\
    Forall acks_no_latch evs.
Proof.
  destruct (set_port_test_mode (steady 0x1005 0) plain_config 1 4 idle_state idle_state
              ltac:(vm_compute; split; discriminate) ltac:(lia) eq_refl eq_refl)
    as (evs & temp & c & E & F & _).
  exists evs, temp, c. split; [ exact E | exact F ].
Defined.

(** ** The status word of GetPortStatus *)

Lemma tst_if_lor (b : bool) (x y m : Z) :
  tst (if b then Z.lor x y else x) m = tst x m || (b && tst y m).
Proof. destruct b; [ now rewrite tst_lor_l | now rewrite orb_false_r ]. Qed.

(** Before the status word is composed it holds change bits only. *)
Lemma gps_resolve_change_bits env cfg idx status_reg s temp status s1 :
  gps_resolve env cfg idx status_reg s = (Done (temp, status), s1) ->
  Z.land status 0x4ffff = 0.
Proof.
  unfold gps_resolve. intros E.
  apply bind_done_inv in E. destruct E as (ts & sA & Ecb & E).
  assert (H0 : Z.land (snd ts) 0x4ffff = 0).
  { clear E. unfold gps_change_bits in Ecb.
    apply bind_done_inv in Ecb. destruct Ecb as (t & ? & _ & Ecb). cbv zeta in Ecb.
    destruct (tst t PORT_CSC), (tst t PORT_PEC), (tst t PORT_OCC && negb (ignore_oc cfg));
      try destruct (tst t PORT_OC && HCS_PPC (hcs_params cfg));
      unfold bind, ehci_writel, emit, modify, ehci_readl, ret in Ecb;
      inversion Ecb; reflexivity. }
  unfold gps_settle, gps_finish in E.
  apply bind_done_inv in E. destruct E as (t1 & sB & _ & E).
  apply bind_done_inv in E. destruct E as ([t2 st2] & sC & Er & E).
  do 2 (apply bind_done_inv in E; destruct E as (? & ? & _ & E)).
  inversion E; subst. simpl. clear E.
  unfold gps_reset in Er.
  apply bind_done_inv in Er. destruct Er as (s0 & ? & _ & Er).
  destruct (tst t1 PORT_RESET && time_after_eq (jiffies s0) (reset_done s0 idx)).
  - do 4 (apply bind_done_inv in Er; destruct Er as (? & ? & _ & Er)).
    match type of Er with (if ?b then _ else _) _ = _ => destruct b end;
      [ discriminate |].
    do 2 (apply bind_done_inv in Er; destruct Er as (? & ? & _ & Er)).
    inversion Er; subst. rewrite Z.land_lor_distr_l, H0. reflexivity.
  - inversion Er; subst. exact H0.
Qed.

Lemma tst_sub (x m b : Z) : Z.land x m = 0 -> Z.land b m = b -> tst x b = false.
Proof.
  intros Hx Hb. apply tst_false_iff. rewrite <- Hb, Z.land_assoc.
  rewrite (Z.land_comm x b), <- Z.land_assoc, Hx. apply Z.land_0_r.
Qed.

Lemma gps_compose_word env cfg idx hreg temp status s w s' :
  (forall v, Z.land (u32 (ehci_port_speed env cfg v))
               (Z.lnot (Z.lor USB_PORT_STAT_LOW_SPEED USB_PORT_STAT_HIGH_SPEED)) = 0) ->
  Z.land status 0x4ffff = 0 ->
  gps_compose env cfg idx hreg temp status s = (Done w, s') ->
  tst w USB_PORT_STAT_CONNECTION = tst temp PORT_CONNECT /\
  tst w USB_PORT_STAT_ENABLE = tst temp PORT_PE /\
  tst w USB_PORT_STAT_OVERCURRENT = tst temp PORT_OC /\
  tst w USB_PORT_STAT_RESET = tst temp PORT_RESET /\
  tst w USB_PORT_STAT_POWER = tst temp PORT_POWER /\
  tst w (Z.shiftl USB_PORT_STAT_C_SUSPEND 16) = test_bit idx (port_c_suspend s').
Proof.
  intros Hspeed Hst. unfold gps_compose. intros E.
  assert (Hsp : forall v b, Z.land b 0x4ffff = b ->
            Z.land b (Z.lor USB_PORT_STAT_LOW_SPEED USB_PORT_STAT_HIGH_SPEED) = 0 ->
            tst (u32 (ehci_port_speed env cfg v)) b = false).
  { intros v b _ Hd. apply tst_false_iff.
    rewrite <- (land_lnot_disjoint _ _ b Hd), Hspeed. reflexivity. }
  assert (Hs0 : forall b, Z.land b 0x4ffff = b -> tst status b = false)
    by (intros b Hb; eapply tst_sub; eassumption).
  apply bind_done_inv in E. destruct E as (st1 & s1 & EA & E).
  assert (H1 : forall b, Z.land b 0x4ffff = b ->
            Z.land b (Z.lor USB_PORT_STAT_LOW_SPEED USB_PORT_STAT_HIGH_SPEED) = 0 ->
            tst st1 b = tst temp PORT_CONNECT && tst USB_PORT_STAT_CONNECTION b).
  { intros b Hb Hd. destruct (tst temp PORT_CONNECT); [ destruct hreg |];
      unfold bind, ehci_readl, ret in EA; inversion EA; subst;
      rewrite ?tst_lor_l, ?Hsp, ?Hs0 by assumption; simpl; now rewrite ?orb_false_r. }
  clear EA. cbv zeta in E.
  apply bind_done_inv in E. destruct E as (st3 & s3 & EB & E).
  assert (H3 : forall b, tst USB_PORT_STAT_SUSPEND b = false ->
            tst st3 b = tst st1 b || (tst temp PORT_PE && tst USB_PORT_STAT_ENABLE b)).
  { intros b Hb.
    destruct (tst temp (Z.lor PORT_SUSPEND PORT_RESUME)).
    - inversion EB; subst. rewrite tst_lor_l, Hb, orb_false_r. apply tst_if_lor.
    - apply bind_done_inv in EB. destruct EB as (s2 & ? & _ & EB).
      destruct (test_bit idx (suspended_ports s2)).
      + do 4 (apply bind_done_inv in EB; destruct EB as (? & ? & _ & EB)).
        inversion EB; subst. apply tst_if_lor.
      + inversion EB; subst. apply tst_if_lor. }
  clear EB.
  apply bind_done_inv in E. destruct E as (s4 & ? & Eg & E).
  inversion Eg; subst. inversion E; subst. clear E Eg.
  repeat split; rewrite !tst_if_lor, H3, H1 by reflexivity; tst_const;
    rewrite ?andb_false_r, ?andb_true_r, ?orb_false_r, ?orb_false_l; reflexivity.
Qed.

(** X12: when the blocks of GetPortStatus before the status word run to their
    end on an in-range port, the request succeeds and the word mirrors the
    register value they leave: connection, enable, over-current, reset and
    power are reported exactly when the register has the bit, and the
    suspend-change bit exactly when the tracker, as the request leaves it,
    has the port's suspend-change flag.  The speed reported for the port is
    taken to set no bit but the low-speed and high-speed ones. *)
Theorem port_status_word_mirrors_register env cfg port s temp status s1 :
  1 <= port <= HCS_N_PORTS (hcs_params cfg) ->
  (forall v, Z.land (u32 (ehci_port_speed env cfg v))
               (Z.lnot (Z.lor USB_PORT_STAT_LOW_SPEED USB_PORT_STAT_HIGH_SPEED)) = 0) ->
  gps_resolve env cfg (port - 1) (port_status (port - 1)) s = (Done (temp, status), s1) ->
  exists word s',
    ehci_hub_control env cfg GetPortStatus 0 port s = (0, reply_port_status word, s') /\
    tst word USB_PORT_STAT_CONNECTION = tst temp PORT_CONNECT /\
    tst word USB_PORT_STAT_ENABLE = tst temp PORT_PE /\
    tst word USB_PORT_STAT_OVERCURRENT = tst temp PORT_OC /\
    tst word USB_PORT_STAT_RESET = tst temp PORT_RESET /\
    tst word USB_PORT_STAT_POWER = tst temp PORT_POWER /\
    tst word (Z.shiftl USB_PORT_STAT_C_SUSPEND 16) = test_bit (port - 1) (port_c_suspend s').
Proof.
  intros Hr Hspeed Eres.
  pose proof (gps_resolve_change_bits _ _ _ _ _ _ _ _ Eres) as Hst.
  rewrite (hub_control_get_port_status env cfg port Hr).
  unfold get_port_status. unfold bind at 1. rewrite Eres. cbn [fst snd].
  destruct (gps_compose_done env cfg (port - 1) (hostpc_reg_of cfg port) temp status s1)
    as (w & s' & Ec).
  rewrite Ec. exists w, s'. split; [ reflexivity |].
  eapply gps_compose_word; eassumption.
Qed.

(** X12 on port 1, connected, enabled and powered. *)
Lemma port_status_word_mirrors_register_witness :
  exists word s',
    ehci_hub_control (scripted [0x1005] 0) plain_config GetPortStatus 0 1 idle_state
    = (0, reply_port_status word, s') /\
    tst word USB_PORT_STAT_CONNECTION = true /\
    tst word USB_PORT_STAT_ENABLE = true /\
    tst word USB_PORT_STAT_OVERCURRENT = false /\
    tst word USB_PORT_STAT_RESET = false /\
    tst word USB_PORT_STAT_POWER = true.
Proof.
  destruct (port_status_word_mirrors_register (scripted [0x1005] 0) plain_config 1 idle_state
              0x1005 0
              (snd (gps_resolve (scripted [0x1005] 0) plain_config 0 (port_status 0)
                      idle_state))
              ltac:(vm_compute; split; discriminate)
              ltac:(intros v; reflexivity)
              eq_refl)
    as (word & s' & E & H1 & H2 & H3 & H4 & H5 & _).
  exists word, s'. repeat split; assumption.
Defined.

(** ** GetPortStatus completes a reset *)

Lemma keeps_reset_completed_refl i s : keeps_reset_completed i s s.
Proof. unfold keeps_reset_completed. repeat split; auto. apply extends_refl. Qed.

Lemma keeps_reset_completed_trans i s1 s2 s3 :
  keeps_reset_completed i s1 s2 -> keeps_reset_completed i s2 s3 ->
  keeps_reset_completed i s1 s3.
Proof.
  intros (A1 & A2 & A3) (B1 & B2 & B3). unfold keeps_reset_completed.
  repeat split; auto. eapply extends_trans; eassumption.
Qed.

Lemma keeps_reset_completed_log i e s : keeps_reset_completed i s (set_log (e :: log s) s).
Proof. unfold keeps_reset_completed. repeat split; auto. apply extends_log. Qed.

Ltac keeps_reset i Hi :=
  unfold ehci_writel, call;
  inv_walk (keeps_reset_completed_refl i) (keeps_reset_completed_trans i);
  try first
    [ apply (inv_emit _ (keeps_reset_completed_log i))
    | apply (inv_readl _ _ (keeps_reset_completed_log i))
    | apply (inv_handshake _ _ (keeps_reset_completed_log i))
    | apply inv_modify; intros ?; unfold keeps_reset_completed; simpl;
      rewrite ?Z.eqb_refl, ?(test_bit_clear_bit_same i) by exact Hi;
      (split; [ auto | split; [ auto | exists []; reflexivity ] ]) ].

Lemma reset_tail_keeps env cfg idx hreg v status :
  0 <= idx ->
  step_inv (keeps_reset_completed idx)
    (temp <- check_reset_complete cfg idx (port_status idx) v ;;
     gps_stale idx temp ;;
     temp <- gps_companion env cfg idx (port_status idx) temp ;;
     gps_compose env cfg idx hreg temp status).
Proof.
  intros Hi. unfold check_reset_complete, gps_stale, gps_companion, gps_compose.
  keeps_reset idx Hi.
Qed.

Lemma reset_tail_total env cfg idx hreg v status :
  total (temp <- check_reset_complete cfg idx (port_status idx) v ;;
         gps_stale idx temp ;;
         temp <- gps_companion env cfg idx (port_status idx) temp ;;
         gps_compose env cfg idx hreg temp status).
Proof.
  unfold check_reset_complete, gps_stale, gps_companion, gps_compose, ehci_writel, call.
  totality.
Qed.

Lemma reset_tail_status env cfg idx hreg v status s w s' :
  (temp <- check_reset_complete cfg idx (port_status idx) v ;;
   gps_stale idx temp ;;
   temp <- gps_companion env cfg idx (port_status idx) temp ;;
   gps_compose env cfg idx hreg temp status) s = (Done w, s') ->
  forall m, has_bits status m -> has_bits w m.
Proof.
  intros E m Hm.
  do 3 (apply bind_done_inv in E; destruct E as (? & ? & _ & E)).
  eapply gps_compose_status; eassumption.
Qed.

(** GetPortStatus from the reset check on, when the reset is due. *)
Lemma gps_settle_reset_due env cfg idx hreg ts sA :
  tst (fst ts) PORT_RESUME = false ->
  tst (fst ts) PORT_RESET && time_after_eq (jiffies sA) (reset_done sA idx) = true ->
  let w := Z.land (fst ts) (Z.lnot (Z.lor PORT_RWC_BITS PORT_RESET)) in
  let sW := set_log (ev_writel w (port_status idx) :: log sA)
              (set_resuming_ports (clear_bit idx (resuming_ports sA))
                 (set_reset_done idx 0 sA)) in
  let rc := hw_handshake env (log sW) (port_status idx) PORT_RESET 0 1000 in
  let sH := set_log (ev_handshake (port_status idx) PORT_RESET 0 1000 rc :: log sW) sW in
  let v := u32 (hw_read env (log sH) (port_status idx)) in
  bind (gps_settle env cfg idx (port_status idx) ts)
    (fun ts' => gps_compose env cfg idx hreg (fst ts') (snd ts')) sA
  = if rc =? 0
    then (temp <- check_reset_complete cfg idx (port_status idx) v ;;
          gps_stale idx temp ;;
          temp <- gps_companion env cfg idx (port_status idx) temp ;;
          gps_compose env cfg idx hreg temp
            (Z.lor (snd ts) (Z.shiftl USB_PORT_STAT_C_RESET 16)))
           (set_log (ev_readl (port_status idx) v :: log sH) sH)
    else (Fail (- EPIPE), sH).
Proof.
  intros Hres Hdue. cbv zeta.
  unfold gps_settle. rewrite bind_assoc_eq.
  unfold gps_resume. rewrite Hres.
  match goal with
  | |- _ = ?R =>
      change (bind (gps_finish env cfg idx (port_status idx) (fst ts) (snd ts))
                (fun ts' => gps_compose env cfg idx hreg (fst ts') (snd ts')) sA = R)
  end.
  unfold gps_finish. rewrite bind_assoc_eq.
  unfold gps_reset. rewrite bind_assoc_eq.
  unfold bind at 1. unfold gets at 1. rewrite Hdue.
  rewrite bind_assoc_eq. unfold bind at 1. unfold modify at 1.
  rewrite bind_assoc_eq. unfold bind at 1. unfold modify at 1.
  rewrite bind_assoc_eq. unfold bind at 1. unfold ehci_writel, emit, modify at 1.
  rewrite bind_assoc_eq. unfold bind at 1. unfold handshake at 1. cbv zeta.
  match goal with
  | |- context [negb (?c =? 0)] =>
      change (hw_handshake env _ (port_status idx) PORT_RESET 0 1000) with c;
      destruct (c =? 0)
  end; cbn [negb]; [| reflexivity ].
  rewrite bind_assoc_eq. unfold bind at 1. unfold ehci_readl at 1. cbv zeta.
  rewrite bind_assoc_eq.
  apply bind_cong. intros temp s1.
  match goal with
  | |- _ = ?R =>
      change (bind (bind (gps_stale idx temp)
                      (fun _ => bind (gps_companion env cfg idx (port_status idx) temp)
                                  (fun t' => ret (t', Z.lor (snd ts)
                                                        (Z.shiftl USB_PORT_STAT_C_RESET 16)))))
                (fun ts' => gps_compose env cfg idx hreg (fst ts') (snd ts')) s1 = R)
  end.
  rewrite bind_assoc_eq. apply bind_cong. intros [] s2.
  rewrite bind_assoc_eq. apply bind_cong. intros t' s3. reflexivity.
Qed.

(** X11: when GetPortStatus on an in-range port finds, after the change bits,
    the port in reset and not resuming with the reset deadline reached, it
    forces the reset to complete: the register is written with the reset bit
    and the latches clear and the controller is polled for up to 1 ms for the
    bit to drop; the deadline and the resuming flag of the port are cleared
    whatever the outcome.  A poll that fails makes the request stall; after
    one that succeeds the status word reports a reset change. *)
Theorem get_port_status_completes_reset env cfg port s ts sA :
  1 <= port <= HCS_N_PORTS (hcs_params cfg) ->
  let idx := port - 1 in
  let status_reg := port_status idx in
  let r := ehci_hub_control env cfg GetPortStatus 0 port s in
  gps_change_bits env cfg status_reg s = (Done ts, sA) ->
  tst (fst ts) PORT_RESUME = false ->
  tst (fst ts) PORT_RESET = true ->
  time_after_eq (jiffies s) (reset_done s idx) = true ->
  let w := Z.land (fst ts) (Z.lnot (Z.lor PORT_RWC_BITS PORT_RESET)) in
  let l1 := ev_writel w status_reg :: log sA in
  let rc := hw_handshake env l1 status_reg PORT_RESET 0 1000 in
  tst w PORT_RESET = false /\
  (exists evs, log (snd r) = evs ++ ev_handshake status_reg PORT_RESET 0 1000 rc :: l1) /\
  reset_done (snd r) idx = 0 /\
  test_bit idx (resuming_ports (snd r)) = false /\
  (rc <> 0 -> fst r = (- EPIPE, no_reply)) /\
  (rc = 0 ->
   exists word, fst r = (0, reply_port_status word) /\
                has_bits word (Z.shiftl USB_PORT_STAT_C_RESET 16)).
Proof.
  intros Hr idx status_reg r Ecb Hres Hrst Hel w l1 rc.
  assert (Hi : 0 <= idx) by (subst idx; lia).
  split; [ subst w; tst_done |].
  destruct (gps_change_bits_state _ _ _ _ _ _ Ecb) as (e0 & HsA).
  assert (Hj : jiffies sA = jiffies s) by (rewrite HsA; reflexivity).
  assert (Hd : reset_done sA = reset_done s) by (rewrite HsA; reflexivity).
  subst r. rewrite (hub_control_get_port_status env cfg port Hr).
  fold idx. fold status_reg.
  rewrite (get_port_status_after_change_bits _ _ _ _ _ _ _ _ Ecb).
  unfold status_reg.
  rewrite gps_settle_reset_due
    by (try assumption; rewrite Hrst, Hj, Hd; exact Hel).
  cbv zeta. fold status_reg. fold w.
  set (sW := set_log (ev_writel w status_reg :: log sA) _).
  change (hw_handshake env (log sW) status_reg PORT_RESET 0 1000) with rc.
  set (sH := set_log (ev_handshake status_reg PORT_RESET 0 1000 rc :: log sW) sW).
  assert (HlH : log sH = ev_handshake status_reg PORT_RESET 0 1000 rc :: l1) by reflexivity.
  assert (HdH : reset_done sH idx = 0) by (subst sH sW; simpl; now rewrite Z.eqb_refl).
  assert (HrH : test_bit idx (resuming_ports sH) = false)
    by (subst sH sW; simpl; now apply test_bit_clear_bit_same).
  clearbody sH.
  destruct (Z.eqb_spec rc 0) as [H0|Hne].
  - (* the reset bit went away *)
    set (sR := set_log (ev_readl status_reg _ :: log sH) sH).
    destruct (reset_tail_total env cfg idx (hostpc_reg_of cfg port)
                (u32 (hw_read env (log sH) status_reg))
                (Z.lor (snd ts) (Z.shiftl USB_PORT_STAT_C_RESET 16)) sR) as (word & s' & E).
    pose proof (reset_tail_keeps env cfg idx _ _ _ Hi _ _ _ E) as (K1 & K2 & (evs & K3)).
    fold status_reg in E. rewrite E. cbn [fst snd].
    split.
    { exists (evs ++ [ev_readl status_reg (u32 (hw_read env (log sH) status_reg))]).
      rewrite K3. subst sR. simpl. rewrite HlH. now rewrite <- app_assoc. }
    split; [ apply K1; subst sR; exact HdH |].
    split; [ apply K2; subst sR; exact HrH |].
    split; [ intros H; now contradiction H |].
    intros _. exists word. split; [ reflexivity |].
    eapply reset_tail_status; [ exact E | apply has_bits_lor_r ].
  - (* the handshake timed out *)
    cbn [fst snd].
    split; [ exists []; exact HlH |].
    split; [ exact HdH |]. split; [ exact HrH |].
    split; [ reflexivity | intros H; now contradiction Hne ].
Qed.

(** X11 on port 1: the register reads in reset, then enabled. *)
Lemma get_port_status_completes_reset_witness :
  exists word,
    fst (ehci_hub_control (scripted [0x1101; 0x1005] 0) plain_config GetPortStatus 0 1 idle_state)
    = (0, reply_port_status word) /\
    has_bits word (Z.shiftl USB_PORT_STAT_C_RESET 16).
Proof.
  destruct (get_port_status_completes_reset (scripted [0x1101; 0x1005] 0) plain_config 1
              idle_state (0x1101, 0)
              (snd (gps_change_bits (scripted [0x1101; 0x1005] 0) plain_config (port_status 0)
                      idle_state))
              ltac:(vm_compute; split; discriminate) eq_refl eq_refl eq_refl eq_refl)
    as (_ & _ & _ & _ & _ & H).
  exact (H eq_refl).
Defined.

(** ** [ehci_bus_suspend]: how it leaves the root hub *)

Lemma neutral_step_refl s : neutral_step s s.
Proof. unfold neutral_step, keeps_port_flags. repeat split. apply extends_refl. Qed.

Lemma neutral_step_trans s1 s2 s3 :
  neutral_step s1 s2 -> neutral_step s2 s3 -> neutral_step s1 s3.
Proof.
  intros (A0 & (A1 & A2 & A3 & A4) & A5 & A6 & A7) (B0 & (B1 & B2 & B3 & B4) & B5 & B6 & B7).
  unfold neutral_step, keeps_port_flags.
  rewrite B1, B2, B3, B4, B5, B6, B7. repeat split; try assumption.
  eapply extends_trans; eassumption.
Qed.

Lemma neutral_ret {A} (a : A) : neutral (ret a).
Proof. intros s. exists a, s. split; [ reflexivity | apply neutral_step_refl ]. Qed.

Lemma neutral_gets {A} (f : ehci_hcd -> A) : neutral (gets f).
Proof. intros s. exists (f s), s. split; [ reflexivity | apply neutral_step_refl ]. Qed.

Lemma neutral_bind {A B} (m : M A) (k : A -> M B) :
  neutral m -> (forall a, neutral (k a)) -> neutral (bind m k).
Proof.
  intros Hm Hk s. destruct (Hm s) as (a & s1 & E1 & Q1).
  destruct (Hk a s1) as (b & s2 & E2 & Q2).
  exists b, s2. split; [ unfold bind; now rewrite E1 | eapply neutral_step_trans; eassumption ].
Qed.

Lemma neutral_when (b : bool) (m : M unit) : neutral m -> neutral (when b m).
Proof. destruct b; simpl; [ trivial | intros _; apply neutral_ret ]. Qed.

Lemma neutral_emit (e : event) : neutral (emit e).
Proof.
  intros s. exists tt, (set_log (e :: log s) s). split; [ reflexivity |].
  unfold neutral_step, keeps_port_flags. simpl. repeat split. apply extends_log.
Qed.

Lemma neutral_readl env (r : reg) : neutral (ehci_readl env r).
Proof.
  intros s. eexists _, _. split; [ reflexivity |].
  unfold neutral_step, keeps_port_flags. simpl. repeat split. apply extends_log.
Qed.

Lemma neutral_modify (f : ehci_hcd -> ehci_hcd) :
  (forall s, neutral_step s (f s)) -> neutral (modify f).
Proof. intros Hf s. exists tt, (f s). split; [ reflexivity | apply Hf ]. Qed.

Ltac neutrally :=
  unfold ehci_writel, call, msleep;
  repeat first
    [ apply neutral_ret | apply neutral_gets | apply neutral_emit | apply neutral_readl
    | apply neutral_modify; intros ?; unfold neutral_step, keeps_port_flags; simpl;
      (split; [ exists []; reflexivity | repeat split ])
    | apply neutral_when
    | apply neutral_bind; [| intros ? ]
    | match goal with
      | |- neutral (if ?b then _ else _) => destruct b
      end ].

Lemma neutral_suspend_ports env cfg (n : nat) :
  forall changed, neutral (suspend_ports env cfg n changed).
Proof.
  induction n as [|k IH]; intros changed; cbn [suspend_ports]; [ apply neutral_ret |].
  apply neutral_bind; [| intros c; apply IH ].
  unfold suspend_port. neutrally.
Qed.

Lemma neutral_enter_phy_low_power env (n : nat) : neutral (enter_phy_low_power env n).
Proof.
  induction n as [|k IH]; cbn [enter_phy_low_power]; [ apply neutral_ret |].
  neutrally. exact IH.
Qed.

(** Run the first computation of the goal's [bind], a neutral one. *)
Ltac step_neutral :=
  match goal with
  | |- context [bind ?m ?k ?st] =>
      let Hn := fresh "Hn" in
      assert (Hn : neutral m)
        by (first [ apply neutral_suspend_ports
                  | neutrally; first [ apply neutral_enter_phy_low_power ] ]);
      let a := fresh "a" in
      let s1 := fresh "s" in
      let E := fresh "E" in
      let G := fresh "G" in
      destruct (Hn st) as (a & s1 & E & G); run E; clear E Hn
  end.

Ltac chain_neutral :=
  repeat match goal with
         | H1 : neutral_step ?a ?b, H2 : neutral_step ?b ?c |- _ =>
             pose proof (neutral_step_trans _ _ _ H1 H2); clear H1 H2
         end.

Lemma when_emit (b : bool) (e : event) s :
  when b (emit e) s = (Done tt, set_log ((if b then [e] else []) ++ log s) s).
Proof. destruct b, s; reflexivity. Qed.

(** Run the first computation of the goal's [bind], a primitive one. *)
Ltac step_prim :=
  match goal with
  | |- context [bind ?m ?k ?st] =>
      pattern (bind m k st); eapply bind_run;
      [ first [ apply when_emit | reflexivity ] | cbv beta ]
  end.

Lemma bus_suspend_locked_post env cfg s :
  do_remote_wakeup cfg && negb (resuming_ports s =? 0) = false ->
  exists s' evs c,
    bus_suspend_locked env cfg s = (Done 0, s') /\
    log s' = evs ++ log s /\
    rh_state s' = EHCI_RH_SUSPENDED /\
    In (ev_readl reg_command c) evs /\ command s' = c /\
    next_statechange s' = deadline env s' 10 /\
    keeps_port_flags s s' /\
    In (ev_writel (if do_remote_wakeup cfg then INTR_MASK
                   else Z.land INTR_MASK (Z.lnot STS_PCD)) reg_intr_enable) evs /\
    (susp_sof_bug cfg = false -> In (ev_call x_ehci_halt) evs).
Proof.
  intros Hgo. unfold bus_suspend_locked.
  unfold bind at 1. unfold gets at 1. rewrite Hgo.
  step_neutral.
  (* the command register is saved *)
  unfold bind at 1. unfold ehci_readl at 1. cbv zeta.
  set (c := u32 (hw_read env (log s0) reg_command)).
  unfold bind at 1. unfold modify at 1.
  set (sC := set_command c _).
  assert (GC : exists e0, log sC = e0 ++ log s /\ In (ev_readl reg_command c) e0).
  { destruct G as ((e & L) & _). exists (ev_readl reg_command c :: e).
    subst sC. simpl. rewrite L. split; [ reflexivity | now left ]. }
  assert (FC : keeps_port_flags s sC /\ command sC = c).
  { destruct G as (_ & (A1 & A2 & A3 & A4) & _).
    subst sC. unfold keeps_port_flags. simpl. rewrite A1, A2, A3, A4. repeat split. }
  clearbody sC. clear G.
  do 7 step_neutral. chain_neutral.
  match goal with H : neutral_step sC _ |- _ => destruct H as ((e1 & L1) & F1 & C1 & _) end.
  destruct GC as (e0 & L0 & I0). destruct FC as (F0 & C0).
  assert (F : keeps_port_flags s s7).
  { destruct F0 as (A1 & A2 & A3 & A4), F1 as (B1 & B2 & B3 & B4).
    unfold keeps_port_flags. rewrite B1, B2, B3, B4. repeat split; assumption. }
  assert (L : log s7 = (e1 ++ e0) ++ log s) by (rewrite L1, L0; now rewrite app_assoc).
  assert (I1 : forall post, In (ev_readl reg_command c) (post ++ e1 ++ e0)).
  { intros post. apply in_or_app. right. apply in_or_app. now right. }
  rewrite C0 in C1. clear L1 L0 I0 F0 F1 C0.
  destruct F as (A1 & A2 & A3 & A4).
  (* the controller is halted and the root hub marked *)
  unfold call, ehci_writel.
  do 8 step_prim. unfold ret.
  match goal with
  | |- exists s' evs c0, (Done 0, ?S) = _ /\ _ => set (sF := S)
  end.
  assert (LF : exists post, log sF = post ++ log s7 /\
            In (ev_writel (if do_remote_wakeup cfg then INTR_MASK
                           else Z.land INTR_MASK (Z.lnot STS_PCD)) reg_intr_enable) post /\
            (susp_sof_bug cfg = false -> In (ev_call x_ehci_halt) post)).
  { subst sF. cbn [log set_log set_rh_state set_next_statechange].
    eexists (_ :: _ :: _ :: _ ++ _). split.
    { cbn [app]. rewrite <- app_assoc. reflexivity. }
    split.
    - right. right. left. now destruct (do_remote_wakeup cfg).
    - intros Hb. rewrite Hb. cbn [negb]. do 3 right.
      apply in_or_app. right. now left. }
  destruct LF as (post & LF & IW & IH).
  assert (PF : rh_state sF = EHCI_RH_SUSPENDED /\ command sF = command s7 /\
               next_statechange sF = deadline env sF 10 /\ keeps_port_flags s7 sF).
  { subst sF. unfold keeps_port_flags, deadline.
    cbn [log set_log set_rh_state set_next_statechange rh_state command next_statechange
         jiffies port_c_suspend suspended_ports resuming_ports reset_done].
    repeat split. }
  clearbody sF. destruct PF as (P1 & P2 & P3 & (B1 & B2 & B3 & B4)).
  exists sF, (post ++ e1 ++ e0), c.
  split; [ reflexivity |].
  split; [ rewrite LF, L, <- !app_assoc; reflexivity |].
  split; [ exact P1 |].
  split; [ apply I1 |].
  split; [ now rewrite P2 |].
  split; [ exact P3 |].
  split; [ unfold keeps_port_flags; rewrite B1, B2, B3, B4; repeat split; assumption |].
  split; [ apply in_or_app; now left |].
  intros Hb. apply in_or_app. left. now apply IH.
Qed.

(** X14: a bus suspend that is not refused (remote wakeup disabled, or no
    port resuming) returns 0 and leaves the root hub in the suspended state.
    The command register it read is saved in [command]; the interrupt enable
    register is written with the interrupt mask, less the port-change
    interrupt when remote wakeup is disabled; the controller is halted unless
    it has the suspend quirk; the next state change is due 10 ms after the
    clock as the call leaves it; the port flags and deadlines of the hub
    requests are unchanged; and the last thing done is to delete the
    watchdog timer. *)
Theorem bus_suspend_leaves_root_hub_suspended env cfg s :
  do_remote_wakeup cfg && negb (resuming_ports s =? 0) = false ->
  exists s' evs c,
    ehci_bus_suspend env cfg s = (0, s') /\
    log s' = ev_call (x_del_timer_sync watchdog) :: evs ++ log s /\
    rh_state s' = EHCI_RH_SUSPENDED /\
    In (ev_readl reg_command c) evs /\ command s' = c /\
    next_statechange s' = deadline env s' 10 /\
    keeps_port_flags s s' /\
    In (ev_writel (if do_remote_wakeup cfg then INTR_MASK
                   else Z.land INTR_MASK (Z.lnot STS_PCD)) reg_intr_enable) evs /\
    (susp_sof_bug cfg = false -> In (ev_call x_ehci_halt) evs).
Proof.
  intros Hgo. unfold ehci_bus_suspend. cbv zeta.
  do 4 step_neutral. chain_neutral.
  match goal with H : neutral_step s _ |- _ => destruct H as ((e0 & L0) & F0 & _) end.
  assert (Hgo' : do_remote_wakeup cfg && negb (resuming_ports s3 =? 0) = false).
  { destruct F0 as (_ & _ & A3 & _). now rewrite A3. }
  destruct (bus_suspend_locked_post env cfg s3 Hgo')
    as (s4 & evs & c & E & L & P1 & I1 & P2 & P3 & F & I2 & I3).
  run E. unfold call. step_prim. unfold ret.
  eexists _, (evs ++ e0), c.
  split; [ reflexivity |].
  unfold deadline, keeps_port_flags in *.
  cbn [log set_log rh_state command next_statechange jiffies
       port_c_suspend suspended_ports resuming_ports reset_done].
  destruct F0 as (A1 & A2 & A3 & A4), F as (B1 & B2 & B3 & B4).
  split; [ rewrite L, L0, <- app_assoc; reflexivity |].
  split; [ exact P1 |].
  split; [ apply in_or_app; now left |].
  split; [ exact P2 |].
  split; [ exact P3 |].
  split; [ rewrite B1, B2, B3, B4; repeat split; assumption |].
  split; [ apply in_or_app; now left |].
  intros Hb. apply in_or_app. left. now apply I3.
Qed.

(** X14 on a running root hub with remote wakeup enabled and no port
    resuming. *)
Lemma bus_suspend_leaves_root_hub_suspended_witness :
  exists s' evs c,
    ehci_bus_suspend (steady 0x1005 0) plain_config idle_state = (0, s') /\
    log s' = ev_call (x_del_timer_sync watchdog) :: evs ++ log idle_state /\
    rh_state s' = EHCI_RH_SUSPENDED /\
    In (ev_readl reg_command c) evs /\ command s' = c /\
    next_statechange s' = deadline (steady 0x1005 0) s' 10 /\
    keeps_port_flags idle_state s' /\
    In (ev_writel (if do_remote_wakeup plain_config then INTR_MASK
                   else Z.land INTR_MASK (Z.lnot STS_PCD)) reg_intr_enable) evs /\
    (susp_sof_bug plain_config = false -> In (ev_call x_ehci_halt) evs).
Proof.
  apply (bus_suspend_leaves_root_hub_suspended (steady 0x1005 0) plain_config idle_state).
  vm_compute. reflexivity.
Defined.

(** ** A request on one port leaves the registers of the others alone *)

Ltac on_port :=
  first [ apply only_readl; intros; first [ reflexivity | exact I ]
        | apply only_handshake; intros; first [ reflexivity | exact I ]
        | apply only_emit; first [ reflexivity | exact I ]
        | apply only_msleep; exact I ].

Lemma clear_port_feature_own_port env cfg wValue wIndex q hreg :
  (forall r, hreg = Some r -> r = hostpc q) ->
  step_inv (only (own_port_only q))
    (clear_port_feature env cfg wValue wIndex (port_status q) hreg).
Proof.
  intros Hh. unfold clear_port_feature, ehci_writel, call.
  only_walk; try on_port.
  all: rewrite (Hh _ eq_refl); on_port.
Qed.

Lemma gps_change_bits_own_port env cfg q :
  step_inv (only (own_port_only q)) (gps_change_bits env cfg (port_status q)).
Proof. unfold gps_change_bits, ehci_writel. only_walk; on_port. Qed.

Lemma check_reset_complete_own_port cfg i q v :
  step_inv (only (own_port_only q)) (check_reset_complete cfg i (port_status q) v).
Proof. unfold check_reset_complete, ehci_writel, call. only_walk; on_port. Qed.

Lemma gps_resume_own_port env i q temp :
  step_inv (only (own_port_only q)) (gps_resume env i (port_status q) temp).
Proof. unfold gps_resume, ehci_writel, call. only_walk; on_port. Qed.

Lemma gps_reset_own_port env cfg i q temp status :
  step_inv (only (own_port_only q)) (gps_reset env cfg i (port_status q) temp status).
Proof.
  unfold gps_reset, ehci_writel. only_walk; try on_port.
  apply check_reset_complete_own_port.
Qed.

Lemma gps_stale_own_port i q temp : step_inv (only (own_port_only q)) (gps_stale i temp).
Proof. unfold gps_stale. only_walk. Qed.

Lemma gps_companion_own_port env cfg i q temp :
  step_inv (only (own_port_only q)) (gps_companion env cfg i (port_status q) temp).
Proof. unfold gps_companion, ehci_writel. only_walk; on_port. Qed.

Lemma gps_compose_own_port env cfg i q hreg temp status :
  (forall r, hreg = Some r -> r = hostpc q) ->
  step_inv (only (own_port_only q)) (gps_compose env cfg i hreg temp status).
Proof.
  intros Hh. unfold gps_compose. only_walk; try on_port.
  all: rewrite (Hh _ eq_refl); on_port.
Qed.

Lemma get_port_status_own_port env cfg i q hreg :
  (forall r, hreg = Some r -> r = hostpc q) ->
  step_inv (only (own_port_only q)) (get_port_status env cfg i (port_status q) hreg).
Proof.
  intros Hh. unfold get_port_status, gps_resolve, gps_settle, gps_finish.
  apply (inv_bind _ (only_trans _)); [| intros ?; now apply gps_compose_own_port ].
  apply (inv_bind _ (only_trans _)); [ apply gps_change_bits_own_port | intros ? ].
  apply (inv_bind _ (only_trans _)); [ apply gps_resume_own_port | intros ? ].
  apply (inv_bind _ (only_trans _)); [ apply gps_reset_own_port | intros ? ].
  apply (inv_bind _ (only_trans _)); [ apply gps_stale_own_port | intros ? ].
  apply (inv_bind _ (only_trans _)); [ apply gps_companion_own_port | intros ? ].
  apply (inv_ret _ (only_refl _)).
Qed.

Lemma spf_suspend_own_port env cfg i q hreg temp :
  (forall r, hreg = Some r -> r = hostpc q) ->
  step_inv (only (own_port_only q)) (spf_suspend env cfg i (port_status q) hreg temp).
Proof.
  intros Hh. unfold spf_suspend, ehci_writel, call.
  only_walk; try on_port.
  all: rewrite (Hh _ eq_refl); on_port.
Qed.

Lemma only_usleep_range P env lo hi :
  P (ev_call (x_usleep_range lo hi)) -> step_inv (only P) (usleep_range env lo hi).
Proof.
  intros H. unfold usleep_range, call.
  apply (inv_bind _ (only_trans _)); [ now apply only_emit | intros ? ].
  apply only_modify. reflexivity.
Qed.

Lemma spf_reset_own_port env cfg i q temp :
  step_inv (only (own_port_only q)) (spf_reset env cfg i (port_status q) temp).
Proof.
  unfold spf_reset, ehci_writel.
  only_walk; try on_port.
  all: apply only_usleep_range; exact I.
Qed.

Lemma set_port_feature_own_port env cfg wValue ports selector i q hreg :
  wValue <> USB_PORT_FEAT_TEST ->
  (forall r, hreg = Some r -> r = hostpc q) ->
  step_inv (only (own_port_only q))
    (set_port_feature env cfg wValue ports selector i (port_status q) hreg).
Proof.
  intros Hv Hh. unfold set_port_feature.
  apply (inv_bind _ (only_trans _)); [ on_port | intros temp ].
  destruct (tst temp PORT_OWNER); [ apply (inv_ret _ (only_refl _)) |]. cbv zeta.
  apply (inv_bind _ (only_trans _)); [| intros ?; only_walk; on_port ].
  destruct (wValue =? USB_PORT_FEAT_SUSPEND); [ now apply spf_suspend_own_port |].
  destruct (wValue =? USB_PORT_FEAT_POWER).
  { unfold ehci_writel. only_walk; on_port. }
  destruct (wValue =? USB_PORT_FEAT_RESET); [ apply spf_reset_own_port |].
  destruct (Z.eqb_spec wValue USB_PORT_FEAT_TEST) as [E|_]; [ contradiction |].
  apply (inv_fail _ (only_refl _)).
Qed.

Lemma hub_control_locked_own_port env cfg typeReq wValue wIndex :
  (typeReq = SetPortFeature -> wValue <> USB_PORT_FEAT_TEST) ->
  step_inv (only (own_port_only (Z.land wIndex 0xff - 1)))
    (hub_control_locked env cfg typeReq wValue wIndex).
Proof.
  intros Hv.
  assert (Hh : forall r, hostpc_reg_of cfg wIndex = Some r -> r = hostpc (Z.land wIndex 0xff - 1)).
  { unfold hostpc_reg_of. destruct (has_hostpc cfg); intros r Hs; inversion Hs; reflexivity. }
  unfold hub_control_locked. cbv zeta.
  destruct (typeReq =? ClearHubFeature); [ only_walk |].
  destruct (typeReq =? ClearPortFeature).
  { only_walk. now apply clear_port_feature_own_port. }
  destruct (typeReq =? GetHubDescriptor); [ only_walk |].
  destruct (typeReq =? GetHubStatus); [ only_walk |].
  destruct (typeReq =? GetPortStatus).
  { only_walk. now apply get_port_status_own_port. }
  destruct (typeReq =? SetHubFeature); [ only_walk |].
  destruct (Z.eqb_spec typeReq SetPortFeature) as [E|_]; [| only_walk ].
  apply (inv_bind _ (only_trans _)); [ unfold spf_debug_gate; only_walk; on_port | intros ? ].
  only_walk. apply set_port_feature_own_port; [ now apply Hv | exact Hh ].
Qed.

Lemma hub_control_step_inv R env cfg typeReq wValue wIndex :
  step_inv R (hub_control_locked env cfg (u16 typeReq) (u16 wValue) (u16 wIndex)) ->
  forall s, R s (snd (ehci_hub_control env cfg typeReq wValue wIndex s)).
Proof.
  intros H s. unfold ehci_hub_control.
  destruct (hub_control_locked env cfg (u16 typeReq) (u16 wValue) (u16 wIndex) s)
    as [[[r b]|r] s'] eqn:E; exact (H _ _ _ E).
Qed.

(** X3: a hub request other than SetPortFeature(TEST) accesses the status
    and host-control registers of no port but the one its index names (the
    low byte of wIndex, less one): every event it logs is on that port's
    registers or on a register that is not per port. *)
Theorem hub_request_leaves_other_ports env cfg typeReq wValue wIndex s :
  (u16 typeReq = SetPortFeature -> u16 wValue <> USB_PORT_FEAT_TEST) ->
  only (own_port_only (Z.land (u16 wIndex) 0xff - 1)) s
    (snd (ehci_hub_control env cfg typeReq wValue wIndex s)).
Proof.
  intros Hv. apply hub_control_step_inv. now apply hub_control_locked_own_port.
Qed.

(** X3 for a reset of port 2. *)
Lemma hub_request_leaves_other_ports_witness :
  only (own_port_only 1) idle_state
    (snd (ehci_hub_control (scripted [0x1005] 0) plain_config SetPortFeature
            USB_PORT_FEAT_RESET 2 idle_state)).
Proof.
  apply (hub_request_leaves_other_ports (scripted [0x1005] 0) plain_config SetPortFeature
           USB_PORT_FEAT_RESET 2 idle_state).
  intros _. vm_compute. discriminate.
Defined.

(** ** What the bus suspend recorded is not touched by a request *)

Lemma keeps_bus_state_refl s : keeps_bus_state s s.
Proof. unfold keeps_bus_state. tauto. Qed.

Lemma keeps_bus_state_trans s1 s2 s3 :
  keeps_bus_state s1 s2 -> keeps_bus_state s2 s3 -> keeps_bus_state s1 s3.
Proof.
  unfold keeps_bus_state.
  intros (A1 & A2 & A3 & A4 & A5) (B1 & B2 & B3 & B4 & B5).
  rewrite B1, B2, B3, B4, B5. tauto.
Qed.

Lemma keeps_bus_state_log e s : keeps_bus_state s (set_log (e :: log s) s).
Proof. unfold keeps_bus_state. simpl. tauto. Qed.

Ltac keeps_bus :=
  unfold ehci_writel, call, msleep, usleep_range;
  inv_walk keeps_bus_state_refl keeps_bus_state_trans;
  try first [ apply (inv_emit _ keeps_bus_state_log)
            | apply (inv_readl _ _ keeps_bus_state_log)
            | apply (inv_handshake _ _ keeps_bus_state_log)
            | apply inv_modify; intros ?; unfold keeps_bus_state; repeat split; reflexivity ].

Lemma test_suspend_enabled_keeps_bus_state env (n : nat) :
  step_inv keeps_bus_state (test_suspend_enabled env n).
Proof.
  induction n as [|k IH]; cbn [test_suspend_enabled].
  - apply (inv_ret _ keeps_bus_state_refl).
  - keeps_bus. exact IH.
Qed.

Lemma hub_control_locked_keeps_bus_state env cfg typeReq wValue wIndex :
  step_inv keeps_bus_state (hub_control_locked env cfg typeReq wValue wIndex).
Proof.
  unfold hub_control_locked, clear_port_feature, get_port_status, gps_resolve, gps_settle,
    gps_finish, gps_change_bits, gps_resume, gps_reset, gps_stale, gps_companion, gps_compose,
    check_reset_complete, spf_debug_gate, set_port_feature, spf_suspend, spf_reset, spf_test.
  keeps_bus.
  - apply test_suspend_enabled_keeps_bus_state.
  - intros s o s' E. inversion E. apply keeps_bus_state_log.
Qed.

(** X4: no hub request, whatever its code and arguments, changes what the
    bus suspend recorded: the [bus_suspended] and [owned_ports] bitmaps, the
    state of the root hub, the saved command and the time of the next state
    change are after the request what they were before. *)
Theorem hub_request_keeps_bus_state env cfg typeReq wValue wIndex s :
  keeps_bus_state s (snd (ehci_hub_control env cfg typeReq wValue wIndex s)).
Proof.
  apply hub_control_step_inv. apply hub_control_locked_keeps_bus_state.
Qed.

(** ** [ehci_handover_companion_ports] goes by what was recorded *)

Lemma test_bit_clear_bit_true (i j x : Z) :
  test_bit i (clear_bit j x) = true -> test_bit i x = true.
Proof.
  unfold test_bit, clear_bit. rewrite Z.land_spec. intros H.
  now apply andb_true_iff in H.
Qed.

(** The request the recovery issues on port index [p] is one on that port. *)
Lemma own_port_of_request (p : Z) : 0 <= p < 15 -> Z.land (u16 (p + 1)) 0xff - 1 = p.
Proof.
  intros Hp. unfold u16. rewrite Z.mod_small by lia.
  change 0xff with (Z.ones 8). rewrite Z.land_ones by lia.
  rewrite Z.mod_small by lia. lia.
Qed.

Lemma hub_control_call_recorded env cfg owned typeReq wValue p s :
  0 <= p < 15 -> test_bit p owned = true ->
  (u16 typeReq = SetPortFeature -> u16 wValue <> USB_PORT_FEAT_TEST) ->
  exists s1,
    hub_control_call env cfg typeReq wValue (p + 1) s = (Done tt, s1) /\
    only (recorded_port_only owned) s s1 /\ owned_ports s1 = owned_ports s /\
    bus_suspended s1 = bus_suspended s.
Proof.
  intros Hp Hb Hv. eexists. split; [ reflexivity |].
  split.
  - eapply only_weaken;
      [| apply hub_control_step_inv; apply hub_control_locked_own_port; exact Hv ].
    rewrite (own_port_of_request p Hp).
    intros [[] v|w []|[] m d u rc|c]; simpl; intros; subst; try exact I; exact Hb.
  - pose proof (hub_control_step_inv keeps_bus_state env cfg typeReq wValue (p + 1)
                  (hub_control_locked_keeps_bus_state env cfg _ _ _) s) as (A1 & A2 & _).
    now split.
Qed.

Lemma handover_reset_owned_recorded env cfg owned (n : nat) :
  (Z.of_nat n <= 15) ->
  forall s, recorded_in owned s ->
    exists s1, handover_reset_owned env cfg n s = (Done tt, s1) /\
               only (recorded_port_only owned) s s1 /\ recorded_in owned s1 /\
               bus_suspended s1 = bus_suspended s.
Proof.
  induction n as [|k IH]; intros Hn s Hs.
  - exists s. split; [ reflexivity |]. split; [ apply only_refl | now split ].
  - cbn [handover_reset_owned]. cbv zeta.
    unfold bind at 1. unfold gets at 1.
    assert (H1 : exists s1,
               (if test_bit (Z.of_nat k) (owned_ports s)
                then
                  v <- ehci_readl env (port_status (Z.of_nat k)) ;;
                  (if tst (Z.land v (Z.lnot PORT_RWC_BITS)) PORT_OWNER
                   then modify (fun s => set_owned_ports
                                           (clear_bit (Z.of_nat k) (owned_ports s)) s)
                   else if test_bit (Z.of_nat k) (companion_ports cfg)
                        then ehci_writel (Z.land (Z.land v (Z.lnot PORT_RWC_BITS))
                                            (Z.lnot PORT_PE)) (port_status (Z.of_nat k))
                        else hub_control_call env cfg SetPortFeature USB_PORT_FEAT_RESET
                               (Z.of_nat k + 1))
                else ret tt) s = (Done tt, s1) /\
               only (recorded_port_only owned) s s1 /\ recorded_in owned s1 /\
               bus_suspended s1 = bus_suspended s).
    { destruct (test_bit (Z.of_nat k) (owned_ports s)) eqn:Eb.
      - pose proof (Hs _ Eb) as Ho.
        unfold bind at 1. unfold ehci_readl at 1. cbv zeta.
        set (v := u32 (hw_read env (log s) (port_status (Z.of_nat k)))).
        set (s0 := set_log _ s).
        assert (O0 : only (recorded_port_only owned) s s0).
        { exists [ev_readl (port_status (Z.of_nat k)) v].
          split; [ reflexivity | repeat constructor; exact Ho ]. }
        assert (R0 : recorded_in owned s0) by exact Hs.
        assert (B0 : bus_suspended s0 = bus_suspended s) by reflexivity.
        clearbody s0.
        destruct (tst (Z.land v (Z.lnot PORT_RWC_BITS)) PORT_OWNER).
        + eexists. split; [ reflexivity |]. split; [| split ].
          * eapply only_trans; [ exact O0 |]. exists []. split; [ reflexivity | constructor ].
          * intros p Hp. apply R0. simpl in Hp. now apply test_bit_clear_bit_true in Hp.
          * exact B0.
        + destruct (test_bit (Z.of_nat k) (companion_ports cfg)).
          * eexists. split; [ reflexivity |]. split; [| split ].
            -- eapply only_trans; [ exact O0 |]. eexists [_].
               split; [ reflexivity | repeat constructor; exact Ho ].
            -- exact R0.
            -- exact B0.
          * destruct (hub_control_call_recorded env cfg owned SetPortFeature
                        USB_PORT_FEAT_RESET (Z.of_nat k) s0 ltac:(lia) Ho)
              as (s1 & E1 & O1 & P1 & B1).
            { intros _. vm_compute. discriminate. }
            exists s1. split; [ exact E1 |]. split; [| split ].
            -- eapply only_trans; eassumption.
            -- intros p Hp. apply R0. now rewrite <- P1.
            -- now rewrite B1.
      - exists s. split; [ reflexivity |]. split; [ apply only_refl | now split ]. }
    destruct H1 as (s1 & E1 & O1 & R1 & B1).
    unfold bind at 1. rewrite E1.
    destruct (IH ltac:(lia) s1 R1) as (s2 & E2 & O2 & R2 & B2).
    exists s2. split; [ exact E2 |]. split; [ eapply only_trans; eassumption |].
    split; [ exact R2 | now rewrite B2 ].
Qed.

Lemma handover_verify_owned_recorded env cfg owned (n : nat) :
  (Z.of_nat n <= 15) ->
  forall s, recorded_in owned s ->
    exists s1, handover_verify_owned env cfg n s = (Done tt, s1) /\
               only (recorded_port_only owned) s s1 /\ recorded_in owned s1 /\
               bus_suspended s1 = bus_suspended s.
Proof.
  induction n as [|k IH]; intros Hn s Hs.
  - exists s. split; [ reflexivity |]. split; [ apply only_refl | now split ].
  - cbn [handover_verify_owned]. cbv zeta.
    unfold bind at 1. unfold gets at 1.
    assert (H1 : exists s1,
               (if test_bit (Z.of_nat k) (owned_ports s)
                then
                  hub_control_call env cfg GetPortStatus 0 (Z.of_nat k + 1) ;;
                  v <- ehci_readl env (port_status (Z.of_nat k)) ;;
                  (if tst (Z.land v (Z.lnot PORT_RWC_BITS)) PORT_OWNER
                   then ehci_writel (Z.lor (Z.land v (Z.lnot PORT_RWC_BITS)) PORT_CSC)
                          (port_status (Z.of_nat k))
                   else ehci_writel (Z.land (Z.land v (Z.lnot PORT_RWC_BITS))
                                       (Z.lnot PORT_PE)) (port_status (Z.of_nat k)))
                else ret tt) s = (Done tt, s1) /\
               only (recorded_port_only owned) s s1 /\ recorded_in owned s1 /\
               bus_suspended s1 = bus_suspended s).
    { destruct (test_bit (Z.of_nat k) (owned_ports s)) eqn:Eb.
      - pose proof (Hs _ Eb) as Ho.
        destruct (hub_control_call_recorded env cfg owned GetPortStatus 0 (Z.of_nat k) s
                    ltac:(lia) Ho) as (s0 & E0 & O0 & P0 & B0).
        { intros Hr. vm_compute in Hr. discriminate. }
        unfold bind at 1. rewrite E0.
        unfold bind at 1. unfold ehci_readl at 1. cbv zeta.
        set (v := u32 (hw_read env (log s0) (port_status (Z.of_nat k)))).
        destruct (tst (Z.land v (Z.lnot PORT_RWC_BITS)) PORT_OWNER).
        all: eexists; (split; [ reflexivity |]); (split; [| split ]);
          [ eapply only_trans; [ exact O0 |]; eexists [_; _];
            split; [ reflexivity | repeat constructor; exact Ho ]
          | intros p Hp; apply Hs; simpl in Hp; now rewrite <- P0
          | simpl; exact B0 ].
      - exists s. split; [ reflexivity |]. split; [ apply only_refl | now split ]. }
    destruct H1 as (s1 & E1 & O1 & R1 & B1).
    unfold bind at 1. rewrite E1.
    destruct (IH ltac:(lia) s1 R1) as (s2 & E2 & O2 & R2 & B2).
    exists s2. split; [ exact E2 |]. split; [ eapply only_trans; eassumption |].
    split; [ exact R2 | now rewrite B2 ].
Qed.

(** X20: [ehci_handover_companion_ports] accesses the registers of no port
    that is not recorded in [owned_ports] when it is called; it ends with
    nothing recorded, leaves [bus_suspended] as it was, and with nothing
    recorded at the start it does nothing at all. *)
Theorem handover_goes_by_the_record env cfg s :
  let s' := ehci_handover_companion_ports env cfg s in
  only (recorded_port_only (owned_ports s)) s s' /\
  owned_ports s' = 0 /\ bus_suspended s' = bus_suspended s /\
  (owned_ports s = 0 -> s' = s).
Proof.
  cbv zeta. pose proof (HCS_N_PORTS_range (hcs_params cfg)) as Hn.
  assert (Hn' : Z.of_nat (Z.to_nat (HCS_N_PORTS (hcs_params cfg))) <= 15)
    by (rewrite Z2Nat.id; lia).
  assert (H : only (recorded_port_only (owned_ports s)) s
                (ehci_handover_companion_ports env cfg s) /\
              bus_suspended (ehci_handover_companion_ports env cfg s) = bus_suspended s).
  { unfold ehci_handover_companion_ports.
    destruct (owned_ports s =? 0); [ split; [ apply only_refl | reflexivity ] |].
    cbv zeta. set (owned := owned_ports s).
    assert (R0 : recorded_in owned s) by (intros p Hp; exact Hp).
    clearbody owned.
    set (n := Z.to_nat (HCS_N_PORTS (hcs_params cfg))) in *.
    match goal with
    | |- only _ s (snd (?m s)) /\ _ =>
        assert (H : forall o sF, m s = (o, sF) ->
                  only (recorded_port_only owned) s sF /\ bus_suspended sF = bus_suspended s);
        [| destruct (m s) as [o sF] eqn:EF; exact (H o sF eq_refl) ]
    end.
    intros o sF.
    (* the first sleep *)
    assert (S0 : forall msecs st, recorded_in owned st ->
              exists st1, msleep env msecs st = (Done tt, st1) /\
                          only (recorded_port_only owned) st st1 /\
                          recorded_in owned st1 /\ bus_suspended st1 = bus_suspended st).
    { intros msecs st Hst. eexists. split; [ reflexivity |].
      split; [ eexists [_]; split; [ reflexivity | repeat constructor ] |].
      split; [ exact Hst | reflexivity ]. }
    destruct (S0 20 s R0) as (s1 & E1 & O1 & R1 & B1).
    unfold bind at 1. rewrite E1.
    destruct (handover_reset_owned_recorded env cfg owned n Hn' s1 R1)
      as (s2 & E2 & O2 & R2 & B2).
    unfold bind at 1. rewrite E2.
    unfold bind at 1. unfold gets at 1.
    destruct (owned_ports s2 =? 0).
    { intros EF. inversion EF; subst sF.
      split; [ eapply only_trans; eassumption | now rewrite B2 ]. }
    destruct (S0 90 s2 R2) as (s3 & E3 & O3 & R3 & B3).
    unfold bind at 1. rewrite E3.
    destruct (handover_verify_owned_recorded env cfg owned n Hn' s3 R3)
      as (s4 & E4 & O4 & R4 & B4).
    unfold bind at 1. rewrite E4.
    intros EF. inversion EF; subst sF.
    split.
    - eapply only_trans; [ exact O1 |]. eapply only_trans; [ exact O2 |].
      eapply only_trans; [ exact O3 |]. eapply only_trans; [ exact O4 |].
      exists []. split; [ reflexivity | constructor ].
    - simpl. now rewrite B4, B3, B2. }
  destruct H as (H1 & H2).
  split; [ exact H1 |]. split; [ apply handover_clears_owned_ports |].
  split; [ exact H2 | apply handover_nothing_owned ].
Qed.

(** ** [ehci_hub_status_data] polls, and nothing more *)

Lemma status_ports_reads env cfg ppcd mask (n : nat) :
  forall (i : Z) (acc : status_acc) (s : ehci_hcd),
    exists evs acc',
      status_ports env cfg ppcd mask i n acc s = (Done acc', set_log (evs ++ log s) s) /\
      Forall is_read evs /\
      (forall r v, In (ev_readl r v) evs ->
         exists q, r = port_status q /\ i <= q < i + Z.of_nat n /\
                   has_ppcd cfg && negb (tst ppcd (Z.shiftl 1 q)) = false) /\
      (forall q, i <= q < i + Z.of_nat n ->
         has_ppcd cfg && negb (tst ppcd (Z.shiftl 1 q)) = false ->
         exists v, In (ev_readl (port_status q) v) evs).
Proof.
  induction n as [|k IH]; intros i acc s.
  - exists [], acc. split; [ destruct s; reflexivity |]. split; [ constructor |].
    split; [ intros r v [] | intros q Hq; lia ].
  - cbn [status_ports].
    assert (H1 : exists e1 acc1,
               status_port env cfg ppcd mask i acc s = (Done acc1, set_log (e1 ++ log s) s) /\
               e1 = (if has_ppcd cfg && negb (tst ppcd (Z.shiftl 1 i)) then []
                     else [ev_readl (port_status i) (u32 (hw_read env (log s) (port_status i)))])).
    { destruct acc as [[b0 b1] st]. unfold status_port.
      destruct (has_ppcd cfg && negb (tst ppcd (Z.shiftl 1 i))).
      - eexists [], _. split; [ destruct s; reflexivity | reflexivity ].
      - unfold bind at 1. unfold ehci_readl at 1. cbv zeta.
        unfold bind at 1. unfold gets at 1.
        match goal with |- context [if ?b then _ else _] => destruct b end;
          [ destruct (i <? 7) |]; eexists [_], _; split; reflexivity. }
    destruct H1 as (e1 & acc1 & E1 & He1).
    unfold bind at 1. rewrite E1.
    destruct (IH (i + 1) acc1 (set_log (e1 ++ log s) s)) as (e2 & acc2 & E2 & F2 & R2 & A2).
    exists (e2 ++ e1), acc2. split.
    { rewrite E2. f_equal. unfold set_log; simpl. now rewrite <- app_assoc. }
    split.
    { apply Forall_app. split; [ exact F2 |]. subst e1.
      destruct (has_ppcd cfg && negb (tst ppcd (Z.shiftl 1 i))); repeat constructor. }
    split.
    + intros r v Hin. apply in_app_or in Hin. destruct Hin as [Hin|Hin].
      * destruct (R2 r v Hin) as (q & -> & Hq & Hs). exists q.
        split; [ reflexivity |]. split; [ lia | exact Hs ].
      * subst e1. destruct (has_ppcd cfg && negb (tst ppcd (Z.shiftl 1 i))) eqn:Es;
          [ destruct Hin |].
        destruct Hin as [Hin|[]]. inversion Hin; subst. exists i.
        split; [ reflexivity |]. split; [ lia | exact Es ].
    + intros q Hq Hs. destruct (Z.eq_dec q i) as [->|Hne].
      * subst e1. rewrite Hs. eexists. apply in_or_app. right. now left.
      * destruct (A2 q ltac:(lia) Hs) as (v & Hin). exists v. apply in_or_app. now left.
Qed.

(** X21: on a running root hub [ehci_hub_status_data] writes no register.
    It reads, and when a port resume is in progress it last re-arms the
    root-hub timer 25 ms ahead, and that is all.  The status register is
    read exactly on a controller with per-port change detection; a port
    register is read exactly for the ports of the hub that the status
    register flags there, and for every port of the hub on a controller
    without it. *)
Theorem hub_status_data_only_reads env cfg buf s :
  rh_state s = EHCI_RH_RUNNING ->
  let ports := HCS_N_PORTS (hcs_params cfg) in
  let ppcd := Z.shiftr (u32 (hw_read env (log s) reg_status)) 16 in
  exists reads,
    log (snd (ehci_hub_status_data env cfg buf s))
    = (if resuming_ports s =? 0 then []
       else [ev_call (x_mod_timer rh_timer (deadline env s 25))]) ++ reads ++ log s /\
    Forall is_read reads /\
    ((exists v, In (ev_readl reg_status v) reads) <-> has_ppcd cfg = true) /\
    (forall q, (exists v, In (ev_readl (port_status q) v) reads) <->
               0 <= q < ports /\ (has_ppcd cfg = false \/ tst ppcd (Z.shiftl 1 q) = true)).
Proof.
  intros Hrun ports ppcd.
  pose proof (HCS_N_PORTS_range (hcs_params cfg)) as Hports. fold ports in Hports.
  unfold ehci_hub_status_data. rewrite Hrun. cbn [rh_state_eqb negb]. fold ports.
  destruct (if 7 <? ports then (0, 2) else (snd buf, 1)) as [b1i retval].
  (* the per-port change detect bits *)
  assert (Hppcd : exists pre pp,
            (if has_ppcd cfg
             then bind (ehci_readl env reg_status) (fun v => ret (Z.shiftr v 16))
             else ret 0) s = (Done pp, set_log (pre ++ log s) s) /\
            pre = (if has_ppcd cfg
                   then [ev_readl reg_status (u32 (hw_read env (log s) reg_status))] else []) /\
            (has_ppcd cfg = true -> pp = ppcd)).
  { destruct (has_ppcd cfg).
    - eexists [_], _. split; [ reflexivity |]. split; reflexivity.
    - exists [], 0. split; [ destruct s; reflexivity |]. split; [ reflexivity | discriminate ]. }
  destruct Hppcd as (pre & pp & Ep & Hpre & Hpp).
  unfold bind at 1. rewrite Ep. cbv beta iota.
  destruct (status_ports_reads env cfg pp (change_mask cfg) (Z.to_nat ports) 0
              (0, b1i, resuming_ports s) (set_log (pre ++ log s) s))
    as (evs & [[b0' b1'] st'] & El & Fl & Rl & Al).
  rewrite Z2Nat.id in Rl, Al by lia.
  unfold bind at 1. rewrite El. cbv beta iota.
  unfold bind at 1. unfold gets at 1.
  exists (evs ++ pre).
  assert (Hskip : forall q, has_ppcd cfg && negb (tst pp (Z.shiftl 1 q)) = false <->
                            has_ppcd cfg = false \/ tst ppcd (Z.shiftl 1 q) = true).
  { intros q. destruct (has_ppcd cfg) eqn:Eh.
    - rewrite (Hpp eq_refl). cbn [andb]. destruct (tst ppcd (Z.shiftl 1 q)); cbn [negb].
      + split; [ now right | reflexivity ].
      + split; [ discriminate | intros [H|H]; discriminate ].
    - cbn [andb]. split; [ now left | reflexivity ]. }
  split.
  { cbn [set_log log resuming_ports].
    destruct (resuming_ports s =? 0); cbn [negb when]; unfold bind, ret, call, emit, modify;
      cbn [snd set_log log app]; rewrite <- ?app_assoc; reflexivity. }
  split.
  { apply Forall_app. split; [ exact Fl |]. subst pre.
    destruct (has_ppcd cfg); repeat constructor. }
  split.
  - split.
    + intros (v & Hin). apply in_app_or in Hin. destruct Hin as [Hin|Hin].
      * destruct (Rl _ _ Hin) as (q & Hq & _). discriminate.
      * subst pre. destruct (has_ppcd cfg); [ reflexivity | destruct Hin ].
    + intros Hh. subst pre. rewrite Hh. eexists. apply in_or_app. right. now left.
  - intros q. split.
    + intros (v & Hin). apply in_app_or in Hin. destruct Hin as [Hin|Hin].
      * destruct (Rl _ _ Hin) as (q' & Hq & Hr & Hs). inversion Hq; subst q'.
        split; [ lia | now apply Hskip ].
      * subst pre. destruct (has_ppcd cfg); [ destruct Hin as [Hin|[]]; discriminate
                                             | destruct Hin ].
    + intros (Hq & Hf). apply Hskip in Hf.
      destruct (Al q ltac:(lia) Hf) as (v & Hin). exists v. apply in_or_app. now left.
Qed.

(** X21 on a plain controller with nothing in progress. *)
Lemma hub_status_data_only_reads_witness :
  exists reads,
    log (snd (ehci_hub_status_data (steady 0x1005 0) plain_config (0, 0) idle_state))
    = reads /\ Forall is_read reads.
Proof.
  destruct (hub_status_data_only_reads (steady 0x1005 0) plain_config (0, 0) idle_state
              eq_refl) as (reads & L & F & _).
  exists reads. split; [| exact F ].
  rewrite L. apply app_nil_r.
Defined.

(** ** GetPortStatus after a reset that left the port disabled *)

Lemma gps_after_reset_extends env cfg idx hreg status temp :
  step_inv extends
    (gps_stale idx temp ;;
     temp <- gps_companion env cfg idx (port_status idx) temp ;;
     gps_compose env cfg idx hreg temp status).
Proof.
  apply (inv_bind _ extends_trans); [ by_extends inv_gps_stale | intros ? ].
  apply (inv_bind _ extends_trans); [ by_extends inv_gps_companion | intros ? ].
  apply gps_compose_extends.
Qed.

Lemma gps_after_reset_reads env cfg idx hreg status temp :
  test_bit idx (companion_ports cfg) = false ->
  step_inv (only is_read)
    (gps_stale idx temp ;;
     temp <- gps_companion env cfg idx (port_status idx) temp ;;
     gps_compose env cfg idx hreg temp status).
Proof.
  intros Hc. unfold gps_stale, gps_companion, gps_compose. rewrite Hc, andb_false_r.
  only_walk.
  all: apply only_readl; intros; exact I.
Qed.

(** X22: when GetPortStatus on an in-range port completes a reset (the port
    in reset and not resuming, the deadline reached, the poll for the reset
    bit successful) and the register then reads connected but not enabled:
    on a controller without an integrated transaction translator the port is
    handed to the companion, the register being written next with the owner
    bit set and the change latches clear (and the companion told, on the
    AMCC part); with an integrated transaction translator, on a port not
    statically routed to the companion, nothing more is written. *)
Theorem reset_completion_hands_over env cfg port s ts sA :
  1 <= port <= HCS_N_PORTS (hcs_params cfg) ->
  let idx := port - 1 in
  let status_reg := port_status idx in
  let r := ehci_hub_control env cfg GetPortStatus 0 port s in
  gps_change_bits env cfg status_reg s = (Done ts, sA) ->
  tst (fst ts) PORT_RESUME = false ->
  tst (fst ts) PORT_RESET = true ->
  time_after_eq (jiffies s) (reset_done s idx) = true ->
  let w := Z.land (fst ts) (Z.lnot (Z.lor PORT_RWC_BITS PORT_RESET)) in
  let l1 := ev_writel w status_reg :: log sA in
  let l2 := ev_handshake status_reg PORT_RESET 0 1000 0 :: l1 in
  let v := u32 (hw_read env l2 status_reg) in
  hw_handshake env l1 status_reg PORT_RESET 0 1000 = 0 ->
  tst v PORT_CONNECT = true -> tst v PORT_PE = false ->
  let w2 := Z.land (Z.lor v PORT_OWNER) (Z.lnot PORT_RWC_BITS) in
  (ehci_is_TDI cfg = false ->
   tst w2 PORT_OWNER = true /\ Z.land w2 PORT_RWC_BITS = 0 /\
   exists evs,
     log (snd r) = evs ++ ev_writel w2 status_reg :: ev_readl status_reg v :: l2 /\
     (has_amcc_usb23 cfg = true -> In (ev_call (x_set_ohci_hcfs 1)) evs)) /\
  (ehci_is_TDI cfg = true -> test_bit idx (companion_ports cfg) = false ->
   exists evs,
     log (snd r) = evs ++ ev_readl status_reg v :: l2 /\ Forall is_read evs).
Proof.
  intros Hr idx status_reg r Ecb Hres Hrst Hel w l1 l2 v Hrc Hconn Hpe w2.
  assert (Hi : 0 <= idx) by (subst idx; lia).
  destruct (gps_change_bits_state _ _ _ _ _ _ Ecb) as (e0 & HsA).
  assert (Hj : jiffies sA = jiffies s) by (rewrite HsA; reflexivity).
  assert (Hd : reset_done sA = reset_done s) by (rewrite HsA; reflexivity).
  subst r. rewrite (hub_control_get_port_status env cfg port Hr).
  fold idx. fold status_reg.
  rewrite (get_port_status_after_change_bits _ _ _ _ _ _ _ _ Ecb).
  unfold status_reg.
  rewrite gps_settle_reset_due
    by (try assumption; rewrite Hrst, Hj, Hd; exact Hel).
  cbv zeta. fold status_reg. fold w.
  set (sW := set_log (ev_writel w status_reg :: log sA) _).
  change (hw_handshake env (log sW) status_reg PORT_RESET 0 1000)
    with (hw_handshake env l1 status_reg PORT_RESET 0 1000).
  rewrite Hrc. cbn [Z.eqb].
  set (sH := set_log (ev_handshake status_reg PORT_RESET 0 1000 0 :: log sW) sW).
  assert (HlH : log sH = l2) by reflexivity.
  clearbody sH. rewrite HlH. fold v.
  set (sR := set_log (ev_readl status_reg v :: l2) sH).
  assert (HlR : log sR = ev_readl status_reg v :: l2) by reflexivity.
  clearbody sR.
  set (st := Z.lor (snd ts) (Z.shiftl USB_PORT_STAT_C_RESET 16)).
  destruct (reset_tail_total env cfg idx (hostpc_reg_of cfg port) v st sR) as (word & s' & E).
  fold status_reg in E. rewrite E. cbn [fst snd].
  apply bind_done_inv in E. destruct E as (temp & s1 & E1 & E2).
  unfold check_reset_complete in E1. rewrite Hconn, Hpe in E1. cbn [negb] in E1.
  split.
  - intros Htdi. rewrite Htdi in E1. cbv zeta in E1. fold w2 in E1.
    split; [ subst w2; rewrite tst_land_l, tst_lor_l;
             change (tst PORT_OWNER PORT_OWNER) with true;
             change (tst (Z.lnot PORT_RWC_BITS) PORT_OWNER) with true;
             now rewrite orb_true_r |].
    split; [ subst w2; rewrite <- Z.land_assoc;
             change (Z.land (Z.lnot PORT_RWC_BITS) PORT_RWC_BITS) with 0;
             apply Z.land_0_r |].
    pose proof (gps_after_reset_extends env cfg idx _ _ _ _ _ _ E2) as (evs & L2).
    destruct (has_amcc_usb23 cfg);
      unfold bind, ehci_writel, when, call, emit, modify, ret in E1; inversion E1; subst temp s1.
    + exists (evs ++ [ev_call (x_set_ohci_hcfs 1)]). split.
      * rewrite L2. cbn [log set_log]. rewrite HlR, <- app_assoc. reflexivity.
      * intros _. apply in_or_app. right. now left.
    + exists evs. split; [| discriminate ].
      rewrite L2. cbn [log set_log]. now rewrite HlR.
  - intros Htdi Hcomp. rewrite Htdi in E1. inversion E1; subst temp s1.
    pose proof (gps_after_reset_reads env cfg idx _ _ _ Hcomp _ _ _ E2) as (evs & L2 & F2).
    exists evs. split; [ now rewrite L2, HlR | exact F2 ].
Qed.

(** X22 on port 1: the register reads in reset, then connected and not
    enabled; it is written with the owner bit. *)
Lemma reset_completion_hands_over_witness :
  exists evs,
    log (snd (ehci_hub_control (scripted [0x1101; 0x1001] 0) plain_config GetPortStatus 0 1
                idle_state))
    = evs ++ [ev_writel 0x3001 (port_status 0); ev_readl (port_status 0) 0x1001;
              ev_handshake (port_status 0) PORT_RESET 0 1000 0;
              ev_writel 0x1001 (port_status 0); ev_readl (port_status 0) 0x1101].
Proof.
  destruct (reset_completion_hands_over (scripted [0x1101; 0x1001] 0) plain_config 1
              idle_state (0x1101, 0)
              (snd (gps_change_bits (scripted [0x1101; 0x1001] 0) plain_config (port_status 0)
                      idle_state))
              ltac:(vm_compute; split; discriminate)
              eq_refl eq_refl eq_refl eq_refl eq_refl eq_refl eq_refl) as (H & _).
  destruct (H eq_refl) as (_ & _ & evs & L & _).
  exists evs. exact L.
Defined.

(** ** Disabling a port, and the reset change that is not cleared here *)

(** X23: on an in-range port ClearPortFeature(ENABLE) succeeds with a read of
    the port register, one write and a read of the command register.  The
    value written has the enable bit clear and is otherwise the value read,
    change latches included: the latches that were pending are written back
    as ones.  ClearPortFeature(C_RESET) succeeds having written nothing. *)
Theorem clear_enable_disables_port env cfg port s :
  1 <= port <= HCS_N_PORTS (hcs_params cfg) ->
  let status_reg := port_status (port - 1) in
  let temp := u32 (hw_read env (log s) status_reg) in
  let w := Z.land temp (Z.lnot PORT_PE) in
  (exists c,
     ehci_hub_control env cfg ClearPortFeature USB_PORT_FEAT_ENABLE port s
     = (0, no_reply,
        set_log (ev_readl reg_command c :: ev_writel w status_reg
                   :: ev_readl status_reg temp :: log s) s)) /\
  tst w PORT_PE = false /\
  (forall m, Z.land m PORT_PE = 0 -> Z.land w m = Z.land temp m) /\
  Z.land w PORT_RWC_BITS = Z.land temp PORT_RWC_BITS /\
  (exists c,
     ehci_hub_control env cfg ClearPortFeature USB_PORT_FEAT_C_RESET port s
     = (0, no_reply, set_log (ev_readl reg_command c :: ev_readl status_reg temp :: log s) s)).
Proof.
  intros Hr status_reg temp w.
  assert (Hkeep : forall m, Z.land m PORT_PE = 0 -> Z.land w m = Z.land temp m).
  { intros m Hm. subst w. now apply land_lnot_disjoint. }
  split.
  { rewrite (hub_control_clear_port_feature env cfg port Hr).
    unfold clear_port_feature.
    change (u16 USB_PORT_FEAT_ENABLE =? USB_PORT_FEAT_ENABLE) with true. cbv iota.
    eexists. reflexivity. }
  split.
  { subst w. tst_done. }
  split; [ exact Hkeep |].
  split; [ apply Hkeep; reflexivity |].
  rewrite (hub_control_clear_port_feature env cfg port Hr).
  unfold clear_port_feature.
  eexists. reflexivity.
Qed.

(** X23 on port 1, enabled, with the connect and enable latches pending. *)
Lemma clear_enable_disables_port_witness :
  exists c,
    ehci_hub_control (scripted [0x100f; 0x10001] 0) plain_config ClearPortFeature
      USB_PORT_FEAT_ENABLE 1 idle_state
    = (0, no_reply,
       set_log [ev_readl reg_command c; ev_writel 0x100b (port_status 0);
                ev_readl (port_status 0) 0x100f] idle_state).
Proof.
  destruct (clear_enable_disables_port (scripted [0x100f; 0x10001] 0) plain_config 1
              idle_state ltac:(vm_compute; split; discriminate)) as ((c & E) & _).
  exists c. exact E.
Defined.
